(** * Envio-SCP-Servidores: the upload orchestration of
      [src/upload_to_gaio_inputs.py], embedded and verified.

    The script scans a local directory, pushes every matching file to a remote
    host with [scp], archives / deletes / keeps the local copy and appends one
    JSON line per decision to a log file.  The embedding follows the script
    function by function.  What the script obtains from the outside (the
    clock, the child processes [ssh] and [scp], the JSON encoder) is gathered
    in a record of oracles, [Env]; the local file system, the standard streams
    and the history of executed commands form the explicit state, [World]. *)

From Stdlib Require Import ZArith Lia.
From Stdlib Require Import Strings.String Strings.Ascii Strings.Byte.
From stdpp Require Import gmap strings list fin_maps pretty.
From Equations Require Import Equations.

Local Open Scope Z_scope.

(** ** hashlib.sha256

    [sha256_file] drives a [hashlib] hash object through [update] and
    [hexdigest].  The object is modelled as the streaming construction of
    FIPS 180-4: a chaining value of eight 32-bit words, the bytes of the
    unfinished block and the number of bytes absorbed. *)
Module Hashlib.

Definition byte_val (b : byte) : Z := Z.of_N (Byte.to_N b).
Definition byte_of_Z (z : Z) : byte :=
  match Byte.of_N (Z.to_N (z mod 256)) with Some b => b | None => x00 end.

Definition mask32 (x : Z) : Z := Z.land x 0xFFFFFFFF.
Definition add32 (x y : Z) : Z := mask32 (x + y).
Definition rotr (n x : Z) : Z :=
  mask32 (Z.lor (Z.shiftr x n) (Z.shiftl x (32 - n))).
Definition lnot32 (x : Z) : Z := Z.lxor x 0xFFFFFFFF.

Definition Ch (x y z : Z) : Z := Z.lxor (Z.land x y) (Z.land (lnot32 x) z).
Definition Maj (x y z : Z) : Z :=
  Z.lxor (Z.lxor (Z.land x y) (Z.land x z)) (Z.land y z).
Definition bsig0 (x : Z) : Z := Z.lxor (Z.lxor (rotr 2 x) (rotr 13 x)) (rotr 22 x).
Definition bsig1 (x : Z) : Z := Z.lxor (Z.lxor (rotr 6 x) (rotr 11 x)) (rotr 25 x).
Definition ssig0 (x : Z) : Z := Z.lxor (Z.lxor (rotr 7 x) (rotr 18 x)) (Z.shiftr x 3).
Definition ssig1 (x : Z) : Z := Z.lxor (Z.lxor (rotr 17 x) (rotr 19 x)) (Z.shiftr x 10).

(** The first 64 primes. *)
Definition is_prime (n : nat) : bool :=
  forallb (fun d => negb (Nat.eqb (n mod d) 0)) (seq 2 (n - 2)).
Definition primes : list Z :=
  map Z.of_nat (take 64 (List.filter is_prime (seq 2 310))).

(** The integer root: the greatest [r] below [2 ^ bits] with [pow r <= n]. *)
Fixpoint iroot (pow : Z -> Z) (bits : nat) (n r : Z) : Z :=
  match bits with
  | O => r
  | S b =>
      let c := r + 2 ^ Z.of_nat b in
      iroot pow b n (if pow c <=? n then c else r)
  end.

(** The first 32 bits of the fractional parts of the cube roots (round
    constants) and of the square roots (initial hash value) of the first
    primes: FIPS 180-4, sections 4.2.2 and 5.3.3. *)
Definition round_constants : list Z :=
  Eval vm_compute in
    map (fun p => iroot (fun x => x * x * x) 36 (p * 2 ^ 96) 0 mod 2 ^ 32) primes.

Definition initial_hash : list Z :=
  Eval vm_compute in
    map (fun p => iroot (fun x => x * x) 36 (p * 2 ^ 64) 0 mod 2 ^ 32) (take 8 primes).

(** Big-endian 32-bit words of a block. *)
Fixpoint words_of_bytes (bs : list byte) : list Z :=
  match bs with
  | b0 :: b1 :: b2 :: b3 :: rest =>
      (Z.shiftl (byte_val b0) 24 + Z.shiftl (byte_val b1) 16
       + Z.shiftl (byte_val b2) 8 + byte_val b3) :: words_of_bytes rest
  | _ => []
  end.

(** The message schedule, newest word first while it is being extended. *)
Fixpoint extend_schedule (n : nat) (rw : list Z) : list Z :=
  match n with
  | O => rw
  | S n' =>
      let w := add32 (add32 (ssig1 (nth 1 rw 0)) (nth 6 rw 0))
                     (add32 (ssig0 (nth 14 rw 0)) (nth 15 rw 0)) in
      extend_schedule n' (w :: rw)
  end.

Definition schedule (block : list byte) : list Z :=
  rev (extend_schedule 48 (rev (words_of_bytes block))).

Record regs := Regs { ra : Z; rb : Z; rc : Z; rd : Z; re : Z; rf : Z; rg : Z; rh : Z }.

Definition round (r : regs) (kw : Z * Z) : regs :=
  let t1 := add32 (add32 (add32 (rh r) (bsig1 (re r))) (Ch (re r) (rf r) (rg r)))
                  (add32 (fst kw) (snd kw)) in
  let t2 := add32 (bsig0 (ra r)) (Maj (ra r) (rb r) (rc r)) in
  Regs (add32 t1 t2) (ra r) (rb r) (rc r) (add32 (rd r) t1) (re r) (rf r) (rg r).

Definition regs_of (h : list Z) : regs :=
  Regs (nth 0 h 0) (nth 1 h 0) (nth 2 h 0) (nth 3 h 0)
       (nth 4 h 0) (nth 5 h 0) (nth 6 h 0) (nth 7 h 0).

Definition compress (h : list Z) (block : list byte) : list Z :=
  let r0 := regs_of h in
  let r := fold_left round (combine round_constants (schedule block)) r0 in
  [ add32 (ra r0) (ra r); add32 (rb r0) (rb r); add32 (rc r0) (rc r);
    add32 (rd r0) (rd r); add32 (re r0) (re r); add32 (rf r0) (rf r);
    add32 (rg r0) (rg r); add32 (rh r0) (rh r) ].

(** Consume the full 64-byte blocks of [data]; the rest stays buffered. *)
Equations? absorb (h : list Z) (data : list byte) : list Z * list byte
  by wf (length data) lt :=
  absorb h data with decide (length data < 64)%nat => {
    | left _ := (h, data);
    | right _ := absorb (compress h (take 64 data)) (drop 64 data) }.
Proof. rewrite length_drop. lia. Qed.

(** Big-endian encoding of [z] on [n] bytes. *)
Fixpoint be_bytes (n : nat) (z : Z) : list byte :=
  match n with
  | O => []
  | S n' => byte_of_Z (Z.shiftr z (8 * Z.of_nat n')) :: be_bytes n' z
  end.

(** Padding of a message of [len] bytes: 0x80, zeros up to 56 mod 64, and
    the bit length on eight bytes. *)
Definition padding (len : nat) : list byte :=
  let zeros := Z.to_nat ((55 - Z.of_nat len) mod 64) in
  x80 :: replicate zeros x00 ++ be_bytes 8 (8 * Z.of_nat len).

Definition hex_digit (z : Z) : ascii :=
  ascii_of_nat (Z.to_nat (if z <? 10 then 48 + z else 87 + z)).

Fixpoint hex_of_bytes (bs : list byte) : string :=
  match bs with
  | [] => EmptyString
  | b :: rest =>
      String (hex_digit (byte_val b / 16))
        (String (hex_digit (byte_val b mod 16)) (hex_of_bytes rest))
  end.

Definition hex_of_words (ws : list Z) : string :=
  hex_of_bytes (concat (map (be_bytes 4) ws)).

(** The hash object: [hashlib.sha256()], [h.update(b)], [h.hexdigest()]. *)
Record hash_object := HashObject {
  chain : list Z;
  pending : list byte;
  absorbed : nat
}.

Definition sha256_new : hash_object := HashObject initial_hash [] 0.

Definition update (h : hash_object) (b : list byte) : hash_object :=
  let '(c, rest) := absorb (chain h) (pending h ++ b) in
  HashObject c rest (absorbed h + length b).

Definition hexdigest (h : hash_object) : string :=
  hex_of_words (fst (absorb (chain h) (pending h ++ padding (absorbed h)))).

(** The digest of a whole message in one piece (FIPS 180-4, section 6.2):
    pad the message, then fold the compression function over its blocks. *)
Definition sha256 (msg : list byte) : string :=
  hex_of_words (fst (absorb initial_hash (msg ++ padding (length msg)))).

End Hashlib.

Local Open Scope string_scope.
Local Open Scope list_scope.
Local Open Scope stdpp_scope.

(** ** Strings and paths (pathlib)

    A resolved local path is the list of its components, root first; the
    root itself is the empty list.  [PurePath] is the parsed form of an
    arbitrary path string, as [pathlib.PurePosixPath] keeps it. *)
Abbreviation Path := (list string).

Module Pathlib.

Definition slash : ascii := "/"%char.
Definition dot : ascii := "."%char.

Fixpoint join (sep : string) (l : list string) : string :=
  match l with
  | [] => EmptyString
  | [x] => x
  | x :: rest => x +:+ sep +:+ join sep rest
  end.

(** [s.split("/")] *)
Fixpoint split_slash (s : string) : list string :=
  match s with
  | EmptyString => [EmptyString]
  | String c s' =>
      match split_slash s' with
      | h :: t => if Ascii.eqb c slash then EmptyString :: h :: t else String c h :: t
      | [] => [String c EmptyString]
      end
  end.

Definition isabs (s : string) : bool :=
  match s with String c _ => Ascii.eqb c slash | EmptyString => false end.

(** A pure path: its root and its components.  The root is empty for a
    relative path, ["//"] for a string that starts with exactly two
    slashes, which POSIX keeps apart, and ["/"] otherwise. *)
Record PurePath := PP { root : string; parts : list string }.

Definition anchored (p : PurePath) : bool := negb (String.eqb (root p) EmptyString).

Definition root_of (s : string) : string :=
  if String.prefix "///" s then "/"
  else if String.prefix "//" s then "//"
  else if String.prefix "/" s then "/"
  else EmptyString.

Definition significant (c : string) : bool :=
  negb (String.eqb c EmptyString) && negb (String.eqb c ".").

(** [Path(s)]: empty and "." components vanish. *)
Definition parse (s : string) : PurePath :=
  PP (root_of s) (List.filter significant (split_slash s)).

(** [str(p)] *)
Definition render (p : PurePath) : string :=
  if anchored p then root p +:+ join "/" (parts p)
  else match parts p with [] => "." | _ => join "/" (parts p) end.

(** [p / s]: an absolute right operand replaces the left one. *)
Definition joinpath (p : PurePath) (s : string) : PurePath :=
  if isabs s then parse s else PP (root p) (parts p ++ parts (parse s)).

Definition path_str (p : Path) : string := render (PP "/" p).
Definition path_join (p : Path) (s : string) : Path := parts (joinpath (PP "/" p) s).
Definition parent (p : Path) : Path := removelast p.
Definition name (p : Path) : string := List.last p EmptyString.

(** Split a name at its last dot: [name.rfind('.')]. *)
Fixpoint rsplit_dot (s : string) : option (string * string) :=
  match s with
  | EmptyString => None
  | String c s' =>
      match rsplit_dot s' with
      | Some (a, b) => Some (String c a, b)
      | None => if Ascii.eqb c dot then Some (EmptyString, s') else None
      end
  end.

(** [p.suffix] and [p.stem]: the last dot counts when it is neither the
    first nor the last character of the name. *)
Definition suffix (p : Path) : string :=
  match rsplit_dot (name p) with
  | Some (a, b) =>
      if negb (String.eqb a EmptyString) && negb (String.eqb b EmptyString) then "." +:+ b else EmptyString
  | None => EmptyString
  end.

Definition stem (p : Path) : string :=
  match rsplit_dot (name p) with
  | Some (a, b) =>
      if negb (String.eqb a EmptyString) && negb (String.eqb b EmptyString) then a else name p
  | None => name p
  end.

(** [p.resolve()] on a file system without symbolic links: ".." steps up
    and stops at the root. *)
Definition normalize (comps : list string) : Path :=
  fold_left (fun acc c => if String.eqb c ".." then removelast acc else acc ++ [c])
            comps [].

(** [fnmatch] on one component: [*] and [?].  Bracket expressions are not
    modelled and match literally, and names are compared byte by byte, so
    that [?] stands for one byte. *)
Fixpoint fnmatch_chars (pat : list ascii) : list ascii -> bool :=
  match pat with
  | [] => fun s => match s with [] => true | _ => false end
  | c :: pat' =>
      if Ascii.eqb c "*"%char then
        fix star (s : list ascii) : bool :=
          fnmatch_chars pat' s
          || match s with [] => false | _ :: s' => star s' end
      else if Ascii.eqb c "?"%char then
        fun s => match s with [] => false | _ :: s' => fnmatch_chars pat' s' end
      else
        fun s => match s with
                 | [] => false
                 | d :: s' => Ascii.eqb c d && fnmatch_chars pat' s'
                 end
  end.

Definition fnmatch (nm pat : string) : bool :=
  fnmatch_chars (list_ascii_of_string pat) (list_ascii_of_string nm).

(** The relative path of a file against the components of a glob pattern;
    [**] spans any number of directories and, when it ends the pattern,
    selects directories only (Python up to 3.12).  A [..] component, which
    pathlib follows to the parent directory, is not modelled: it is matched
    like a name and so selects nothing in a tree whose paths are free of
    it. *)
Fixpoint match_parts (pats : list string) : list string -> bool :=
  match pats with
  | [] => fun rel => match rel with [] => true | _ => false end
  | p :: pats' =>
      if String.eqb p "**" then
        match pats' with
        | [] => fun _ => false
        | _ =>
            fix skip (rel : list string) : bool :=
              match_parts pats' rel
              || match rel with [] => false | _ :: rel' => skip rel' end
        end
      else
        fun rel => match rel with
                   | [] => false
                   | r :: rel' => fnmatch r p && match_parts pats' rel'
                   end
  end.

(** [s[-1] == "/"] for a string that is not empty *)
Fixpoint ends_with_slash (s : string) : bool :=
  match s with
  | EmptyString => false
  | String c EmptyString => Ascii.eqb c slash
  | String _ s' => ends_with_slash s'
  end.

Definition contains (needle s : string) : bool :=
  match String.index 0 needle s with Some _ => true | None => false end.

(** A component that holds [**] without being [**]. *)
Definition stars_inside (c : string) : bool :=
  contains "**" c && negb (String.eqb c "**").

(** [rel] such that [p = base ++ rel], when [base] is a prefix of [p]. *)
Fixpoint relative_to (base p : Path) : option (list string) :=
  match base, p with
  | [], _ => Some p
  | b :: base', c :: p' => if String.eqb b c then relative_to base' p' else None
  | _ :: _, [] => None
  end.

End Pathlib.

(** ** Exceptions

    Every class below derives from Python's [Exception]; [exn_str] is
    [str(e)]. *)
Inductive ExnClass :=
| RuntimeError | ValueError | NotImplementedError | IndexError | AttributeError
| OverflowError
| FileNotFoundError | FileExistsError | PermissionError
| IsADirectoryError | NotADirectoryError | BlockingIOError | ShutilError.

Record Exn := mkExn { exn_class : ExnClass; exn_str : string }.

(** ** The local file system

    Directories and regular files with their permission bits; there are no
    symbolic links and a single device.  Of the permission bits only the
    owner's read and write bits of regular files are enforced. *)
Inductive Node :=
| Dir (mode : Z)
| File (mode : Z) (data : list byte).

Abbreviation FS := (gmap Path Node).

Module Os.

(** Permission masks, written in octal in the script. *)
Definition o777 : Z := 511.
Definition o755 : Z := 493.
Definition o666 : Z := 438.
Definition o400 : Z := 256.
Definition o200 : Z := 128.
Definition o077 : Z := 63.

Definition node_at (fs : FS) (p : Path) : option Node :=
  match p with [] => Some (Dir o755) | _ => fs !! p end.

Definition exists_ (fs : FS) (p : Path) : bool :=
  match node_at fs p with Some _ => true | None => false end.
Definition is_dir (fs : FS) (p : Path) : bool :=
  match node_at fs p with Some (Dir _) => true | _ => false end.
Definition is_file (fs : FS) (p : Path) : bool :=
  match node_at fs p with Some (File _ _) => true | _ => false end.

Definition quoted (p : Path) : string := "'" +:+ Pathlib.path_str p +:+ "'".
Definition enoent (p : Path) : Exn :=
  mkExn FileNotFoundError ("[Errno 2] No such file or directory: " +:+ quoted p).
Definition eexist (p : Path) : Exn :=
  mkExn FileExistsError ("[Errno 17] File exists: " +:+ quoted p).
Definition eacces (p : Path) : Exn :=
  mkExn PermissionError ("[Errno 13] Permission denied: " +:+ quoted p).
Definition eisdir (p : Path) : Exn :=
  mkExn IsADirectoryError ("[Errno 21] Is a directory: " +:+ quoted p).
Definition enotdir (p : Path) : Exn :=
  mkExn NotADirectoryError ("[Errno 20] Not a directory: " +:+ quoted p).

Definition readable (mode : Z) : bool := negb (Z.eqb (Z.land mode o400) 0).
Definition writable (mode : Z) : bool := negb (Z.eqb (Z.land mode o200) 0).

(** The error of a path walk that does not reach [p]: a regular file
    on the way stops it with ENOTDIR, a missing directory with ENOENT. *)
Definition through_file (fs : FS) (p : Path) : bool :=
  existsb (fun k => is_file fs (take k p)) (seq 1 (length p - 1)).

Definition missing (fs : FS) (p : Path) : Exn :=
  if through_file fs p then enotdir p else enoent p.

(** [os.mkdir(p)] for a process with file-creation mask [umask]. *)
Definition mkdir (umask : Z) (p : Path) (fs : FS) : Exn + FS :=
  match node_at fs p with
  | Some _ => inl (eexist p)
  | None =>
      match node_at fs (Pathlib.parent p) with
      | None => inl (missing fs p)
      | Some (File _ _) => inl (enotdir p)
      | Some (Dir _) => inr (<[p := Dir (Z.ldiff o777 umask)]> fs)
      end
  end.

(** [Path.mkdir(parents=False, exist_ok=True)] *)
Definition mkdir_exist_ok (umask : Z) (p : Path) (fs : FS) : Exn + FS :=
  match mkdir umask p fs with
  | inr fs' => inr fs'
  | inl e =>
      match exn_class e with
      | FileNotFoundError => inl e
      | _ => if is_dir fs p then inr fs else inl e
      end
  end.

(** [Path.mkdir(parents=True, exist_ok=True)], by recursion on the
    components of the path, last one first. *)
Fixpoint mkdir_parents_rev (umask : Z) (rp : list string) (fs : FS) : Exn + FS :=
  let p := rev rp in
  match mkdir umask p fs with
  | inr fs' => inr fs'
  | inl e =>
      match exn_class e with
      | FileNotFoundError =>
          match rp with
          | [] => inl e
          | _ :: rparent =>
              match mkdir_parents_rev umask rparent fs with
              | inl e' => inl e'
              | inr fs1 => mkdir_exist_ok umask p fs1
              end
          end
      | _ => if is_dir fs p then inr fs else inl e
      end
  end.

Definition mkdir_parents (umask : Z) (p : Path) (fs : FS) : Exn + FS :=
  mkdir_parents_rev umask (rev p) fs.

(** [p.stat().st_size] and [p.stat().st_mode & 0o777] *)
Definition st_size (fs : FS) (p : Path) : Exn + Z :=
  match node_at fs p with
  | None => inl (missing fs p)
  | Some (Dir _) => inr 4096
  | Some (File _ data) => inr (Z.of_nat (length data))
  end.

Definition st_mode (fs : FS) (p : Path) : Exn + Z :=
  match node_at fs p with
  | None => inl (missing fs p)
  | Some (Dir m) | Some (File m _) => inr (Z.land m o777)
  end.

(** [p.open("rb")], giving the bytes the handle will deliver. *)
Definition open_rb (fs : FS) (p : Path) : Exn + list byte :=
  match node_at fs p with
  | None => inl (missing fs p)
  | Some (Dir _) => inl (eisdir p)
  | Some (File m data) => if readable m then inr data else inl (eacces p)
  end.

(** [p.open("a")] followed by one [write] and the close. *)
Definition append (umask : Z) (p : Path) (bytes : list byte) (fs : FS) : Exn + FS :=
  match node_at fs p with
  | Some (Dir _) => inl (eisdir p)
  | Some (File m data) =>
      if writable m then inr (<[p := File m (data ++ bytes)]> fs) else inl (eacces p)
  | None =>
      match node_at fs (Pathlib.parent p) with
      | Some (Dir _) => inr (<[p := File (Z.ldiff o666 umask) bytes]> fs)
      | Some (File _ _) => inl (enotdir p)
      | None => inl (missing fs p)
      end
  end.

(** [p.unlink()] *)
Definition unlink (p : Path) (fs : FS) : Exn + FS :=
  match node_at fs p with
  | None => inl (missing fs p)
  | Some (Dir _) => inl (eisdir p)
  | Some (File _ _) => inr (delete p fs)
  end.

(** [os.rename(src, dst)] of a regular file: an existing regular file at
    [dst] is replaced. *)
Definition rename (src dst : Path) (fs : FS) : Exn + FS :=
  match node_at fs src with
  | None => inl (missing fs src)
  | Some nd =>
      match node_at fs dst with
      | Some (Dir _) => inl (eisdir dst)
      | Some (File _ _) => inr (<[dst := nd]> (delete src fs))
      | None =>
          match node_at fs (Pathlib.parent dst) with
          | Some (Dir _) => inr (<[dst := nd]> (delete src fs))
          | Some (File _ _) => inl (enotdir dst)
          | None => inl (missing fs dst)
          end
      end
  end.

(** [shutil.move(src, dst)] for a regular file [src]: a directory [dst]
    receives the file under its own name, unless that name is taken. *)
Definition shutil_move (src dst : Path) (fs : FS) : Exn + FS :=
  if is_dir fs dst then
    let real_dst := Pathlib.path_join dst (Pathlib.name src) in
    if exists_ fs real_dst then
      inl (mkExn ShutilError
             ("Destination path " +:+ quoted real_dst +:+ " already exists"))
    else rename src real_dst fs
  else rename src dst fs.

End Os.

(** ** Configuration and log records *)

(** [config.Settings] *)
Module Settings.
Record t := mk {
  host : string;
  port : Z;
  user : string;
  key_path : string;
  remote_dir : string;
  local_files_dir : string;
  local_sent_dir : string;
  local_logs_dir : string;
  pattern : string
}.

(** The values taken when no environment variable is set. *)
Definition defaults (home : Path) : t :=
  mk "198.161.83.155" 4222 "ubuntu"
     (Pathlib.path_str (Pathlib.path_join (Pathlib.path_join home ".ssh")
                          "srvgaiodb2_qx19ly.pem"))
     "/home/ubuntu/gaio-deploy/content/apps/174/assets/inputs"
     "files" "sent" "logs" "*".
End Settings.

(** The namespace returned by [parse_args]. *)
Module Args.
Record t := mk {
  local_dir : string;
  sent_dir : string;
  logs_dir : string;
  pattern : string;
  recursive : bool;
  overwrite : bool;
  keep_local : bool;
  delete_after : bool;
  dry_run : bool
}.

(** An empty command line. *)
Definition defaults (s : Settings.t) : t :=
  mk (Settings.local_files_dir s) (Settings.local_sent_dir s)
     (Settings.local_logs_dir s) (Settings.pattern s)
     false false false false false.
End Args.

(** The dictionary [entry] of the loop of [main]. *)
Module Entry.
Record t := mk {
  ts : string;
  event : string;
  local_path : string;
  remote_path : string;
  size_bytes : Z;
  sha256 : option string;
  status : option string;
  error : option string
}.

Definition set_sha256 (v : option string) (e : t) : t :=
  mk (ts e) (event e) (local_path e) (remote_path e) (size_bytes e) v (status e) (error e).
Definition set_status (v : option string) (e : t) : t :=
  mk (ts e) (event e) (local_path e) (remote_path e) (size_bytes e) (sha256 e) v (error e).
Definition set_error (v : option string) (e : t) : t :=
  mk (ts e) (event e) (local_path e) (remote_path e) (size_bytes e) (sha256 e) (status e) v.

(** The state of the variable before the first iteration binds it. *)
Definition unbound : t := mk EmptyString EmptyString EmptyString EmptyString 0 None None None.
End Entry.

(** The dictionary logged when no file matches. *)
Module NoFiles.
Record t := mk {
  ts : string;
  event : string;
  status : string;
  local_dir : string;
  pattern : string
}.
End NoFiles.

(** The dictionary [summary]. *)
Module Summary.
Record t := mk {
  ts : string;
  event : string;
  status : string;
  local_dir : string;
  remote_dir : string;
  pattern : string;
  recursive : bool;
  overwrite : bool;
  keep_local : bool;
  delete_after : bool;
  dry_run : bool;
  count_total : Z;
  count_uploaded : Z;
  count_skipped : Z;
  count_failed : Z;
  log_file : string
}.
End Summary.

Inductive LogRecord :=
| FileRecord (e : Entry.t)
| NoFilesRecord (n : NoFiles.t)
| SummaryRecord (s : Summary.t).

(** ** The environment and the state *)

(** What the process is given: its directories and file-creation mask, the
    clock (one value per reading, in the two formats the script asks for),
    the child processes and the JSON encoder. *)
Record Env := mkEnv {
  project_root : Path;
  cwd : Path;
  (** [os.path.expanduser(c)] for a first component [c] that starts with
      a tilde: the home directory of the current user for ["~"], of the
      user named for ["~name"], or [c] itself when none can be determined *)
  os_path_expanduser : string -> string;
  umask : Z;
  (** [datetime.now().strftime("%Y%m%d_%H%M%S")] at the n-th reading *)
  strftime_now : nat -> string;
  (** [datetime.utcnow().replace(microsecond=0).isoformat() + "Z"] *)
  utcnow_iso : nat -> string;
  (** [subprocess.call(cmd)]: from the commands executed so far, the local
      files and the command, an exit status, or the exception raised when
      the program cannot be started *)
  spawn : list (list string) -> FS -> list string -> Exn + Z;
  (** [json.dumps(obj, ensure_ascii=False)], encoded in UTF-8 *)
  json_dumps : LogRecord -> list byte
}.

(** The state: the local files, the number of clock readings, what was
    printed, the child processes that ran (in order) and, for every
    completed [write_jsonl], the file and the record. *)
Record World := mkWorld {
  fs : FS;
  clock_reads : nat;
  stdout : list string;
  stderr : list string;
  executed : list (list string);
  journal : list (Path * LogRecord)
}.

Definition with_fs (v : FS) (w : World) : World :=
  mkWorld v (clock_reads w) (stdout w) (stderr w) (executed w) (journal w).
Definition with_clock_reads (v : nat) (w : World) : World :=
  mkWorld (fs w) v (stdout w) (stderr w) (executed w) (journal w).
Definition with_stdout (v : list string) (w : World) : World :=
  mkWorld (fs w) (clock_reads w) v (stderr w) (executed w) (journal w).
Definition with_stderr (v : list string) (w : World) : World :=
  mkWorld (fs w) (clock_reads w) (stdout w) v (executed w) (journal w).
Definition with_executed (v : list (list string)) (w : World) : World :=
  mkWorld (fs w) (clock_reads w) (stdout w) (stderr w) v (journal w).
Definition with_journal (v : list (Path * LogRecord)) (w : World) : World :=
  mkWorld (fs w) (clock_reads w) (stdout w) (stderr w) (executed w) v.

(** A fresh process on the files [f]. *)
Definition initial_world (f : FS) : World := mkWorld f 0 [] [] [] [].

(** ** Computations that may raise

    A computation takes a state and gives the new state with either the
    exception raised or the value returned; what was done before a [raise]
    stays done. *)
Definition M (S A : Type) : Type := S -> S * (Exn + A).

Definition ret {S A} (a : A) : M S A := fun s => (s, inr a).
Definition raise {S A} (e : Exn) : M S A := fun s => (s, inl e).
Definition bind {S A B} (m : M S A) (k : A -> M S B) : M S B :=
  fun s => match m s with
           | (s', inl e) => (s', inl e)
           | (s', inr a) => k a s'
           end.

(** [try: body except Exception as e: handler e] *)
Definition try_except {S A} (body : M S A) (handler : Exn -> M S A) : M S A :=
  fun s => match body s with
           | (s', inl e) => handler e s'
           | (s', inr a) => (s', inr a)
           end.

Notation "'let*' x := m 'in' k" := (bind m (fun x => k))
  (at level 10, x binder, m at level 200, k at level 200).
Notation "m ;;; k" := (bind m (fun _ => k)) (at level 100, right associativity).

(** The local variables of [main] that the loop updates. *)
Record Frame := mkFrame {
  world : World;
  entry : Entry.t;
  ok : Z;
  skipped : Z;
  fail : Z
}.

Definition liftW {A} (m : M World A) : M Frame A :=
  fun fr => let '(w', r) := m (world fr) in
            (mkFrame w' (entry fr) (ok fr) (skipped fr) (fail fr), r).

Definition assign_entry (e : Entry.t) : M Frame unit :=
  fun fr => (mkFrame (world fr) e (ok fr) (skipped fr) (fail fr), inr tt).
Definition update_entry (f : Entry.t -> Entry.t) : M Frame unit :=
  fun fr => (mkFrame (world fr) (f (entry fr)) (ok fr) (skipped fr) (fail fr), inr tt).
Definition read_entry : M Frame Entry.t := fun fr => (fr, inr (entry fr)).
Definition incr_ok : M Frame unit :=
  fun fr => (mkFrame (world fr) (entry fr) (ok fr + 1) (skipped fr) (fail fr), inr tt).
Definition incr_skipped : M Frame unit :=
  fun fr => (mkFrame (world fr) (entry fr) (ok fr) (skipped fr + 1) (fail fr), inr tt).
Definition incr_fail : M Frame unit :=
  fun fr => (mkFrame (world fr) (entry fr) (ok fr) (skipped fr) (fail fr + 1), inr tt).

(** ** The script, function by function *)
Section Script.

Variable env : Env.

(** *** Primitives *)

Definition print (line : string) : M World unit :=
  fun w => (with_stdout (stdout w ++ [line]) w, inr tt).

Definition print_stderr (line : string) : M World unit :=
  fun w => (with_stderr (stderr w ++ [line]) w, inr tt).

Definition read_clock (fmt : Env -> nat -> string) : M World string :=
  fun w => (with_clock_reads (S (clock_reads w)) w, inr (fmt env (clock_reads w))).

(** [subprocess.call(cmd)] *)
Definition subprocess_call (cmd : list string) : M World Z :=
  fun w => match spawn env (executed w) (fs w) cmd with
           | inl e => (w, inl e)
           | inr code => (with_executed (executed w ++ [cmd]) w, inr code)
           end.

(** An operation of the file system, run on the files of the state. *)
Definition on_fs (op : FS -> Exn + FS) : M World unit :=
  fun w => match op (fs w) with
           | inl e => (w, inl e)
           | inr fs' => (with_fs fs' w, inr tt)
           end.

Definition query_fs {A} (q : FS -> Exn + A) : M World A :=
  fun w => (w, q (fs w)).

(** Note a completed [write_jsonl]. *)
Definition journalize (log_file : Path) (obj : LogRecord) : M World unit :=
  fun w => (with_journal (journal w ++ [(log_file, obj)]) w, inr tt).

(** *** utc_iso *)
Definition utc_iso : M World string := read_clock utcnow_iso.

(** *** sha256_file *)

(** The file object of [path.open("rb")]: the bytes not yet read and,
    for every [f.read] so far, the bytes it has returned. *)
Record FileObject := mkFileObject {
  ahead : list byte;
  reads : list (list byte)
}.

Definition fopen (data : list byte) : FileObject := mkFileObject data [].

(** The largest [Py_ssize_t] of a 64-bit CPython. *)
Definition ssize_max : Z := 2 ^ 63 - 1.

(** [f.read(n)] on the buffered reader of a regular file: [n] bytes, fewer
    at the end of the file; everything for [-1]; [ValueError] below, and
    [OverflowError] for an [n] that is no [Py_ssize_t].  A buffer of [n]
    bytes is taken to be available: where it is not, which depends on the
    machine, CPython raises [MemoryError] instead. *)
Definition read (n : Z) (f : FileObject) : Exn + (list byte * FileObject) :=
  if Z.ltb n (- ssize_max - 1) || Z.ltb ssize_max n then
    inl (mkExn OverflowError "cannot fit 'int' into an index-sized integer")
  else if Z.ltb n (-1) then
    inl (mkExn ValueError "read length must be non-negative or -1")
  else
    let b := if Z.eqb n (-1) then ahead f else take (Z.to_nat n) (ahead f) in
    inr (b, mkFileObject (drop (length b) (ahead f)) (reads f ++ [b])).

Definition inspect {A} (a : A) : {b : A | a = b} := exist _ a eq_refl.

(** The [while True] loop: read, stop on an empty chunk, update. *)
Equations? sha256_loop (chunk_size : Z) (h : Hashlib.hash_object)
  (f : FileObject) : Exn + (Hashlib.hash_object * FileObject)
  by wf (length (ahead f)) lt :=
  sha256_loop chunk_size h f with inspect (read chunk_size f) => {
    | exist _ (inl e) _ := inl e;
    | exist _ (inr ([], f')) _ := inr (h, f');
    | exist _ (inr (b :: bs, f')) _ :=
        sha256_loop chunk_size (Hashlib.update h (b :: bs)) f' }.
Proof.
  unfold read in *.
  destruct (Z.ltb chunk_size (- ssize_max - 1) || Z.ltb ssize_max chunk_size);
    [discriminate |].
  destruct (Z.ltb chunk_size (-1)); [discriminate |].
  inversion e as [[Hb Hf]]. subst f'. cbn [ahead].
  rewrite length_drop, Hb.
  assert (length (b :: bs) <= length (ahead f))%nat.
  { rewrite <- Hb. destruct (Z.eqb chunk_size (-1)); [lia |].
    rewrite length_take. lia. }
  simpl in *. lia.
Qed.

Definition default_chunk_size : Z := 1024 * 1024.

Definition sha256_file (path : Path) (chunk_size : Z) : M World string :=
  let* data := query_fs (fun fs0 => Os.open_rb fs0 path) in
  match sha256_loop chunk_size Hashlib.sha256_new (fopen data) with
  | inl e => raise e
  | inr (h, _) => ret (Hashlib.hexdigest h)
  end.

(** *** run_cmd *)
Definition run_cmd (cmd : list string) (dry_run : bool) : M World Z :=
  print (">> " +:+ Pathlib.join " " cmd) ;;;
  if dry_run then ret 0%Z else subprocess_call cmd.

(** *** ssh_cmd *)
Definition ssh_cmd (s : Settings.t) (remote_command : string) : list string :=
  [ "ssh"; "-i"; Settings.key_path s; "-p"; pretty (Settings.port s);
    Settings.user s +:+ "@" +:+ Settings.host s; remote_command ].

(** *** ensure_remote_dir *)
Definition ensure_remote_dir (s : Settings.t) (dry_run : bool) : M World unit :=
  let cmd := ssh_cmd s ("mkdir -p '" +:+ Settings.remote_dir s +:+ "'") in
  let* code := run_cmd cmd dry_run in
  if negb (Z.eqb code 0) then
    raise (mkExn RuntimeError
             ("Falha ao criar/verificar pasta remota (exit=" +:+ pretty code +:+ ")."))
  else ret tt.

(** *** remote_file_exists *)
Definition remote_file_exists (s : Settings.t) (remote_path : string)
  (dry_run : bool) : M World bool :=
  let cmd := ssh_cmd s ("test -f '" +:+ remote_path +:+ "'") in
  if dry_run then ret false
  else
    let* code := run_cmd cmd false in
    ret (Z.eqb code 0).

(** *** scp_upload *)
Definition scp_upload (s : Settings.t) (local_file : Path) (remote_path : string)
  (dry_run : bool) : M World unit :=
  let cmd := [ "scp"; "-i"; Settings.key_path s; "-P"; pretty (Settings.port s);
               Pathlib.path_str local_file;
               Settings.user s +:+ "@" +:+ Settings.host s +:+ ":" +:+ remote_path ] in
  let* code := run_cmd cmd dry_run in
  if negb (Z.eqb code 0) then
    raise (mkExn RuntimeError ("SCP falhou (exit=" +:+ pretty code +:+ ")."))
  else ret tt.

(** *** iter_files *)

(** The regular files below [base_dir] selected by the components [pats]
    of a pattern, in the order in which the file system lists them. *)
Definition selected (base_dir : Path) (pats : list string) (f : FS) (p : Path) : bool :=
  Os.is_file f p
  && match Pathlib.relative_to base_dir p with
     | Some rel => Pathlib.match_parts pats rel
     | None => false
     end.

Definition select_files (base_dir : Path) (pats : list string) (f : FS) : list Path :=
  List.filter (selected base_dir pats f) (map fst (map_to_list f)).

(** The selector built from the components of the pattern (CPython
    3.11): [**] inside a component is refused when the selector is built;
    a pattern that ends with a slash selects directories only, none of
    which passes [is_file]. *)
Definition glob_select (base_dir : Path) (pats : list string) (dirs_only : bool)
  : M World (list Path) :=
  if existsb Pathlib.stars_inside pats then
    raise (mkExn ValueError
             "Invalid pattern: '**' can only be an entire path component")
  else
    fun w => (w, inr (if dirs_only then [] else select_files base_dir pats (fs w))).

Definition iter_files (base_dir : Path) (pattern : string) (recursive : bool)
  : M World (list Path) :=
  let pat := Pathlib.parse pattern in
  let dirs_only := Pathlib.ends_with_slash pattern in
  if recursive then
    (* base_dir.rglob(pattern) *)
    if Pathlib.anchored pat then
      raise (mkExn NotImplementedError "Non-relative patterns are unsupported")
    else glob_select base_dir ("**" :: Pathlib.parts pat) dirs_only
  else
    (* base_dir.glob(pattern) *)
    if String.eqb pattern EmptyString then
      raise (mkExn ValueError "Unacceptable pattern: ''")
    else if Pathlib.anchored pat then
      raise (mkExn NotImplementedError "Non-relative patterns are unsupported")
    else
      match Pathlib.parts pat with
      | [] =>
          (* no component is left: the selector cannot be built or used *)
          if dirs_only then
            raise (mkExn AttributeError
                     "'_TerminatingSelector' object has no attribute 'select_from'")
          else raise (mkExn IndexError "tuple index out of range")
      | pats => glob_select base_dir pats dirs_only
      end.

(** *** write_jsonl *)
Definition write_jsonl (log_file : Path) (obj : LogRecord) : M World unit :=
  on_fs (Os.mkdir_parents (umask env) (Pathlib.parent log_file)) ;;;
  on_fs (Os.append (umask env) log_file (json_dumps env obj ++ [x0a])) ;;;
  journalize log_file obj.

(** *** make_log_path *)
Definition make_log_path (logs_dir : Path) : M World Path :=
  let* ts := read_clock strftime_now in
  ret (Pathlib.path_join logs_dir ("upload_" +:+ ts +:+ ".jsonl")).

(** *** validate_env *)

(** [p.expanduser()]: a relative path whose first component starts with
    a tilde has that component replaced by what [os.path.expanduser]
    makes of it, and [RuntimeError] is raised when that still starts with
    a tilde. *)
Definition expanduser (p : Pathlib.PurePath) : Exn + Pathlib.PurePath :=
  match Pathlib.anchored p, Pathlib.parts p with
  | false, c :: rest =>
      if String.prefix "~" c then
        let homedir := os_path_expanduser env c in
        if String.prefix "~" homedir then
          inl (mkExn RuntimeError "Could not determine home directory.")
        else
          inr (Pathlib.PP (Pathlib.root (Pathlib.parse homedir))
                 (Pathlib.parts (Pathlib.parse homedir) ++ rest))
      else inr p
  | _, _ => inr p
  end.

(** [p.resolve()] *)
Definition resolve (p : Pathlib.PurePath) : Path :=
  Pathlib.normalize
    ((if Pathlib.anchored p then [] else cwd env) ++ Pathlib.parts p).

(** [oct(n)] for [0 <= n < 8 ^ 22] *)
Fixpoint oct_digits (fuel : nat) (n : Z) (acc : string) : string :=
  match fuel with
  | O => acc
  | S fuel' =>
      let acc' := String (ascii_of_nat (Z.to_nat (48 + n mod 8))) acc in
      if Z.ltb n 8 then acc' else oct_digits fuel' (n / 8) acc'
  end.
Definition oct (n : Z) : string := "0o" +:+ oct_digits 22 n EmptyString.

Definition validate_env (s : Settings.t) : M World unit :=
  match expanduser (Pathlib.parse (Settings.key_path s)) with
  | inl e => raise e
  | inr expanded =>
      let key_path := resolve expanded in
      let* present := query_fs (fun f => inr (Os.exists_ f key_path)) in
      if negb present then
        raise (mkExn FileNotFoundError
                 ("Chave não encontrada: " +:+ Pathlib.path_str key_path))
      else
        try_except
          (let* mode := query_fs (fun f => Os.st_mode f key_path) in
           if negb (Z.eqb (Z.land mode Os.o077) 0) then
             print ("AVISO: sua chave tem permissão " +:+ oct mode
                    +:+ ". Se der erro, rode: chmod 600 "
                    +:+ Pathlib.path_str key_path)
           else ret tt)
          (fun _ => ret tt)
  end.

(** *** main *)

(** A directory argument: relative to the project root unless absolute.
    [expanduser] returns an absolute path as it is, so that it cannot
    raise here. *)
Definition resolve_arg (a : string) : Path :=
  if negb (Pathlib.isabs a)
  then resolve (Pathlib.joinpath (Pathlib.PP "/" (project_root env)) a)
  else
    match expanduser (Pathlib.parse a) with
    | inr expanded => resolve expanded
    | inl _ => resolve (Pathlib.parse a)
    end.

Definition newline : string := String (ascii_of_nat 10) EmptyString.

(** How the body of the [try] statement ends when nothing is raised. *)
Inductive Flow := Continue | FallThrough.

Section Run.

Variable s : Settings.t.
Variable args : Args.t.
Variables sent_dir log_path : Path.

(** The "pós-ação" block. *)
Definition post_action (f : Path) : M World unit :=
  if Args.delete_after args then
    if Args.dry_run args then
      print (":: (dry) deletaria: " +:+ Pathlib.path_str f)
    else on_fs (Os.unlink f)
  else if negb (Args.keep_local args) then
    on_fs (Os.mkdir_parents (umask env) sent_dir) ;;;
    let target := Pathlib.path_join sent_dir (Pathlib.name f) in
    if Args.dry_run args then
      print (":: (dry) moveria: " +:+ Pathlib.path_str f +:+ " -> "
             +:+ Pathlib.path_str target)
    else
      let* taken := query_fs (fun fs0 => inr (Os.exists_ fs0 target)) in
      let* target :=
        (if taken : bool then
           let* suffix := read_clock strftime_now in
           ret (Pathlib.path_join sent_dir
                  (Pathlib.stem f +:+ "_" +:+ suffix +:+ Pathlib.suffix f))
         else ret target) in
      on_fs (Os.shutil_move f target)
  else ret tt.

(** The body of the [try] statement. *)
Definition try_body (f : Path) (remote_path : string) : M Frame Flow :=
  let* digest := liftW (sha256_file f default_chunk_size) in
  update_entry (Entry.set_sha256 (Some digest)) ;;;
  let* present :=
    (if negb (Args.overwrite args)
     then liftW (remote_file_exists s remote_path (Args.dry_run args))
     else ret false) in
  if present : bool then
    update_entry (Entry.set_status (Some "skipped_remote_exists")) ;;;
    incr_skipped ;;;
    let* e := read_entry in
    liftW (write_jsonl log_path (FileRecord e)) ;;;
    ret Continue
  else
    liftW (scp_upload s f remote_path (Args.dry_run args)) ;;;
    liftW (post_action f) ;;;
    update_entry (Entry.set_status (Some "uploaded")) ;;;
    incr_ok ;;;
    ret FallThrough.

(** The [except Exception as e] clause. *)
Definition except_clause (e : Exn) : M Frame Flow :=
  update_entry (Entry.set_status (Some "failed")) ;;;
  update_entry (Entry.set_error (Some (exn_str e))) ;;;
  incr_fail ;;;
  ret FallThrough.

(** The remote destination: [str(Path(s.remote_dir) / f.name)]. *)
Definition remote_path_of (f : Path) : string :=
  Pathlib.render
    (Pathlib.joinpath (Pathlib.parse (Settings.remote_dir s)) (Pathlib.name f)).

(** One iteration of [for f in files]. *)
Definition loop_body (f : Path) : M Frame unit :=
  let remote_path := remote_path_of f in
  let* now := liftW utc_iso in
  let* size := liftW (query_fs (fun fs0 => Os.st_size fs0 f)) in
  assign_entry
    (Entry.mk now "file" (Pathlib.path_str f) remote_path size None None None) ;;;
  let* flow := try_except (try_body f remote_path) except_clause in
  match flow with
  | Continue => ret tt
  | FallThrough =>
      let* e := read_entry in
      liftW (write_jsonl log_path (FileRecord e))
  end.

Fixpoint for_files (files : list Path) : M Frame unit :=
  match files with
  | [] => ret tt
  | f :: rest => loop_body f ;;; for_files rest
  end.

(** The counters start at zero; the loop runs; its frame is what the
    rest of [main] reads. *)
Definition run_loop (files : list Path) : M World Frame :=
  fun w =>
    match for_files files (mkFrame w Entry.unbound 0 0 0) with
    | (fr, inl e) => (world fr, inl e)
    | (fr, inr _) => (world fr, inr fr)
    end.

End Run.

Definition main (s : Settings.t) (args : Args.t) : M World Z :=
  validate_env s ;;;
  let local_dir := resolve_arg (Args.local_dir args) in
  let sent_dir := resolve_arg (Args.sent_dir args) in
  let logs_dir := resolve_arg (Args.logs_dir args) in
  let* valid := query_fs (fun f => inr (Os.exists_ f local_dir && Os.is_dir f local_dir)) in
  if negb valid then
    print_stderr ("ERRO: pasta local inválida: " +:+ Pathlib.path_str local_dir) ;;;
    ret 2%Z
  else
    let* log_path := make_log_path logs_dir in
    ensure_remote_dir s (Args.dry_run args) ;;;
    let* files := iter_files local_dir (Args.pattern args) (Args.recursive args) in
    match files with
    | [] =>
        print "Nenhum arquivo encontrado." ;;;
        let* now := utc_iso in
        write_jsonl log_path
          (NoFilesRecord
             (NoFiles.mk now "run_end" "no_files" (Pathlib.path_str local_dir)
                (Args.pattern args))) ;;;
        ret 0%Z
    | _ =>
        let* fr := run_loop s args sent_dir log_path files in
        let* now := utc_iso in
        let summary :=
          Summary.mk now "run_end"
            (if Z.eqb (fail fr) 0 then "ok" else "partial_fail")
            (Pathlib.path_str local_dir) (Settings.remote_dir s)
            (Args.pattern args) (Args.recursive args) (Args.overwrite args)
            (Args.keep_local args) (Args.delete_after args) (Args.dry_run args)
            (Z.of_nat (length files)) (ok fr) (skipped fr) (fail fr)
            (Pathlib.path_str log_path) in
        write_jsonl log_path (SummaryRecord summary) ;;;
        print (newline +:+ "Resumo:") ;;;
        print ("  total:    " +:+ pretty (Z.of_nat (length files))) ;;;
        print ("  enviados:  " +:+ pretty (ok fr)) ;;;
        print ("  pulados:   " +:+ pretty (skipped fr)) ;;;
        print ("  falhas:    " +:+ pretty (fail fr)) ;;;
        print ("  log:       " +:+ Pathlib.path_str log_path) ;;;
        ret (if Z.eqb (fail fr) 0 then 0%Z else 1%Z)
    end.

(** The status with which the process ends: [raise SystemExit(main())];
    an exception that leaves [main] ends the interpreter with status 1. *)
Definition exit_status (r : Exn + Z) : Z :=
  match r with inr code => code | inl _ => 1%Z end.

End Script.

(** * Vocabulary of the statements and scenarios *)

(** ** Vocabulary of the statements *)

(** A computation leaves the observation [obs] of the state as it was,
    however it ends. *)
Definition keeps {S X A} (obs : S -> X) (m : M S A) : Prop :=
  forall s, obs (fst (m s)) = obs s.

(** The status of a file record. *)
Definition file_status (r : Path * LogRecord) : option string :=
  match snd r with
  | FileRecord e => Entry.status e
  | _ => None
  end.

Definition has_status (st : string) (r : Path * LogRecord) : bool :=
  bool_decide (file_status r = Some st).

(** How many of the records carry the status [st]. *)
Definition count_status (st : string) (recs : list (Path * LogRecord)) : Z :=
  Z.of_nat (length (List.filter (has_status st) recs)).

(** A file record written to [log_path] in one of the three final states. *)
Definition final_file_record (log_path : Path) (r : Path * LogRecord) : Prop :=
  fst r = log_path
  /\ exists e, snd r = FileRecord e
     /\ (Entry.status e = Some "uploaded"
         \/ Entry.status e = Some "skipped_remote_exists"
         \/ Entry.status e = Some "failed").

(** No [write_jsonl] to [log_path] can succeed on the files [f]. *)
Definition log_blocked (env : Env) (log_path : Path) (f : FS) : Prop :=
  forall obj w, fs w = f -> exists w' e, write_jsonl env log_path obj w = (w', inl e).

(** The check of the local source directory at the start of [main]. *)
Definition local_dir_valid (env : Env) (args : Args.t) (f : FS) : bool :=
  Os.exists_ f (resolve_arg env (Args.local_dir args))
  && Os.is_dir f (resolve_arg env (Args.local_dir args)).

(** The record that closes a run, against the files found, the file
    records written before it and the value [main] returns. *)
Definition closing_record (files : list Path) (recs : list (Path * LogRecord))
  (last : LogRecord) (code : Z) : Prop :=
  match last with
  | FileRecord _ => False
  | NoFilesRecord n =>
      files = [] /\ recs = [] /\ NoFiles.status n = "no_files" /\ code = 0%Z
  | SummaryRecord sm =>
      files <> []
      /\ Summary.status sm
         = (if Z.eqb (count_status "failed" recs) 0 then "ok" else "partial_fail")
      /\ Summary.count_total sm = Z.of_nat (length files)
      /\ Summary.count_uploaded sm = count_status "uploaded" recs
      /\ Summary.count_skipped sm = count_status "skipped_remote_exists" recs
      /\ Summary.count_failed sm = count_status "failed" recs
      /\ code = (if Z.eqb (count_status "failed" recs) 0 then 0 else 1)%Z
  end.

(** The local and remote paths a file record names. *)
Definition record_paths (r : Path * LogRecord) : string * string :=
  match snd r with
  | FileRecord e => (Entry.local_path e, Entry.remote_path e)
  | _ => (EmptyString, EmptyString)
  end.

(** The frame in which the [try] statement of an iteration starts: the
    clock has been read once and [entry] is the fresh dictionary. *)
Definition try_frame (env : Env) (s : Settings.t) (f : Path) (size : Z)
  (fr : Frame) : Frame :=
  mkFrame (with_clock_reads (S (clock_reads (world fr))) (world fr))
    (Entry.mk (utcnow_iso env (clock_reads (world fr))) "file" (Pathlib.path_str f)
       (remote_path_of s f) size None None None)
    (ok fr) (skipped fr) (fail fr).

(** The dictionary after the [except] clause has marked it. *)
Definition mark_failed (e : Exn) (en : Entry.t) : Entry.t :=
  Entry.set_error (Some (exn_str e)) (Entry.set_status (Some "failed") en).

(** What an iteration that completes leaves behind: one record for its
    file, in one of the three final states, and one counter advanced. *)
Definition iteration_outcome (s : Settings.t) (args : Args.t) (log_path : Path)
  (f : Path) (fr fr' : Frame) (e : Entry.t) : Prop :=
  journal (world fr') = journal (world fr) ++ [(log_path, FileRecord e)]
  /\ Entry.local_path e = Pathlib.path_str f
  /\ Entry.remote_path e = remote_path_of s f
  /\ ((Entry.status e = Some "uploaded" /\ Entry.error e = None
       /\ ok fr' = (ok fr + 1)%Z /\ skipped fr' = skipped fr /\ fail fr' = fail fr)
      \/ (Entry.status e = Some "skipped_remote_exists" /\ Entry.error e = None
          /\ Args.dry_run args = false /\ Args.overwrite args = false
          /\ ok fr' = ok fr /\ skipped fr' = (skipped fr + 1)%Z /\ fail fr' = fail fr)
      \/ (Entry.status e = Some "failed" /\ is_Some (Entry.error e)
          /\ ok fr' = ok fr /\ skipped fr' = skipped fr
          /\ fail fr' = (fail fr + 1)%Z)).

(** The name under which [f] is archived when its own name is taken, for
    the clock reading that the state [w] is about to deliver. *)
Definition stamped_target (env : Env) (sent_dir f : Path) (w : World) : Path :=
  Pathlib.path_join sent_dir
    (Pathlib.stem f +:+ "_" +:+ strftime_now env (clock_reads w)
     +:+ Pathlib.suffix f).

(** Concrete hosts, clocks and directory trees for the examples. *)
Module Scenario.

Definition mentions (needle text : string) : bool :=
  match String.index 0 needle text with Some _ => true | None => false end.

(** The part of [user@host:path] after the colon. *)
Fixpoint after_colon (s : string) : string :=
  match s with
  | EmptyString => EmptyString
  | String c rest => if Ascii.eqb c ":"%char then rest else after_colon rest
  end.

Definition refuses (refused : list string) (cmd : list string) : bool :=
  existsb (fun f => existsb (String.eqb f) cmd) refused.

(** The remote paths the earlier [scp] commands have delivered. *)
Definition delivered (refused : list string) (history : list (list string))
  : list string :=
  flat_map (fun cmd => match cmd with
                       | "scp" :: _ =>
                           if refuses refused cmd then []
                           else [after_colon (List.last cmd EmptyString)]
                       | _ => []
                       end) history.

(** A reachable host: [mkdir -p] succeeds; [test -f] finds the remote
    paths in [present] and those delivered so far; [scp] exits with 1 for
    the local files in [refused] and delivers the others. *)
Definition remote (present refused : list string)
  : list (list string) -> FS -> list string -> Exn + Z :=
  fun history _ cmd =>
    match cmd with
    | "scp" :: _ => if refuses refused cmd then inr 1%Z else inr 0%Z
    | _ =>
        let remote_command := List.last cmd EmptyString in
        if String.prefix "test -f" remote_command then
          if existsb (fun p => mentions ("'" +:+ p +:+ "'") remote_command)
               (present ++ delivered refused history)
          then inr 0%Z else inr 1%Z
        else inr 0%Z
    end.

(** No route to the host: every [ssh] and [scp] exits with 255. *)
Definition unreachable : list (list string) -> FS -> list string -> Exn + Z :=
  fun _ _ _ => inr 255%Z.

(** A process in [/srv/app] whose whole run fits into one second. *)
Definition env_of (spawn : list (list string) -> FS -> list string -> Exn + Z) : Env :=
  mkEnv ["srv"; "app"] ["srv"; "app"]
    (fun c => if String.eqb c "~" then "/home/ubuntu" else c) 18
    (fun _ => "20240101_120000") (fun _ => "2024-01-01T15:00:00Z")
    spawn (fun _ => list_byte_of_string "{}").

Definition settings : Settings.t :=
  Settings.mk "gaio.example" 4222 "ubuntu" "/srv/app/key.pem" "/inputs"
    "files" "sent" "logs" "*".


Definition key_pem : Path := ["srv"; "app"; "key.pem"].
Definition local_dir : Path := ["srv"; "app"; "files"].
Definition sent_dir : Path := ["srv"; "app"; "sent"].
Definition log_path : Path := ["srv"; "app"; "logs"; "upload_20240101_120000.jsonl"].

(** The project directory with its key and an empty [files/]. *)
Definition project : FS :=
  <[ ["srv"] := Dir 493 ]>
  (<[ ["srv"; "app"] := Dir 493 ]>
  (<[ ["srv"; "app"; "key.pem"] := File 384 [] ]>
  (<[ local_dir := Dir 493 ]> ∅))).

Definition text (s : string) : Node := File 420 (list_byte_of_string s).

(** [files/a.csv], [files/b.csv] and [files/c.csv]. *)
Definition three_files : FS :=
  <[ local_dir ++ ["a.csv"] := text "alpha" ]>
  (<[ local_dir ++ ["b.csv"] := text "beta" ]>
  (<[ local_dir ++ ["c.csv"] := text "gamma" ]> project)).

(** Two files named [a.csv] in two subdirectories of [files/]. *)
Definition namesakes : FS :=
  <[ local_dir ++ ["north"] := Dir 493 ]>
  (<[ local_dir ++ ["north"; "a.csv"] := text "north" ]>
  (<[ local_dir ++ ["south"] := Dir 493 ]>
  (<[ local_dir ++ ["south"; "a.csv"] := text "south" ]> project))).

(** The same, after an earlier run has archived an [a.csv]. *)
Definition namesakes_after_a_run : FS :=
  <[ sent_dir := Dir 493 ]> (<[ sent_dir ++ ["a.csv"] := text "earlier" ]> namesakes).

Definition plain : Args.t := Args.defaults settings.
Definition recursive : Args.t :=
  Args.mk "files" "sent" "logs" "*" true false false false false.
Definition recursive_overwrite : Args.t :=
  Args.mk "files" "sent" "logs" "*" true true false false false.
Definition dry : Args.t :=
  Args.mk "files" "sent" "logs" "*" false false false false true.
Definition delete_and_keep : Args.t :=
  Args.mk "files" "sent" "logs" "*" false false true true false.

(** The files that hold exactly the bytes of [s]. *)
Definition holders (s : string) (f : FS) : list Path :=
  map fst (List.filter
             (fun kv => match snd kv with
                        | File _ data => String.eqb (string_of_list_byte data) s
                        | Dir _ => false
                        end)
             (map_to_list f)).

(** A host that already holds [b.csv] and refuses [c.csv]. *)
Definition mixed_host : Env :=
  env_of (remote ["/inputs/b.csv"] ["/srv/app/files/c.csv"]).
Definition open_host : Env := env_of (remote [] []).
Definition lost_host : Env := env_of unreachable.

Definition a_csv : Path := local_dir ++ ["a.csv"].
Definition c_csv : Path := local_dir ++ ["c.csv"].
Definition north_a : Path := local_dir ++ ["north"; "a.csv"].
Definition south_a : Path := local_dir ++ ["south"; "a.csv"].

(** The frame with which the loop of [main] starts on the files [f]. *)
Definition loop_start (f : FS) : Frame :=
  mkFrame (initial_world f) Entry.unbound 0 0 0.

Definition scp_refused : Exn := mkExn RuntimeError "SCP falhou (exit=1).".

(** The frame in which the transfer of [c.csv] has just been refused. *)
Definition refused_frame : Frame :=
  fst (try_body mixed_host settings plain sent_dir log_path c_csv
         (remote_path_of settings c_csv)
         (try_frame mixed_host settings c_csv 5 (loop_start three_files))).

(** [a.csv] cannot be read, [b.csv] is refused by [scp], the probe for
    [d.csv] cannot be started, and [sent] is a regular file. *)
Definition troubled_files : FS :=
  <[ local_dir ++ ["a.csv"] := File 0 (list_byte_of_string "alpha") ]>
  (<[ local_dir ++ ["b.csv"] := text "beta" ]>
  (<[ local_dir ++ ["c.csv"] := text "gamma" ]>
  (<[ local_dir ++ ["d.csv"] := text "delta" ]>
  (<[ sent_dir := text "not a directory" ]> project)))).

Definition troubled_host : Env :=
  env_of (fun history f cmd =>
            if mentions "test -f '/inputs/d.csv'" (List.last cmd EmptyString)
            then inl (mkExn BlockingIOError
                        "[Errno 11] Resource temporarily unavailable")
            else remote [] ["/srv/app/files/b.csv"] history f cmd).

(** The three files, with a regular file where the directory of the
    logs should be. *)
Definition blocked_logs : FS :=
  <[ ["srv"; "app"; "logs"] := text "not a directory" ]> three_files.

(** A reachable host on which every [scp] of the three files exits
    with 1. *)
Definition refusing_host : Env :=
  env_of (remote [] ["/srv/app/files/a.csv"; "/srv/app/files/b.csv";
                     "/srv/app/files/c.csv"]).

Definition elsewhere : Args.t :=
  Args.mk "missing" "sent" "logs" "*" false false false false false.

(** The status and the error of the file records of a journal. *)
Definition verdicts (j : list (Path * LogRecord))
  : list (string * option string * option string) :=
  flat_map (fun r => match snd r with
                     | FileRecord e =>
                         [(Entry.local_path e, Entry.status e, Entry.error e)]
                     | _ => []
                     end) j.

Definition result_of (env : Env) (args : Args.t) (f : FS) : World * (Exn + Z) :=
  main env settings args (initial_world f).

End Scenario.

(** A computation moves the state along the relation [R], however it
    ends. *)
Definition evolves {S A} (R : S -> S -> Prop) (m : M S A) : Prop :=
  forall s, R s (fst (m s)).

(** Nothing that was there is gone: every directory is still a directory
    and every regular file still holds its bytes, possibly followed by
    appended ones. *)
Definition persists (f f' : FS) : Prop :=
  forall p x,
    Os.node_at f p = Some x ->
    match x with
    | Dir m => Os.node_at f' p = Some (Dir m)
    | File m data => exists more, Os.node_at f' p = Some (File m (data ++ more))
    end.

Definition files_persist (w w' : World) : Prop := persists (fs w) (fs w').
Definition files_persist_in_frame (fr fr' : Frame) : Prop :=
  files_persist (world fr) (world fr').

(** ** Commands and paths of a run *)

(** The key file that [validate_env] looks for, when the path of the key
    can be expanded. *)
Definition key_file (env : Env) (s : Settings.t) : Exn + Path :=
  match expanduser env (Pathlib.parse (Settings.key_path s)) with
  | inl e => inl e
  | inr expanded => inr (resolve env expanded)
  end.

(** The command of [ensure_remote_dir]. *)
Definition mkdir_command (s : Settings.t) : list string :=
  ssh_cmd s ("mkdir -p '" +:+ Settings.remote_dir s +:+ "'").

(** The command of [remote_file_exists] for a remote path. *)
Definition probe_command (s : Settings.t) (remote_path : string) : list string :=
  ssh_cmd s ("test -f '" +:+ remote_path +:+ "'").

(** The command of [scp_upload] for a local file and its remote path. *)
Definition scp_command (s : Settings.t) (local_file : Path) (remote_path : string)
  : list string :=
  [ "scp"; "-i"; Settings.key_path s; "-P"; pretty (Settings.port s);
    Pathlib.path_str local_file;
    Settings.user s +:+ "@" +:+ Settings.host s +:+ ":" +:+ remote_path ].

(** The commands that the iteration for a file may run, in their order:
    the probe unless [--overwrite], then the transfer; none in a dry run. *)
Definition planned_commands (s : Settings.t) (args : Args.t) (f : Path)
  (remote_path : string) : list (list string) :=
  if Args.dry_run args then []
  else (if Args.overwrite args then [] else [probe_command s remote_path])
       ++ [scp_command s f remote_path].

(** What the commands [l] run by the [try] block for a file say, together
    with its outcome [r], about the exit statuses that were seen, in a state
    with the command history [history] and the files [files]. *)
Definition try_trace (env : Env) (s : Settings.t) (args : Args.t) (f : Path)
  (remote_path : string) (history : list (list string)) (files : FS)
  (r : Exn + Flow) (l : list (list string)) : Prop :=
  l `prefix_of` planned_commands s args f remote_path
  /\ (Args.dry_run args = false -> Args.overwrite args = false ->
      forall code,
        spawn env history files (probe_command s remote_path) = inr code ->
        (code = 0%Z -> l `prefix_of` [probe_command s remote_path])
        /\ (r = inr Continue -> code = 0%Z))
  /\ (Args.dry_run args = false -> r = inr FallThrough ->
      l = planned_commands s args f remote_path
      /\ spawn env
           (history ++ (if Args.overwrite args then []
                        else [probe_command s remote_path]))
           files (scp_command s f remote_path) = inr 0%Z).

(** The log file of a run that starts in the state [w]. *)
Definition log_file_of (env : Env) (args : Args.t) (w : World) : Path :=
  Pathlib.path_join (resolve_arg env (Args.logs_dir args))
    ("upload_" +:+ strftime_now env (clock_reads w) +:+ ".jsonl").

(** The components against which [iter_files] matches the paths below the
    local directory. *)
Definition pattern_parts (args : Args.t) : list string :=
  (if Args.recursive args then ["**"] else [])
  ++ Pathlib.parts (Pathlib.parse (Args.pattern args)).

(** The files that the listing of a run gives on the files [f], when it
    gives any. *)
Definition discovered (env : Env) (args : Args.t) (f : FS) : list Path :=
  if Pathlib.ends_with_slash (Args.pattern args) then []
  else select_files (resolve_arg env (Args.local_dir args)) (pattern_parts args) f.




(** * Facts about the model *)

(** ** The hash object *)

Module HashlibFacts.
Import Hashlib.

Lemma absorb_short h data :
  (length data < 64)%nat -> absorb h data = (h, data).
Proof.
  intros Hlt. rewrite absorb_equation_1. simpl.
  destruct (decide (length data < 64)%nat); [reflexivity | lia].
Qed.

Lemma absorb_block h data :
  (64 <= length data)%nat ->
  absorb h data = absorb (compress h (take 64 data)) (drop 64 data).
Proof.
  intros Hge. rewrite absorb_equation_1 at 1. simpl.
  destruct (decide (length data < 64)%nat); [lia | reflexivity].
Qed.

Lemma absorb_app h xs ys :
  absorb h (xs ++ ys) = absorb (fst (absorb h xs)) (snd (absorb h xs) ++ ys).
Proof.
  remember (length xs) as n eqn:Hn.
  revert h xs Hn. induction (lt_wf n) as [n _ IH]. intros h xs ->.
  destruct (decide (length xs < 64)%nat) as [Hlt | Hge].
  - rewrite (absorb_short h xs Hlt). reflexivity.
  - rewrite (absorb_block h xs) by lia.
    rewrite (absorb_block h (xs ++ ys)) by (rewrite length_app; lia).
    rewrite take_app_le, drop_app_le by lia.
    apply (IH (length (drop 64 xs))); [rewrite length_drop; lia | reflexivity].
Qed.

Lemma update_app h a b : update (update h a) b = update h (a ++ b).
Proof.
  unfold update.
  rewrite (app_assoc (pending h) a b), (absorb_app (chain h) (pending h ++ a) b).
  destruct (absorb (chain h) (pending h ++ a)) as [c r]. simpl.
  destruct (absorb c (r ++ b)) as [c' r']. f_equal. rewrite length_app. lia.
Qed.

Lemma fold_update h c cs :
  fold_left update (c :: cs) h = update h (concat (c :: cs)).
Proof.
  revert h c. induction cs as [| d cs IH]; intros h c.
  - simpl. rewrite app_nil_r. reflexivity.
  - change (fold_left update (c :: d :: cs) h)
      with (fold_left update (d :: cs) (update h c)).
    rewrite IH, update_app. reflexivity.
Qed.

Lemma hexdigest_update data : hexdigest (update sha256_new data) = sha256 data.
Proof.
  unfold hexdigest, sha256, update. simpl.
  rewrite (absorb_app initial_hash data).
  destruct (absorb initial_hash data) as [c r]. reflexivity.
Qed.

Lemma hexdigest_chunks chunks :
  hexdigest (fold_left update chunks sha256_new) = sha256 (concat chunks).
Proof.
  destruct chunks as [| c cs]; [reflexivity |].
  rewrite fold_update. apply hexdigest_update.
Qed.

End HashlibFacts.

(** ** The chunked reading loop *)

Section FingerprinterFacts.
Import Hashlib HashlibFacts.

Lemma sha256_loop_step cs h f :
  sha256_loop cs h f
  = match read cs f with
    | inl e => inl e
    | inr ([], f') => inr (h, f')
    | inr (b, f') => sha256_loop cs (update h b) f'
    end.
Proof.
  funelim (sha256_loop cs h f);
    match goal with E : read _ _ = _ |- _ => rewrite E end; reflexivity.
Qed.

(** What one [f.read(n)] returns and leaves, for [n >= -1]. *)
Lemma read_inr cs f :
  (-1 <= cs <= ssize_max)%Z ->
  exists b,
    read cs f = inr (b, mkFileObject (drop (length b) (ahead f)) (reads f ++ [b]))
    /\ b ++ drop (length b) (ahead f) = ahead f
    /\ (0 <= cs -> Z.of_nat (length b) <= cs)%Z
    /\ (Z.of_nat (length b) <> cs -> drop (length b) (ahead f) = [])
    /\ (cs <> 0%Z -> b = [] -> ahead f = [])
    /\ (cs = 0%Z -> b = []).
Proof.
  intros Hcs. unfold read.
  assert (Hmax : ssize_max = 9223372036854775807%Z) by reflexivity.
  destruct (Z.ltb_spec cs (- ssize_max - 1)) as [Hlt | _]; [lia |].
  destruct (Z.ltb_spec ssize_max cs) as [Hlt | _]; [lia |]. clear Hmax. simpl.
  destruct (Z.ltb_spec cs (-1)) as [Hlt | _]; [lia |].
  destruct (Z.eqb_spec cs (-1)) as [-> | Hne].
  - exists (ahead f). split; [reflexivity |].
    rewrite drop_ge by lia. rewrite app_nil_r.
    repeat split; auto; lia.
  - exists (take (Z.to_nat cs) (ahead f)). split; [reflexivity |].
    rewrite length_take.
    destruct (Nat.le_gt_cases (Z.to_nat cs) (length (ahead f))) as [Hle | Hgt].
    + rewrite Nat.min_l by lia.
      split; [apply take_drop |]. split; [lia |]. split; [lia |].
      split.
      * intros Hnz Hempty. destruct (ahead f); [reflexivity |].
        destruct (Z.to_nat cs) eqn:E; [lia | discriminate].
      * intros ->. reflexivity.
    + rewrite Nat.min_r by lia.
      rewrite take_ge, drop_ge by lia.
      split; [apply app_nil_r |]. split; [lia |]. split; [reflexivity |].
      split; [auto |]. intros ->. simpl in Hgt. lia.
Qed.

(** The loop, for a chunk size of at least -1: the buffers it has read
    and fed to the hash object, one after the other, and the last, empty,
    read. *)
Lemma sha256_loop_run cs :
  (-1 <= cs <= ssize_max)%Z ->
  forall f h,
  exists bufs f',
    sha256_loop cs h f = inr (fold_left update bufs h, f')
    /\ reads f' = reads f ++ bufs ++ [[]]
    /\ Forall (fun b => (0 < length b)%nat) bufs
    /\ (0 <= cs -> Forall (fun b => Z.of_nat (length b) <= cs) bufs)%Z
    /\ Forall (fun b => Z.of_nat (length b) = cs) (removelast bufs)
    /\ (cs <> 0%Z -> concat bufs = ahead f /\ ahead f' = [])
    /\ (cs = 0%Z -> bufs = [] /\ ahead f' = ahead f).
Proof.
  intros Hcs f. remember (length (ahead f)) as n eqn:Hn. revert f Hn.
  induction (lt_wf n) as [n _ IH]. intros f -> h.
  rewrite sha256_loop_step.
  destruct (read_inr cs f Hcs) as (b & -> & Hglue & Hbound & Hshort & Heof & Hzero).
  destruct b as [| c b'].
  - exists [], (mkFileObject (drop 0 (ahead f)) (reads f ++ [[]])).
    simpl. repeat split; auto.
    symmetry. apply Heof; auto.
  - set (f1 := mkFileObject (drop (length (c :: b')) (ahead f)) (reads f ++ [c :: b'])).
    assert (Hless : (length (ahead f1) < length (ahead f))%nat).
    { subst f1. cbn [ahead]. rewrite <- Hglue at 2. rewrite length_app. simpl. lia. }
    destruct (IH _ Hless f1 eq_refl (update h (c :: b')))
      as (bufs & f' & Hrun & Hreads & Hpos & Hle & Hfull & Hcat & Hz).
    exists ((c :: b') :: bufs), f'.
    split; [exact Hrun |].
    split; [rewrite Hreads; subst f1; cbn [reads]; rewrite <- !app_assoc; reflexivity |].
    split; [constructor; [simpl; lia | exact Hpos] |].
    split; [intros H0; constructor; [apply Hbound; exact H0 | apply Hle; exact H0] |].
    split.
    { destruct bufs as [| b2 bufs']; [constructor |].
      change (removelast ((c :: b') :: b2 :: bufs'))
        with ((c :: b') :: removelast (b2 :: bufs')).
      constructor; [| exact Hfull].
      destruct (Z.eq_dec (Z.of_nat (length (c :: b'))) cs) as [Heq | Hne];
        [exact Heq |].
      exfalso. specialize (Hshort Hne).
      assert (Hcs0 : cs <> 0%Z) by (intros ->; discriminate (Hzero eq_refl)).
      destruct (Hcat Hcs0) as [Hc _]. subst f1. cbn [ahead] in Hc.
      rewrite Hshort in Hc. apply Forall_inv in Hpos. simpl in Hc.
      destruct b2; [simpl in Hpos; lia | discriminate]. }
    split.
    + intros Hnz. destruct (Hcat Hnz) as [Hc Ha]. split; [| exact Ha].
      simpl. rewrite Hc. subst f1. cbn [ahead]. exact Hglue.
    + intros H0. discriminate (Hzero H0).
Qed.

Lemma default_chunk_size_fits c :
  (0 < c <= default_chunk_size)%Z -> (-1 <= c <= ssize_max)%Z.
Proof.
  assert (Hd : default_chunk_size = 1048576%Z) by reflexivity.
  assert (Hmax : ssize_max = 9223372036854775807%Z) by reflexivity.
  lia.
Qed.

(** [sha256_file] on a readable regular file, for a chunk size of at
    least -1 other than 0. *)
Lemma sha256_file_digest path cs w mode data :
  (-1 <= cs <= ssize_max)%Z -> cs <> 0%Z ->
  Os.node_at (fs w) path = Some (File mode data) ->
  Os.readable mode = true ->
  sha256_file path cs w = (w, inr (sha256 data)).
Proof.
  intros Hcs Hnz Hnode Hread.
  unfold sha256_file, bind, query_fs, Os.open_rb. rewrite Hnode, Hread.
  destruct (sha256_loop_run cs Hcs (fopen data) sha256_new)
    as (bufs & f' & -> & _ & _ & _ & _ & Hcat & _).
  destruct (Hcat Hnz) as [Hc _]. cbn [fopen ahead] in Hc.
  unfold ret. rewrite hexdigest_chunks, Hc. reflexivity.
Qed.

End FingerprinterFacts.

(** ** Observations that a computation keeps *)

Section Keeps.
Context {S X : Type} (obs : S -> X).

Lemma keeps_ret {A} (a : A) : keeps obs (ret a).
Proof. intros s. reflexivity. Qed.

Lemma keeps_raise {A} (e : Exn) : keeps obs (raise (A := A) e).
Proof. intros s. reflexivity. Qed.

Lemma keeps_bind {A B} (m : M S A) (k : A -> M S B) :
  keeps obs m -> (forall a, keeps obs (k a)) -> keeps obs (bind m k).
Proof.
  intros Hm Hk s. unfold bind. specialize (Hm s).
  destruct (m s) as [s' [e | a]]; simpl in *; [exact Hm |].
  rewrite Hk. exact Hm.
Qed.

Lemma keeps_try_except {A} (body : M S A) (handler : Exn -> M S A) :
  keeps obs body -> (forall e, keeps obs (handler e)) ->
  keeps obs (try_except body handler).
Proof.
  intros Hm Hk s. unfold try_except. specialize (Hm s).
  destruct (body s) as [s' [e | a]]; simpl in *; [| exact Hm].
  rewrite Hk. exact Hm.
Qed.
End Keeps.

Lemma keeps_liftW {X A} (obs : World -> X) (m : M World A) :
  keeps obs m -> keeps (fun fr => obs (world fr)) (liftW m).
Proof.
  intros Hm fr. unfold liftW. specialize (Hm (world fr)).
  destruct (m (world fr)) as [w' r]. exact Hm.
Qed.

(** Closes [keeps obs m] for a primitive [m] of the state [obs] does not
    look at, and decomposes compound computations. *)
Ltac keeps_prim :=
  let s := fresh "s" in
  intros s;
  unfold print, print_stderr, read_clock, subprocess_call, on_fs, query_fs,
    journalize, assign_entry, update_entry, read_entry, incr_ok, incr_skipped,
    incr_fail;
  simpl; repeat case_match; reflexivity.

Ltac keeps_step :=
  lazymatch goal with
  | |- keeps _ (bind _ _) => apply keeps_bind; [| intros ?]
  | |- keeps _ (try_except _ _) => apply keeps_try_except; [| intros ?]
  | |- keeps _ (ret _) => apply keeps_ret
  | |- keeps _ (raise _) => apply keeps_raise
  | |- keeps _ (liftW _) => apply (keeps_liftW _)
  | |- keeps _ (if ?b then _ else _) => destruct b
  | |- keeps _ (match ?x with _ => _ end) => destruct x
  end.

Ltac keeps_auto := repeat keeps_step; try assumption; try solve [keeps_prim].

Section KeepsScript.
Variable env : Env.

Lemma sha256_file_pure path cs w : fst (sha256_file path cs w) = w.
Proof.
  unfold sha256_file, bind, query_fs, ret, raise.
  destruct (Os.open_rb (fs w) path) as [e | data]; [reflexivity |].
  destruct (sha256_loop cs Hashlib.sha256_new (fopen data)) as [e | [h f']];
    reflexivity.
Qed.

Lemma keeps_run_cmd_journal cmd d : keeps journal (run_cmd env cmd d).
Proof. unfold run_cmd. keeps_auto. Qed.
Lemma keeps_run_cmd_fs cmd d : keeps fs (run_cmd env cmd d).
Proof. unfold run_cmd. keeps_auto. Qed.
Lemma keeps_run_cmd_dry cmd : keeps executed (run_cmd env cmd true).
Proof. unfold run_cmd. keeps_auto. Qed.

End KeepsScript.

Module OsFacts.
Import Os.

Lemma node_at_insert_eq (f : FS) p nd :
  p <> [] -> node_at (<[p := nd]> f) p = Some nd.
Proof. destruct p; [congruence |]. intros _. simpl. apply lookup_insert_eq. Qed.

Lemma node_at_insert_ne (f : FS) p q nd :
  p <> q -> node_at (<[p := nd]> f) q = node_at f q.
Proof. intros Hne. destruct q; [reflexivity |]. simpl. by apply lookup_insert_ne. Qed.

Lemma node_at_delete_ne (f : FS) p q :
  p <> q -> node_at (delete p f) q = node_at f q.
Proof. intros Hne. destruct q; [reflexivity |]. simpl. by apply lookup_delete_ne. Qed.

Lemma is_dir_insert_dir (f : FS) p m : is_dir (<[p := Dir m]> f) p = true.
Proof.
  unfold is_dir. destruct p as [| c p]; [reflexivity |].
  rewrite node_at_insert_eq by discriminate. reflexivity.
Qed.

Lemma mkdir_inr u p f f' : mkdir u p f = inr f' -> is_dir f' p = true.
Proof.
  unfold mkdir. repeat case_match; try discriminate.
  intros [= <-]. apply is_dir_insert_dir.
Qed.

Lemma mkdir_exist_ok_inr u p f f' :
  mkdir_exist_ok u p f = inr f' -> is_dir f' p = true.
Proof.
  unfold mkdir_exist_ok. destruct (mkdir u p f) as [e | f1] eqn:E.
  - repeat case_match; try discriminate; intros [= <-]; assumption.
  - intros [= <-]. eapply mkdir_inr; eassumption.
Qed.

Lemma mkdir_parents_rev_inr u rp f f' :
  mkdir_parents_rev u rp f = inr f' -> is_dir f' (rev rp) = true.
Proof.
  destruct rp as [| c rp]; simpl.
  - intros _. reflexivity.
  - destruct (mkdir u (rev rp ++ [c]) f) as [e | f1] eqn:E.
    + destruct (exn_class e);
        try (destruct (is_dir f (rev rp ++ [c])) eqn:D;
             [intros [= <-]; exact D | discriminate]).
      destruct (mkdir_parents_rev u rp f) as [e' | f1]; [discriminate |].
      apply mkdir_exist_ok_inr.
    + intros [= <-]. eapply mkdir_inr; eassumption.
Qed.

Lemma mkdir_parents_inr u p f f' :
  mkdir_parents u p f = inr f' -> is_dir f' p = true.
Proof.
  unfold mkdir_parents. intros H. apply mkdir_parents_rev_inr in H.
  rewrite rev_involutive in H. exact H.
Qed.

Lemma mkdir_parents_rev_present u rp f :
  is_dir f (rev rp) = true -> mkdir_parents_rev u rp f = inr f.
Proof.
  intros Hd.
  assert (Hm : mkdir u (rev rp) f = inl (eexist (rev rp))).
  { unfold mkdir. unfold is_dir in Hd.
    destruct (node_at f (rev rp)); [reflexivity | discriminate]. }
  destruct rp as [| c rp]; [reflexivity |].
  cbn [mkdir_parents_rev]. cbv zeta. rewrite Hm. cbn [exn_class eexist].
  rewrite Hd. reflexivity.
Qed.

Lemma mkdir_parents_present u p f :
  is_dir f p = true -> mkdir_parents u p f = inr f.
Proof.
  intros Hd. apply mkdir_parents_rev_present. rewrite rev_involutive. exact Hd.
Qed.

Lemma append_inl u p b f e : append u p b f = inl e -> forall b', append u p b' f = inl e.
Proof. unfold append. intros H b'. repeat case_match; congruence. Qed.

End OsFacts.

Section WriteJsonl.
Variable env : Env.
Variable log_path : Path.

Lemma write_jsonl_inr obj w w' u :
  write_jsonl env log_path obj w = (w', inr u) ->
  journal w' = journal w ++ [(log_path, obj)]
  /\ executed w' = executed w /\ stdout w' = stdout w
  /\ stderr w' = stderr w /\ clock_reads w' = clock_reads w.
Proof.
  unfold write_jsonl, bind, on_fs, journalize.
  destruct (Os.mkdir_parents _ _ _) as [e1 | f1]; [discriminate |]. simpl.
  destruct (Os.append _ _ _ _) as [e2 | f2]; [discriminate |].
  intros [= <- _]. simpl. auto.
Qed.

Lemma write_jsonl_inl obj w w' e :
  write_jsonl env log_path obj w = (w', inl e) ->
  journal w' = journal w /\ log_blocked env log_path (fs w').
Proof.
  unfold write_jsonl, bind, on_fs, journalize.
  destruct (Os.mkdir_parents (umask env) (Pathlib.parent log_path) (fs w))
    as [e1 | f1] eqn:E1.
  - intros [= <- <-]. split; [reflexivity |].
    intros obj' w2 Hw2. unfold write_jsonl, bind, on_fs. rewrite Hw2, E1. eauto.
  - simpl.
    destruct (Os.append (umask env) log_path (json_dumps env obj ++ [x0a]) f1)
      as [e2 | f2] eqn:E2; [| discriminate].
    intros [= <- <-]. split; [reflexivity |]. simpl.
    intros obj' w2 Hw2. unfold write_jsonl, bind, on_fs. rewrite Hw2.
    rewrite (OsFacts.mkdir_parents_present _ _ f1)
      by (eapply OsFacts.mkdir_parents_inr; eassumption).
    simpl. rewrite (OsFacts.append_inl _ _ _ _ _ E2). eauto.
Qed.

Lemma keeps_write_jsonl_executed obj : keeps executed (write_jsonl env log_path obj).
Proof. unfold write_jsonl. keeps_auto. Qed.

End WriteJsonl.

(** ** The loop of main *)

Lemma bind_inv {S A B} (m : M S A) (k : A -> M S B) s s' r :
  bind m k s = (s', r) ->
  (exists s1 a, m s = (s1, inr a) /\ k a s1 = (s', r))
  \/ (exists e, m s = (s', inl e) /\ r = inl e).
Proof.
  unfold bind. destruct (m s) as [s1 [e | a]].
  - intros [= <- <-]. right. eauto.
  - intros H. left. eauto.
Qed.

Lemma try_except_inv {S A} (body : M S A) (handler : Exn -> M S A) s s' r :
  try_except body handler s = (s', r) ->
  (exists a, body s = (s', inr a) /\ r = inr a)
  \/ (exists s1 e, body s = (s1, inl e) /\ handler e s1 = (s', r)).
Proof.
  unfold try_except. destruct (body s) as [s1 [e | a]].
  - intros H. right. eauto.
  - intros [= <- <-]. left. eauto.
Qed.

Lemma liftW_run {A} (m : M World A) fr fr' r :
  liftW m fr = (fr', r) ->
  m (world fr) = (world fr', r)
  /\ entry fr' = entry fr /\ ok fr' = ok fr
  /\ skipped fr' = skipped fr /\ fail fr' = fail fr.
Proof.
  unfold liftW. destruct (m (world fr)) as [w' r']. intros [= <- <-]. simpl. auto.
Qed.

Lemma keeps_run {S X A} (obs : S -> X) (m : M S A) s s' r :
  keeps obs m -> m s = (s', r) -> obs s' = obs s.
Proof. intros Hk Hm. specialize (Hk s). rewrite Hm in Hk. exact Hk. Qed.

(** Split a run of [bind m k] into the run of [m] and the run of [k]. *)
Ltac inv_bind H :=
  let s1 := fresh "st" in
  let a := fresh "v" in
  let e := fresh "ex" in
  let H1 := fresh "Hrun" in
  apply bind_inv in H as [(s1 & a & H1 & H) | (e & H & ->)].

Section Loop.
Variable env : Env.
Variable s : Settings.t.
Variable args : Args.t.
Variables sent_dir log_path : Path.

Lemma keeps_remote_file_exists_journal rp d :
  keeps journal (remote_file_exists env s rp d).
Proof. unfold remote_file_exists, run_cmd. keeps_auto. Qed.

Lemma keeps_scp_upload_journal f rp d : keeps journal (scp_upload env s f rp d).
Proof. unfold scp_upload, run_cmd. keeps_auto. Qed.

Lemma keeps_post_action_journal f : keeps journal (post_action env args sent_dir f).
Proof. unfold post_action. keeps_auto. Qed.

Lemma try_body_spec f rp fr fr' r :
  try_body env s args sent_dir log_path f rp fr = (fr', r) ->
  Entry.local_path (entry fr') = Entry.local_path (entry fr)
  /\ Entry.remote_path (entry fr') = Entry.remote_path (entry fr)
  /\ Entry.error (entry fr') = Entry.error (entry fr)
  /\ match r with
     | inr Continue =>
         journal (world fr') = journal (world fr) ++ [(log_path, FileRecord (entry fr'))]
         /\ Entry.status (entry fr') = Some "skipped_remote_exists"
         /\ ok fr' = ok fr /\ skipped fr' = (skipped fr + 1)%Z /\ fail fr' = fail fr
         /\ Args.dry_run args = false /\ Args.overwrite args = false
     | inr FallThrough =>
         journal (world fr') = journal (world fr)
         /\ Entry.status (entry fr') = Some "uploaded"
         /\ ok fr' = (ok fr + 1)%Z /\ skipped fr' = skipped fr /\ fail fr' = fail fr
     | inl e =>
         journal (world fr') = journal (world fr)
         /\ ok fr' = ok fr /\ fail fr' = fail fr
         /\ (skipped fr' = skipped fr
             \/ (skipped fr' = (skipped fr + 1)%Z
                 /\ log_blocked env log_path (fs (world fr'))))
     end.
Proof.
  unfold try_body. intros H.
  inv_bind H.
  2:{ apply liftW_run in H as (Hw & He & Ho & Hs & Hf).
      pose proof (sha256_file_pure f default_chunk_size (world fr)) as Hp.
      rewrite Hw in Hp. simpl in Hp. rewrite He, Ho, Hs, Hf, Hp. auto 10. }
  apply liftW_run in Hrun as (Hw & He & Ho & Hs & Hf).
  pose proof (sha256_file_pure f default_chunk_size (world fr)) as Hp.
  rewrite Hw in Hp. simpl in Hp. clear Hw.
  inv_bind H; [| discriminate].
  injection Hrun as <- <-.
  inv_bind H.
  2:{ (* the probe raises *)
      destruct (Args.overwrite args); simpl in H; [discriminate |].
      apply liftW_run in H as (Hw & He' & Ho' & Hs' & Hf'). simpl in *.
      apply (keeps_run _ _ _ _ _ (keeps_remote_file_exists_journal _ _)) in Hw.
      rewrite He', Ho', Hs', Hf', Hw, He, Ho, Hs, Hf, Hp. auto 10. }
  assert (Hprobe : journal (world st0) = journal (world fr)
                   /\ entry st0 = Entry.set_sha256 (Some v) (entry fr)
                   /\ ok st0 = ok fr /\ skipped st0 = skipped fr /\ fail st0 = fail fr
                   /\ (v0 = true -> Args.dry_run args = false
                                    /\ Args.overwrite args = false)).
  { destruct (Args.overwrite args); simpl in Hrun.
    - injection Hrun as <- <-. simpl. rewrite He, Ho, Hs, Hf, Hp.
      repeat split; discriminate.
    - apply liftW_run in Hrun as (Hw & He' & Ho' & Hs' & Hf'). simpl in *.
      pose proof (keeps_run _ _ _ _ _ (keeps_remote_file_exists_journal _ _) Hw) as Hj.
      rewrite He', Ho', Hs', Hf', Hj, He, Ho, Hs, Hf, Hp.
      repeat split; try reflexivity.
      destruct (Args.dry_run args); [| reflexivity].
      injection Hw as _ <-. discriminate. }
  clear Hrun. destruct Hprobe as (Hj0 & He0 & Ho0 & Hs0 & Hf0 & Hv0).
  destruct v0.
  - (* skipped *)
    destruct (Hv0 eq_refl) as [Hdry Hov].
    inv_bind H; [| discriminate]. injection Hrun as <- <-.
    inv_bind H; [| discriminate]. injection Hrun as <- <-.
    inv_bind H; [| discriminate]. injection Hrun as <- <-.
    inv_bind H.
    + apply liftW_run in Hrun as (Hw & He' & Ho' & Hs' & Hf'). simpl in *.
      destruct v0. apply write_jsonl_inr in Hw as (Hj & _).
      injection H as <- <-. rewrite Hj, He', Ho', Hs', Hf', He0, Ho0, Hs0, Hf0, Hj0.
      simpl. auto 10.
    + apply liftW_run in H as (Hw & He' & Ho' & Hs' & Hf'). simpl in *.
      apply write_jsonl_inl in Hw as (Hj & Hblocked).
      rewrite Hj, He', Ho', Hs', Hf', He0, Ho0, Hs0, Hf0, Hj0. simpl. auto 10.
  - (* upload *)
    inv_bind H.
    2:{ apply liftW_run in H as (Hw & He' & Ho' & Hs' & Hf').
        apply (keeps_run _ _ _ _ _ (keeps_scp_upload_journal _ _ _)) in Hw.
        rewrite Hw, He', Ho', Hs', Hf', He0, Ho0, Hs0, Hf0, Hj0. simpl. auto 10. }
    apply liftW_run in Hrun as (Hw & He' & Ho' & Hs' & Hf').
    apply (keeps_run _ _ _ _ _ (keeps_scp_upload_journal _ _ _)) in Hw.
    inv_bind H.
    2:{ apply liftW_run in H as (Hw2 & He2 & Ho2 & Hs2 & Hf2).
        apply (keeps_run _ _ _ _ _ (keeps_post_action_journal _)) in Hw2.
        rewrite Hw2, He2, Ho2, Hs2, Hf2, Hw, He', Ho', Hs', Hf', He0, Ho0, Hs0, Hf0, Hj0.
        simpl. auto 10. }
    apply liftW_run in Hrun as (Hw2 & He2 & Ho2 & Hs2 & Hf2).
    apply (keeps_run _ _ _ _ _ (keeps_post_action_journal _)) in Hw2.
    inv_bind H; [| discriminate]. injection Hrun as <- <-.
    inv_bind H; [| discriminate]. injection Hrun as <- <-.
    injection H as <- <-. simpl.
    rewrite Hw2, He2, Ho2, Hs2, Hf2, Hw, He', Ho', Hs', Hf', He0, Ho0, Hs0, Hf0, Hj0.
    simpl. auto 10.
Qed.

Lemma loop_body_spec f fr fr' r :
  loop_body env s args sent_dir log_path f fr = (fr', r) ->
  match r with
  | inr _ => exists e, iteration_outcome s args log_path f fr fr' e
  | inl _ => journal (world fr') = journal (world fr)
  end.
Proof.
  unfold loop_body. intros H.
  inv_bind H; [| discriminate].
  apply liftW_run in Hrun as (Hw & He & Ho & Hs & Hf).
  assert (Hj : journal (world st) = journal (world fr)) by (injection Hw as <- _; reflexivity).
  clear Hw.
  inv_bind H.
  2:{ apply liftW_run in H as (Hw & _). unfold query_fs in Hw.
      injection Hw as <- _. exact Hj. }
  apply liftW_run in Hrun as (Hw & He1 & Ho1 & Hs1 & Hf1).
  unfold query_fs in Hw. injection Hw as Hw _.
  inv_bind H; [| discriminate]. injection Hrun as <- <-.
  inv_bind H.
  2:{ (* the handler never raises *)
      apply try_except_inv in H as [(a & _ & [=]) | (s1 & e & _ & [=])]. }
  apply try_except_inv in Hrun as [(a & Hbody & [= ->]) | (s1 & e & Hbody & Hh)].
  - apply try_body_spec in Hbody as (Hlp & Hrp & Herr & Hcase). simpl in *.
    destruct a.
    + injection H as <- <-.
      destruct Hcase as (Hjj & Hst & Hok & Hsk & Hfl & Hdry & Hov).
      exists (entry st1). unfold iteration_outcome.
      rewrite Hjj, Hlp, Hrp, Herr, Hok, Hsk, Hfl, Ho1, Hs1, Hf1, Ho, Hs, Hf, <- Hw, Hj.
      auto 20.
    + destruct Hcase as (Hjj & Hst & Hok & Hsk & Hfl).
      inv_bind H; [| discriminate]. injection Hrun as <- <-.
      destruct r as [e | []].
      * apply liftW_run in H as (Hw2 & _).
        apply write_jsonl_inl in Hw2 as (Hj2 & _). congruence.
      * apply liftW_run in H as (Hw2 & He2 & Ho2 & Hs2 & Hf2).
        apply write_jsonl_inr in Hw2 as (Hj2 & _).
        exists (entry st1). unfold iteration_outcome.
        rewrite Hj2, Hjj, Hlp, Hrp, Herr, Ho2, Hs2, Hf2, Hok, Hsk, Hfl,
          Ho1, Hs1, Hf1, Ho, Hs, Hf, <- Hw, Hj.
        auto 20.
  - apply try_body_spec in Hbody as (Hlp & Hrp & Herr & Hjj & Hok & Hfl & Hsk).
    simpl in *. injection Hh as <- <-.
    inv_bind H; [| discriminate]. injection Hrun as <- <-.
    destruct r as [e' | []].
    + apply liftW_run in H as (Hw2 & _).
      apply write_jsonl_inl in Hw2 as (Hj2 & _). simpl in *. congruence.
    + apply liftW_run in H as (Hw2 & He2 & Ho2 & Hs2 & Hf2). simpl in *.
      destruct Hsk as [Hsk | [_ Hblocked]].
      2:{ destruct (Hblocked (FileRecord
                      (Entry.set_error (Some (exn_str e))
                         (Entry.set_status (Some "failed") (entry s1))))
                      (world s1) eq_refl) as (w' & e' & Hfail).
          congruence. }
      apply write_jsonl_inr in Hw2 as (Hj2 & _).
      eexists. unfold iteration_outcome.
      rewrite Hj2, Hjj, <- Hw, Hj, Ho2, Hs2, Hf2, Hok, Hsk, Hfl,
        Ho1, Hs1, Hf1, Ho, Hs, Hf.
      split; [reflexivity |]. simpl. rewrite Hlp, Hrp.
      split; [reflexivity |]. split; [reflexivity |].
      right. right. eauto 10.
Qed.

Lemma count_status_app st (l1 l2 : list (Path * LogRecord)) :
  count_status st (l1 ++ l2) = (count_status st l1 + count_status st l2)%Z.
Proof. unfold count_status. rewrite List.filter_app, length_app. lia. Qed.

Lemma iteration_outcome_final f fr fr' e :
  iteration_outcome s args log_path f fr fr' e ->
  final_file_record log_path (log_path, FileRecord e).
Proof.
  intros (_ & _ & _ & Hcase). split; [reflexivity |]. exists e.
  split; [reflexivity |]. intuition.
Qed.

Lemma iteration_outcome_counts f fr fr' e :
  iteration_outcome s args log_path f fr fr' e ->
  ok fr' = (ok fr + count_status "uploaded" [(log_path, FileRecord e)])%Z
  /\ skipped fr'
     = (skipped fr + count_status "skipped_remote_exists" [(log_path, FileRecord e)])%Z
  /\ fail fr' = (fail fr + count_status "failed" [(log_path, FileRecord e)])%Z.
Proof.
  intros (_ & _ & _ & Hcase). unfold count_status, has_status, file_status. simpl.
  destruct Hcase as [(-> & _ & -> & -> & ->) | [(-> & _ & _ & _ & -> & -> & ->)
                                               | (-> & _ & -> & -> & ->)]];
    simpl; lia.
Qed.

(** The loop: one final record per file for as long as it runs; when it
    completes, the counters have grown by the number of records of each
    status. *)
Lemma for_files_spec files : forall fr fr' r,
  for_files env s args sent_dir log_path files fr = (fr', r) ->
  exists recs,
    journal (world fr') = journal (world fr) ++ recs
    /\ Forall (final_file_record log_path) recs
    /\ (Args.dry_run args = true ->
        Forall (fun x => file_status x <> Some "skipped_remote_exists") recs)
    /\ match r with
       | inl _ => True
       | inr _ =>
           map record_paths recs
           = map (fun f => (Pathlib.path_str f, remote_path_of s f)) files
           /\ ok fr' = (ok fr + count_status "uploaded" recs)%Z
           /\ skipped fr' = (skipped fr + count_status "skipped_remote_exists" recs)%Z
           /\ fail fr' = (fail fr + count_status "failed" recs)%Z
       end.
Proof.
  induction files as [| f rest IH]; intros fr fr' r H.
  - injection H as <- <-. exists []. rewrite app_nil_r.
    unfold count_status. simpl. repeat split; auto; lia.
  - simpl in H. inv_bind H.
    + apply loop_body_spec in Hrun as (e & Hout).
      destruct (IH _ _ _ H) as (recs & Hj & Hfin & Hdry & Hr).
      exists ((log_path, FileRecord e) :: recs).
      pose proof (iteration_outcome_final _ _ _ _ Hout) as Hf1.
      pose proof (iteration_outcome_counts _ _ _ _ Hout) as (Hc1 & Hc2 & Hc3).
      destruct Hout as (Hj1 & Hlp & Hrp & Hcase).
      split; [rewrite Hj, Hj1, <- app_assoc; reflexivity |].
      split; [constructor; assumption |].
      split.
      { intros Hd. constructor; [| auto]. unfold file_status. simpl.
        destruct Hcase as [(-> & _) | [(_ & _ & Hnd & _) | (-> & _)]];
          congruence. }
      destruct r as [ex | u]; [exact I |].
      destruct Hr as (Hmap & Ho & Hs & Hf).
      change ((log_path, FileRecord e) :: recs) with ([(log_path, FileRecord e)] ++ recs).
      rewrite !count_status_app. simpl. unfold record_paths at 1. simpl.
      rewrite Hmap, Hlp, Hrp. repeat split; lia.
    + apply loop_body_spec in H. exists []. rewrite app_nil_r.
      repeat split; auto.
Qed.

Lemma final_records_partition recs :
  Forall (final_file_record log_path) recs ->
  (count_status "uploaded" recs + count_status "skipped_remote_exists" recs
   + count_status "failed" recs)%Z = Z.of_nat (length recs).
Proof.
  induction 1 as [| x recs Hx _ IH].
  - reflexivity.
  - change (x :: recs) with ([x] ++ recs). rewrite !count_status_app, length_app.
    destruct Hx as (_ & e & Hsnd & Hst).
    assert (count_status "uploaded" [x] + count_status "skipped_remote_exists" [x]
            + count_status "failed" [x] = 1)%Z.
    { unfold count_status, has_status, file_status. simpl. rewrite Hsnd.
      destruct Hst as [-> | [-> | ->]]; reflexivity. }
    simpl length. lia.
Qed.

End Loop.

(** ** The whole of main *)

Section Main.
Variable env : Env.
Variable s : Settings.t.
Variable args : Args.t.

Lemma keeps_validate_env_fs : keeps fs (validate_env env s).
Proof. unfold validate_env. keeps_auto. Qed.
Lemma keeps_validate_env_journal : keeps journal (validate_env env s).
Proof. unfold validate_env. keeps_auto. Qed.
Lemma keeps_validate_env_executed : keeps executed (validate_env env s).
Proof. unfold validate_env. keeps_auto. Qed.

Lemma keeps_ensure_remote_dir_fs d : keeps fs (ensure_remote_dir env s d).
Proof. unfold ensure_remote_dir, run_cmd. keeps_auto. Qed.
Lemma keeps_ensure_remote_dir_journal d : keeps journal (ensure_remote_dir env s d).
Proof. unfold ensure_remote_dir, run_cmd. keeps_auto. Qed.

Lemma iter_files_pure base pattern recursive w w' x :
  iter_files base pattern recursive w = (w', x) ->
  w' = w
  /\ forall w2, fs w2 = fs w -> iter_files base pattern recursive w2 = (w2, x).
Proof.
  unfold iter_files, glob_select, raise.
  repeat case_match; intros [= <- <-]; (split; [reflexivity |]);
    intros w2 Hw2; rewrite ?Hw2; reflexivity.
Qed.

Lemma main_spec w w' r :
  main env s args w = (w', r) ->
  if local_dir_valid env args (fs w) then
    exists log_path recs tail,
      journal w' = journal w ++ recs ++ tail
      /\ Forall (final_file_record log_path) recs
      /\ (Args.dry_run args = true ->
          Forall (fun x => file_status x <> Some "skipped_remote_exists") recs)
      /\ match r with
         | inl _ => tail = []
         | inr code =>
             exists files last,
               iter_files (resolve_arg env (Args.local_dir args))
                 (Args.pattern args) (Args.recursive args) w = (w, inr files)
               /\ tail = [(log_path, last)]
               /\ map record_paths recs
                  = map (fun f => (Pathlib.path_str f, remote_path_of s f)) files
               /\ closing_record files recs last code
         end
  else
    journal w' = journal w /\ fs w' = fs w /\ executed w' = executed w
    /\ match r with inl _ => True | inr code => code = 2%Z end.
Proof.
  unfold main, local_dir_valid. intros H.
  set (local_dir := resolve_arg env (Args.local_dir args)) in *.
  inv_bind H.
  2:{ pose proof (keeps_run _ _ _ _ _ keeps_validate_env_journal H) as Hj.
      pose proof (keeps_run _ _ _ _ _ keeps_validate_env_fs H) as Hf.
      pose proof (keeps_run _ _ _ _ _ keeps_validate_env_executed H) as Hx.
      destruct (_ && _).
      - exists [], [], []. rewrite Hj, !app_nil_r. repeat split; auto.
      - auto. }
  pose proof (keeps_run _ _ _ _ _ keeps_validate_env_journal Hrun) as Hj.
  pose proof (keeps_run _ _ _ _ _ keeps_validate_env_fs Hrun) as Hf.
  pose proof (keeps_run _ _ _ _ _ keeps_validate_env_executed Hrun) as Hx.
  clear Hrun.
  inv_bind H; [| discriminate]. unfold query_fs in Hrun.
  injection Hrun as <- <-. rewrite Hf in H.
  destruct (Os.exists_ (fs w) local_dir && Os.is_dir (fs w) local_dir) eqn:Hvalid;
    simpl in H.
  2:{ inv_bind H; [| discriminate]. injection Hrun as <- <-.
      injection H as <- <-. simpl. auto. }
  (* make_log_path *)
  inv_bind H; [| discriminate].
  unfold make_log_path, bind, read_clock, ret in Hrun. injection Hrun as <- <-.
  set (log_path := Pathlib.path_join _ _) in *.
  exists log_path.
  (* ensure_remote_dir *)
  inv_bind H.
  2:{ pose proof (keeps_run _ _ _ _ _ (keeps_ensure_remote_dir_journal _) H) as Hj2.
      exists [], []. rewrite Hj2. simpl. rewrite Hj, !app_nil_r. repeat split; auto. }
  pose proof (keeps_run _ _ _ _ _ (keeps_ensure_remote_dir_journal _) Hrun) as Hj2.
  pose proof (keeps_run _ _ _ _ _ (keeps_ensure_remote_dir_fs _) Hrun) as Hf2.
  simpl in Hj2, Hf2. clear Hrun.
  (* iter_files *)
  inv_bind H.
  2:{ apply iter_files_pure in H as (-> & _).
      exists [], []. rewrite Hj2, Hj, !app_nil_r. repeat split; auto. }
  apply iter_files_pure in Hrun as (-> & Hfiles).
  specialize (Hfiles w (eq_trans (eq_sym Hf) (eq_sym Hf2))).
  destruct v1 as [| f rest].
  - (* no file *)
    inv_bind H; [| discriminate]. injection Hrun as <- <-.
    inv_bind H; [| discriminate]. injection Hrun as <- <-.
    inv_bind H.
    + apply write_jsonl_inr in Hrun as (Hj3 & _). injection H as <- <-.
      exists [], [(log_path, NoFilesRecord
                    (NoFiles.mk (utcnow_iso env (clock_reads st0)) "run_end" "no_files"
                       (Pathlib.path_str local_dir) (Args.pattern args)))].
      rewrite Hj3. simpl. rewrite Hj2, Hj. repeat split; auto.
      eexists [], _. repeat split; eauto.
    + apply write_jsonl_inl in H as (Hj3 & _).
      exists [], []. rewrite Hj3. simpl. rewrite Hj2, Hj, !app_nil_r.
      repeat split; auto.
  - (* the loop *)
    set (files := f :: rest) in *.
    inv_bind H.
    2:{ unfold run_loop in H.
        destruct (for_files _ _ _ _ _ _ _) as [fr [e | u]] eqn:Hloop; [| discriminate].
        injection H as <- _.
        apply for_files_spec in Hloop as (recs & Hj3 & Hfin & Hdry & _).
        exists recs, []. rewrite Hj3. simpl. rewrite Hj2, Hj, !app_nil_r. auto. }
    unfold run_loop in Hrun.
    destruct (for_files _ _ _ _ _ _ _) as [fr [e | u]] eqn:Hloop; [discriminate |].
    injection Hrun as <- <-.
    apply for_files_spec in Hloop as (recs & Hj3 & Hfin & Hdry & Hmap & Hok & Hsk & Hfl).
    simpl in Hj3, Hok, Hsk, Hfl.
    exists recs.
    inv_bind H; [| discriminate]. injection Hrun as <- <-.
    inv_bind H.
    2:{ apply write_jsonl_inl in H as (Hj4 & _).
        exists []. rewrite Hj4. simpl. rewrite Hj3, Hj2, Hj, !app_nil_r. auto. }
    apply write_jsonl_inr in Hrun as (Hj4 & _). simpl in Hj4.
    repeat (inv_bind H; [| discriminate]; injection Hrun as <- <-).
    injection H as <- <-. simpl.
    eexists. rewrite Hj4, Hj3, Hj2, Hj, <- app_assoc.
    split; [reflexivity |]. split; [assumption |]. split; [assumption |].
    eexists files, _. split; [exact Hfiles |]. split; [reflexivity |].
    split; [exact Hmap |].
    simpl. rewrite Hok, Hsk, Hfl, !Z.add_0_l. repeat split; auto; discriminate.
Qed.

End Main.

(** ** Dry runs *)

Section DryRun.
Variable env : Env.
Variable s : Settings.t.
Variable args : Args.t.
Variables sent_dir log_path : Path.
Hypothesis Hdry : Args.dry_run args = true.

Lemma keeps_post_action_executed f : keeps executed (post_action env args sent_dir f).
Proof. unfold post_action. keeps_auto. Qed.

Lemma keeps_try_body_executed_dry f rp :
  keeps (fun fr => executed (world fr)) (try_body env s args sent_dir log_path f rp).
Proof.
  unfold try_body, remote_file_exists, scp_upload, run_cmd, write_jsonl, sha256_file.
  rewrite Hdry. keeps_auto. apply keeps_post_action_executed.
Qed.

Lemma keeps_loop_body_executed_dry f :
  keeps (fun fr => executed (world fr)) (loop_body env s args sent_dir log_path f).
Proof.
  unfold loop_body, except_clause, utc_iso, write_jsonl. keeps_auto.
  apply keeps_try_body_executed_dry.
Qed.

Lemma keeps_for_files_executed_dry files :
  keeps (fun fr => executed (world fr)) (for_files env s args sent_dir log_path files).
Proof.
  induction files as [| f rest IH]; simpl.
  - apply keeps_ret.
  - apply keeps_bind; [apply keeps_loop_body_executed_dry | intros _; exact IH].
Qed.

Lemma keeps_run_loop_executed_dry files :
  keeps executed (run_loop env s args sent_dir log_path files).
Proof.
  intros w. unfold run_loop.
  pose proof (keeps_for_files_executed_dry files (mkFrame w Entry.unbound 0 0 0)) as H.
  destruct (for_files _ _ _ _ _ _ _) as [fr [e | u]]; exact H.
Qed.

End DryRun.

Lemma keeps_main_executed_dry env s args :
  Args.dry_run args = true -> keeps executed (main env s args).
Proof.
  intros Hdry. unfold main, validate_env, make_log_path, ensure_remote_dir, run_cmd,
    iter_files, glob_select, utc_iso, write_jsonl.
  rewrite Hdry. keeps_auto; apply keeps_run_loop_executed_dry; exact Hdry.
Qed.

Section Evolves.
Context {S : Type} (R : S -> S -> Prop) `{!Reflexive R} `{!Transitive R}.

Lemma evolves_ret {A} (a : A) : evolves R (ret a).
Proof. intros s. simpl. reflexivity. Qed.

Lemma evolves_raise {A} (e : Exn) : evolves R (raise (A := A) e).
Proof. intros s. simpl. reflexivity. Qed.

Lemma evolves_bind {A B} (m : M S A) (k : A -> M S B) :
  evolves R m -> (forall a, evolves R (k a)) -> evolves R (bind m k).
Proof.
  intros Hm Hk s. unfold bind. specialize (Hm s).
  destruct (m s) as [s' [e | a]]; simpl in *; [exact Hm |].
  etransitivity; [exact Hm | apply Hk].
Qed.

Lemma evolves_try_except {A} (body : M S A) (handler : Exn -> M S A) :
  evolves R body -> (forall e, evolves R (handler e)) ->
  evolves R (try_except body handler).
Proof.
  intros Hm Hk s. unfold try_except. specialize (Hm s).
  destruct (body s) as [s' [e | a]]; simpl in *; [| exact Hm].
  etransitivity; [exact Hm | apply Hk].
Qed.
End Evolves.

Lemma evolves_liftW {A} (R : World -> World -> Prop) (m : M World A) :
  evolves R m -> evolves (fun fr fr' => R (world fr) (world fr')) (liftW m).
Proof.
  intros Hm fr. unfold liftW. specialize (Hm (world fr)).
  destruct (m (world fr)) as [w' r]. exact Hm.
Qed.

Module PersistFacts.
Import Os OsFacts.

Global Instance persists_refl : Reflexive persists.
Proof.
  intros f p [m | m data] H; [exact H |]. exists []. rewrite app_nil_r. exact H.
Qed.

Global Instance persists_trans : Transitive persists.
Proof.
  intros f1 f2 f3 H12 H23 p [m | m data] H.
  - apply (H23 p (Dir m)). apply (H12 p (Dir m)). exact H.
  - destruct (H12 p _ H) as [d1 H1]. destruct (H23 p _ H1) as [d2 H2].
    exists (d1 ++ d2). rewrite app_assoc. exact H2.
Qed.

Lemma persists_insert_fresh (f : FS) p nd :
  node_at f p = None -> persists f (<[p := nd]> f).
Proof.
  intros Hfresh q x Hq.
  assert (Hne : p <> q) by congruence.
  rewrite (node_at_insert_ne f p q nd Hne).
  apply (persists_refl f q x Hq).
Qed.

Lemma mkdir_persists u p f f' : mkdir u p f = inr f' -> persists f f'.
Proof.
  unfold mkdir. destruct (node_at f p) eqn:Hp; [discriminate |].
  destruct (node_at f (Pathlib.parent p)) as [[m | m d] |]; try discriminate.
  intros [= <-]. apply persists_insert_fresh. exact Hp.
Qed.

Lemma mkdir_exist_ok_persists u p f f' :
  mkdir_exist_ok u p f = inr f' -> persists f f'.
Proof.
  unfold mkdir_exist_ok. destruct (mkdir u p f) as [e | f1] eqn:E.
  - destruct (exn_class e); try discriminate;
      (destruct (is_dir f p); [intros [= <-]; reflexivity | discriminate]).
  - intros [= <-]. eapply mkdir_persists; eassumption.
Qed.

Lemma mkdir_parents_rev_persists u rp : forall f f',
  mkdir_parents_rev u rp f = inr f' -> persists f f'.
Proof.
  induction rp as [| c rp IH]; intros f f'; cbn [mkdir_parents_rev]; cbv zeta.
  - destruct (mkdir u (rev []) f) as [e | f1] eqn:E.
    + destruct (exn_class e); try discriminate;
        (destruct (is_dir f (rev [])); [intros [= <-]; reflexivity | discriminate]).
    + intros [= <-]. eapply mkdir_persists; eassumption.
  - destruct (mkdir u (rev (c :: rp)) f) as [e | f1] eqn:E.
    + destruct (exn_class e);
        try (destruct (is_dir f (rev (c :: rp)));
             [intros [= <-]; reflexivity | discriminate]).
      destruct (mkdir_parents_rev u rp f) as [e' | f1] eqn:E1; [discriminate |].
      intros H. etransitivity; [apply (IH _ _ E1) |].
      eapply mkdir_exist_ok_persists; eassumption.
    + intros [= <-]. eapply mkdir_persists; eassumption.
Qed.

Lemma mkdir_parents_persists u p f f' :
  mkdir_parents u p f = inr f' -> persists f f'.
Proof. apply mkdir_parents_rev_persists. Qed.

Lemma append_persists u p bytes f f' : append u p bytes f = inr f' -> persists f f'.
Proof.
  unfold append. destruct (node_at f p) as [[m | m d] |] eqn:Hp; try discriminate.
  - destruct (writable m); [| discriminate]. intros [= <-] q x Hq.
    destruct (decide (p = q)) as [<- | Hne].
    + rewrite Hp in Hq. injection Hq as <-.
      exists bytes. apply node_at_insert_eq. intros ->. discriminate.
    + rewrite (node_at_insert_ne f p q _ Hne). apply (persists_refl f q x Hq).
  - destruct (node_at f (Pathlib.parent p)) as [[m | m d] |]; try discriminate.
    intros [= <-]. apply persists_insert_fresh. exact Hp.
Qed.

End PersistFacts.

Global Instance files_persist_refl : Reflexive files_persist.
Proof. intros w. unfold files_persist. reflexivity. Qed.
Global Instance files_persist_trans : Transitive files_persist.
Proof. intros w1 w2 w3. unfold files_persist. apply PersistFacts.persists_trans. Qed.
Global Instance files_persist_in_frame_refl : Reflexive files_persist_in_frame.
Proof. intros fr. unfold files_persist_in_frame. reflexivity. Qed.
Global Instance files_persist_in_frame_trans : Transitive files_persist_in_frame.
Proof.
  intros f1 f2 f3. unfold files_persist_in_frame. apply files_persist_trans.
Qed.

Lemma files_persist_liftW {A} (m : M World A) :
  evolves files_persist m -> evolves files_persist_in_frame (liftW m).
Proof. apply evolves_liftW. Qed.

(** A computation that leaves the files alone. *)
Lemma files_persist_of_keeps {A} (m : M World A) :
  keeps fs m -> evolves files_persist m.
Proof. intros Hk w. unfold files_persist. rewrite Hk. reflexivity. Qed.

Lemma files_persist_in_frame_of_keeps {A} (m : M Frame A) :
  keeps (fun fr => fs (world fr)) m -> evolves files_persist_in_frame m.
Proof.
  intros Hk fr. unfold files_persist_in_frame, files_persist.
  rewrite (Hk fr). reflexivity.
Qed.

Lemma files_persist_mkdir_parents u p :
  evolves files_persist (on_fs (Os.mkdir_parents u p)).
Proof.
  intros w. unfold on_fs, files_persist.
  destruct (Os.mkdir_parents u p (fs w)) as [e | f'] eqn:E; simpl; [reflexivity |].
  eapply PersistFacts.mkdir_parents_persists; eassumption.
Qed.

Lemma files_persist_append u p bytes :
  evolves files_persist (on_fs (Os.append u p bytes)).
Proof.
  intros w. unfold on_fs, files_persist.
  destruct (Os.append u p bytes (fs w)) as [e | f'] eqn:E; simpl; [reflexivity |].
  eapply PersistFacts.append_persists; eassumption.
Qed.

Ltac persist_step :=
  lazymatch goal with
  | |- evolves _ (bind _ _) => apply evolves_bind; [typeclasses eauto | | intros ?]
  | |- evolves _ (try_except _ _) =>
      apply evolves_try_except; [typeclasses eauto | | intros ?]
  | |- evolves _ (ret _) => apply evolves_ret; typeclasses eauto
  | |- evolves _ (raise _) => apply evolves_raise; typeclasses eauto
  | |- evolves _ (liftW _) => apply files_persist_liftW
  | |- evolves _ (on_fs (Os.mkdir_parents _ _)) => apply files_persist_mkdir_parents
  | |- evolves _ (on_fs (Os.append _ _ _)) => apply files_persist_append
  | |- evolves _ (if ?b then _ else _) => destruct b
  | |- evolves _ (match ?x with _ => _ end) => destruct x
  end.

Ltac persist_auto :=
  repeat persist_step;
  try solve [apply files_persist_of_keeps; keeps_prim
            | apply files_persist_in_frame_of_keeps; keeps_prim].

Section DryRunFiles.
Variable env : Env.
Variable s : Settings.t.
Variable args : Args.t.
Variables sent_dir log_path : Path.
Hypothesis Hdry : Args.dry_run args = true.

Lemma files_persist_write_jsonl p obj : evolves files_persist (write_jsonl env p obj).
Proof. unfold write_jsonl. persist_auto. Qed.

Lemma files_persist_post_action_dry f :
  evolves files_persist (post_action env args sent_dir f).
Proof. unfold post_action. rewrite Hdry. persist_auto. Qed.

Lemma files_persist_loop_body_dry f :
  evolves files_persist_in_frame (loop_body env s args sent_dir log_path f).
Proof.
  unfold loop_body, try_body, except_clause, utc_iso, sha256_file.
  unfold remote_file_exists, scp_upload, run_cmd. rewrite Hdry.
  persist_auto;
    first [apply files_persist_write_jsonl | apply files_persist_post_action_dry].
Qed.

Lemma files_persist_for_files_dry files :
  evolves files_persist_in_frame (for_files env s args sent_dir log_path files).
Proof.
  induction files as [| f rest IH]; simpl.
  - apply evolves_ret. typeclasses eauto.
  - apply evolves_bind; [typeclasses eauto | | intros _; exact IH].
    apply files_persist_loop_body_dry.
Qed.

Lemma files_persist_run_loop_dry files :
  evolves files_persist (run_loop env s args sent_dir log_path files).
Proof.
  intros w. unfold run_loop.
  pose proof (files_persist_for_files_dry files (mkFrame w Entry.unbound 0 0 0)) as H.
  destruct (for_files _ _ _ _ _ _ _) as [fr [e | u]]; exact H.
Qed.

End DryRunFiles.

(** In a dry run every file and directory that was there stays, with its
    bytes; only appending (to the log) can change a file. *)
Lemma dry_run_keeps_the_files env s args :
  Args.dry_run args = true -> evolves files_persist (main env s args).
Proof.
  intros Hdry. unfold main, validate_env, make_log_path, ensure_remote_dir, run_cmd,
    iter_files, glob_select, utc_iso.
  rewrite Hdry. persist_auto;
    first [apply files_persist_write_jsonl
          | apply files_persist_run_loop_dry; exact Hdry].
Qed.

Section Archive.
Variable env : Env.
Variable args : Args.t.
Variables sent_dir f : Path.
Hypothesis Hdelete : Args.delete_after args = false.
Hypothesis Hkeep : Args.keep_local args = false.
Hypothesis Hdry : Args.dry_run args = false.

(** A free name in the archive: the file moves there under its name. *)
Lemma archive_moves_under_own_name w f1 :
  Os.mkdir_parents (umask env) sent_dir (fs w) = inr f1 ->
  Os.exists_ f1 (Pathlib.path_join sent_dir (Pathlib.name f)) = false ->
  post_action env args sent_dir f w
  = on_fs (Os.shutil_move f (Pathlib.path_join sent_dir (Pathlib.name f)))
      (with_fs f1 w).
Proof.
  intros Hmk Hfree. unfold post_action. rewrite Hdelete, Hkeep, Hdry. simpl.
  unfold bind at 1. unfold on_fs at 1. rewrite Hmk.
  unfold bind, query_fs, ret. simpl. rewrite Hfree. reflexivity.
Qed.

(** A taken name: the clock is read and the file moves to the stamped
    name, whatever is there. *)
Lemma archive_renames_on_collision w f1 :
  Os.mkdir_parents (umask env) sent_dir (fs w) = inr f1 ->
  Os.exists_ f1 (Pathlib.path_join sent_dir (Pathlib.name f)) = true ->
  post_action env args sent_dir f w
  = on_fs (Os.shutil_move f (stamped_target env sent_dir f w))
      (with_clock_reads (S (clock_reads w)) (with_fs f1 w)).
Proof.
  intros Hmk Htaken. unfold post_action. rewrite Hdelete, Hkeep, Hdry. simpl.
  unfold bind at 1. unfold on_fs at 1. rewrite Hmk.
  unfold bind, query_fs, ret, read_clock. simpl. rewrite Htaken. reflexivity.
Qed.

(** When the stamped name is itself taken by a regular file, that file is
    replaced: nothing checks the stamped name. *)
Lemma archive_replaces_stamped_namesake w f1 node mode data :
  Os.mkdir_parents (umask env) sent_dir (fs w) = inr f1 ->
  Os.exists_ f1 (Pathlib.path_join sent_dir (Pathlib.name f)) = true ->
  Os.node_at f1 f = Some node ->
  Os.node_at f1 (stamped_target env sent_dir f w) = Some (File mode data) ->
  post_action env args sent_dir f w
  = (with_clock_reads (S (clock_reads w))
       (with_fs (<[stamped_target env sent_dir f w := node]> (delete f f1)) w), inr tt).
Proof.
  intros Hmk Htaken Hsrc Hdst.
  rewrite (archive_renames_on_collision w f1 Hmk Htaken).
  unfold on_fs, Os.shutil_move, Os.is_dir, Os.rename. simpl.
  rewrite Hdst, Hsrc. reflexivity.
Qed.

End Archive.

(** ** Steps of main *)

Lemma bind_inr {S A B} (m : M S A) (k : A -> M S B) s s1 a :
  m s = (s1, inr a) -> bind m k s = k a s1.
Proof. intros H. unfold bind. rewrite H. reflexivity. Qed.

Lemma bind_inl {S A B} (m : M S A) (k : A -> M S B) s s1 e :
  m s = (s1, inl e) -> bind m k s = (s1, inl e).
Proof. intros H. unfold bind. rewrite H. reflexivity. Qed.

Section RemoteSteps.
Variable env : Env.
Variable s : Settings.t.

(** [run_cmd] outside a dry run, when the process can be started. *)
Lemma run_cmd_inr cmd w code :
  spawn env (executed w) (fs w) cmd = inr code ->
  run_cmd env cmd false w
  = (with_executed (executed w ++ [cmd])
       (with_stdout (stdout w ++ [">> " +:+ Pathlib.join " " cmd]) w), inr code).
Proof.
  intros H. unfold run_cmd, bind, print, subprocess_call. simpl. rewrite H.
  reflexivity.
Qed.

Lemma run_cmd_inl cmd w e :
  spawn env (executed w) (fs w) cmd = inl e ->
  run_cmd env cmd false w
  = (with_stdout (stdout w ++ [">> " +:+ Pathlib.join " " cmd]) w, inl e).
Proof.
  intros H. unfold run_cmd, bind, print, subprocess_call. simpl. rewrite H.
  reflexivity.
Qed.

Lemma run_cmd_dry cmd w :
  run_cmd env cmd true w
  = (with_stdout (stdout w ++ [">> " +:+ Pathlib.join " " cmd]) w, inr 0%Z).
Proof. reflexivity. Qed.

Lemma ensure_remote_dir_refused w code :
  spawn env (executed w) (fs w) (mkdir_command s) = inr code ->
  code <> 0%Z ->
  ensure_remote_dir env s false w
  = (with_executed (executed w ++ [mkdir_command s])
       (with_stdout (stdout w ++ [">> " +:+ Pathlib.join " " (mkdir_command s)]) w),
     inl (mkExn RuntimeError
            ("Falha ao criar/verificar pasta remota (exit=" +:+ pretty code
             +:+ ")."))).
Proof.
  intros H Hcode. unfold ensure_remote_dir. fold (mkdir_command s).
  erewrite bind_inr by (apply run_cmd_inr; exact H).
  destruct (Z.eqb_spec code 0) as [-> | _]; [congruence | reflexivity].
Qed.

Lemma ensure_remote_dir_accepted w :
  spawn env (executed w) (fs w) (mkdir_command s) = inr 0%Z ->
  ensure_remote_dir env s false w
  = (with_executed (executed w ++ [mkdir_command s])
       (with_stdout (stdout w ++ [">> " +:+ Pathlib.join " " (mkdir_command s)]) w),
     inr tt).
Proof.
  intros H. unfold ensure_remote_dir. fold (mkdir_command s).
  erewrite bind_inr by (apply run_cmd_inr; exact H). reflexivity.
Qed.

End RemoteSteps.

(** The start of [main], up to the point where the remote directory is
    ensured. *)
Lemma main_prologue env s args w w1 :
  validate_env env s w = (w1, inr tt) ->
  local_dir_valid env args (fs w) = true ->
  main env s args w
  = (ensure_remote_dir env s (Args.dry_run args) ;;;
     let* files := iter_files (resolve_arg env (Args.local_dir args))
                     (Args.pattern args) (Args.recursive args) in
     match files with
     | [] =>
         print "Nenhum arquivo encontrado." ;;;
         let* now := utc_iso env in
         write_jsonl env
           (Pathlib.path_join (resolve_arg env (Args.logs_dir args))
              ("upload_" +:+ strftime_now env (clock_reads w1) +:+ ".jsonl"))
           (NoFilesRecord
              (NoFiles.mk now "run_end" "no_files"
                 (Pathlib.path_str (resolve_arg env (Args.local_dir args)))
                 (Args.pattern args))) ;;;
         ret 0%Z
     | _ =>
         let* fr := run_loop env s args (resolve_arg env (Args.sent_dir args))
                      (Pathlib.path_join (resolve_arg env (Args.logs_dir args))
                         ("upload_" +:+ strftime_now env (clock_reads w1) +:+ ".jsonl"))
                      files in
         let* now := utc_iso env in
         write_jsonl env
           (Pathlib.path_join (resolve_arg env (Args.logs_dir args))
              ("upload_" +:+ strftime_now env (clock_reads w1) +:+ ".jsonl"))
           (SummaryRecord
              (Summary.mk now "run_end"
                 (if Z.eqb (fail fr) 0 then "ok" else "partial_fail")
                 (Pathlib.path_str (resolve_arg env (Args.local_dir args)))
                 (Settings.remote_dir s)
                 (Args.pattern args) (Args.recursive args) (Args.overwrite args)
                 (Args.keep_local args) (Args.delete_after args) (Args.dry_run args)
                 (Z.of_nat (length files)) (ok fr) (skipped fr) (fail fr)
                 (Pathlib.path_str
                    (Pathlib.path_join (resolve_arg env (Args.logs_dir args))
                       ("upload_" +:+ strftime_now env (clock_reads w1)
                        +:+ ".jsonl"))))) ;;;
         print (newline +:+ "Resumo:") ;;;
         print ("  total:    " +:+ pretty (Z.of_nat (length files))) ;;;
         print ("  enviados:  " +:+ pretty (ok fr)) ;;;
         print ("  pulados:   " +:+ pretty (skipped fr)) ;;;
         print ("  falhas:    " +:+ pretty (fail fr)) ;;;
         print ("  log:       "
                +:+ Pathlib.path_str
                      (Pathlib.path_join (resolve_arg env (Args.logs_dir args))
                         ("upload_" +:+ strftime_now env (clock_reads w1)
                          +:+ ".jsonl"))) ;;;
         ret (if Z.eqb (fail fr) 0 then 0%Z else 1%Z)
     end) (with_clock_reads (S (clock_reads w1)) w1).
Proof.
  intros Hval Hvalid.
  pose proof (keeps_run _ _ _ _ _ (keeps_validate_env_fs env s) Hval) as Hfs.
  unfold main. erewrite bind_inr by exact Hval.
  erewrite bind_inr by (unfold query_fs; reflexivity).
  unfold local_dir_valid in Hvalid. rewrite Hfs, Hvalid. cbn [negb].
  erewrite bind_inr by (unfold make_log_path, bind, read_clock, ret; reflexivity).
  reflexivity.
Qed.

(** ** Paths and patterns *)

Module DiscoveryFacts.
Import Pathlib.

Lemma relative_to_app base : forall p rel,
  relative_to base p = Some rel -> p = base ++ rel.
Proof.
  induction base as [| b base IH]; intros p rel; simpl.
  - intros [= ->]. reflexivity.
  - destruct p as [| c p]; [discriminate |].
    destruct (String.eqb_spec b c) as [-> | Hne]; [| discriminate].
    intros H. rewrite (IH _ _ H). reflexivity.
Qed.

Lemma relative_to_prefix base rel : relative_to base (base ++ rel) = Some rel.
Proof.
  induction base as [| b base IH]; simpl; [reflexivity |].
  rewrite String.eqb_refl. exact IH.
Qed.





Lemma elem_of_keys (f : FS) (p : Path) :
  In p (map fst (map_to_list f)) <-> is_Some (f !! p).
Proof.
  rewrite in_map_iff. split.
  - intros ([q x] & <- & Hin). apply list_elem_of_In, elem_of_map_to_list in Hin.
    simpl. eauto.
  - intros [x Hx]. exists (p, x). split; [reflexivity |].
    apply list_elem_of_In, elem_of_map_to_list. exact Hx.
Qed.

Lemma is_file_key (f : FS) (p : Path) : Os.is_file f p = true -> is_Some (f !! p).
Proof.
  unfold Os.is_file, Os.node_at. destruct p; [discriminate |].
  destruct (f !! (s :: p)); [eauto | discriminate].
Qed.

Lemma in_select_files (base : Path) (pats : list string) (f : FS) (p : Path) :
  In p (select_files base pats f)
  <-> Os.is_file f p = true
      /\ exists rel, p = base ++ rel /\ match_parts pats rel = true.
Proof.
  unfold select_files. rewrite filter_In, elem_of_keys. unfold selected.
  rewrite andb_true_iff. split.
  - intros (_ & Hfile & Hrel). split; [exact Hfile |].
    destruct (relative_to base p) as [rel |] eqn:E; [| discriminate].
    exists rel. split; [apply relative_to_app; exact E | exact Hrel].
  - intros (Hfile & rel & -> & Hrel).
    split; [apply is_file_key; exact Hfile |]. split; [exact Hfile |].
    rewrite relative_to_prefix. exact Hrel.
Qed.

Lemma NoDup_select_files (base : Path) (pats : list string) (f : FS) : List.NoDup (select_files base pats f).
Proof.
  unfold select_files. apply List.NoDup_filter.
  apply NoDup_ListNoDup, NoDup_fst_map_to_list.
Qed.

Lemma in_discovered (env : Env) (args : Args.t) (f : FS) (p : Path) :
  In p (discovered env args f) ->
  Os.is_file f p = true
  /\ exists rel, p = resolve_arg env (Args.local_dir args) ++ rel
                 /\ match_parts (pattern_parts args) rel = true.
Proof.
  unfold discovered. destruct (ends_with_slash (Args.pattern args)); [intros [] |].
  apply in_select_files.
Qed.


Lemma iter_files_inr base pattern recursive w w' files :
  iter_files base pattern recursive w = (w', inr files) ->
  w' = w
  /\ files = (if ends_with_slash pattern then []
              else select_files base
                     ((if recursive then ["**"] else []) ++ parts (parse pattern))
                     (fs w)).
Proof.
  unfold iter_files, glob_select, raise.
  repeat case_match; intros [= <- <-]; split; try reflexivity;
    simpl; congruence.
Qed.



Lemma nonempty_pattern pattern pat :
  parse pattern = PP EmptyString [pat] -> String.eqb pattern EmptyString = false.
Proof. destruct pattern; [discriminate | reflexivity]. Qed.






End DiscoveryFacts.

Module ExpandFacts.


End ExpandFacts.

(** * The claims *)

Import Scenario.

(** C1, as stated, fails: with a regular file where the directory of
    the logs should be, the transfer of the first file is refused and the
    exception is caught, but the write of the record, which follows the
    [try] statement, raises in its turn: [main] raises, the two other files
    are not processed and the log has no record of the failure. *)
Lemma per_file_exception_counterexample :
  let run := main refusing_host settings plain (initial_world blocked_logs) in
  snd (iter_files local_dir "*" false (initial_world blocked_logs))
  = inr [c_csv; local_dir ++ ["b.csv"]; a_csv]
  /\ spawn refusing_host
       [mkdir_command settings; probe_command settings "/inputs/c.csv"]
       blocked_logs (scp_command settings c_csv "/inputs/c.csv") = inr 1%Z
  /\ snd run = inl (mkExn FileExistsError "[Errno 17] File exists: '/srv/app/logs'")
  /\ journal (fst run) = []
  /\ executed (fst run)
     = [ mkdir_command settings; probe_command settings "/inputs/c.csv";
         scp_command settings c_csv "/inputs/c.csv" ].
Proof. vm_compute. repeat split; reflexivity. Qed.

(** C1, as amended.  Once an iteration has reached its [try] block,
    whatever exception the block raises, be it from the digest, the probe,
    the transfer or the local delete or move, is caught: the record of the
    file gets the status "failed" and the message of the exception as its
    error.  The write of the record follows the [try] statement and is not
    protected.  When it succeeds, the iteration ends normally, the record
    is in the log and the loop goes on with the remaining files; when it
    raises, the exception leaves the loop and the log has no record of the
    file. *)
Theorem per_file_exception_is_caught
  (env : Env) (s : Settings.t) (args : Args.t) (sent_dir log_path : Path)
  (f : Path) (rest : list Path) (fr fr2 : Frame) (size : Z) (e : Exn) :
  Os.st_size (fs (world fr)) f = inr size ->
  try_body env s args sent_dir log_path f (remote_path_of s f)
    (try_frame env s f size fr) = (fr2, inl e) ->
  Entry.status (mark_failed e (entry fr2)) = Some "failed"
  /\ Entry.error (mark_failed e (entry fr2)) = Some (exn_str e)
  /\ Entry.local_path (mark_failed e (entry fr2)) = Pathlib.path_str f
  /\ forall (w3 : World) (r : Exn + unit),
       write_jsonl env log_path (FileRecord (mark_failed e (entry fr2))) (world fr2)
       = (w3, r) ->
       loop_body env s args sent_dir log_path f fr
       = (mkFrame w3 (mark_failed e (entry fr2)) (ok fr2) (skipped fr2) (fail fr2 + 1),
          r)
       /\ match r with
          | inr _ =>
              for_files env s args sent_dir log_path (f :: rest) fr
              = for_files env s args sent_dir log_path rest
                  (mkFrame w3 (mark_failed e (entry fr2)) (ok fr2) (skipped fr2)
                     (fail fr2 + 1))
              /\ journal w3
                 = journal (world fr)
                   ++ [(log_path, FileRecord (mark_failed e (entry fr2)))]
          | inl e' =>
              for_files env s args sent_dir log_path (f :: rest) fr
              = (mkFrame w3 (mark_failed e (entry fr2)) (ok fr2) (skipped fr2)
                   (fail fr2 + 1), inl e')
              /\ journal w3 = journal (world fr)
          end.
Proof.
  intros Hsize Hbody.
  pose proof (try_body_spec _ _ _ _ _ _ _ _ _ _ Hbody) as (Hlp & _ & _ & Hj & _).
  split; [reflexivity |]. split; [reflexivity |].
  split; [simpl; exact Hlp |].
  intros w3 r Hwrite.
  set (fr3 := mkFrame w3 _ _ _ _).
  assert (Hloop : loop_body env s args sent_dir log_path f fr = (fr3, r)).
  { unfold loop_body, bind, liftW, utc_iso, read_clock, query_fs, assign_entry,
      try_except. simpl. rewrite Hsize.
    unfold try_frame in Hbody. rewrite Hbody.
    unfold except_clause, bind, update_entry, incr_fail, read_entry, ret, liftW.
    simpl. unfold mark_failed in Hwrite. rewrite Hwrite.
    destruct r as [e' | []]; reflexivity. }
  split; [exact Hloop |].
  destruct r as [e' | u].
  - split; [simpl; unfold bind at 1; rewrite Hloop; reflexivity |].
    apply write_jsonl_inl in Hwrite as (Hj3 & _). rewrite Hj3, Hj. reflexivity.
  - split; [simpl; unfold bind at 1; rewrite Hloop; reflexivity |].
    apply write_jsonl_inr in Hwrite as (Hj3 & _). rewrite Hj3, Hj. reflexivity.
Qed.

Lemma per_file_exception_is_caught_witness :
  (Os.st_size three_files c_csv = inr 5%Z
   /\ snd (try_body mixed_host settings plain sent_dir log_path c_csv
             (remote_path_of settings c_csv)
             (try_frame mixed_host settings c_csv 5 (loop_start three_files)))
      = inl scp_refused)
  /\ snd (loop_body mixed_host settings plain sent_dir log_path c_csv
            (loop_start three_files)) = inr tt
  /\ for_files mixed_host settings plain sent_dir log_path [c_csv; a_csv]
       (loop_start three_files)
     = for_files mixed_host settings plain sent_dir log_path [a_csv]
         (fst (loop_body mixed_host settings plain sent_dir log_path c_csv
                 (loop_start three_files)))
  /\ Entry.error (mark_failed scp_refused (entry refused_frame))
     = Some "SCP falhou (exit=1).".
Proof.
  pose proof (per_file_exception_is_caught mixed_host settings plain sent_dir log_path
                c_csv [a_csv] (loop_start three_files) refused_frame 5 scp_refused)
    as H.
  assert (H1 : Os.st_size (fs (world (loop_start three_files))) c_csv = inr 5%Z)
    by (vm_compute; reflexivity).
  assert (H2 : try_body mixed_host settings plain sent_dir log_path c_csv
                 (remote_path_of settings c_csv)
                 (try_frame mixed_host settings c_csv 5 (loop_start three_files))
               = (refused_frame, inl scp_refused))
    by (vm_compute; reflexivity).
  assert (H3 : write_jsonl mixed_host log_path
                 (FileRecord (mark_failed scp_refused (entry refused_frame)))
                 (world refused_frame)
               = (fst (write_jsonl mixed_host log_path
                         (FileRecord (mark_failed scp_refused (entry refused_frame)))
                         (world refused_frame)), inr tt))
    by (vm_compute; reflexivity).
  destruct (H H1 H2) as (_ & Herr & _ & Hwrite).
  destruct (Hwrite _ _ H3) as (Hloop & Hfor & _).
  split; [split; [exact H1 | rewrite H2; reflexivity] |].
  split; [rewrite Hloop; reflexivity |].
  split; [rewrite Hfor, Hloop; reflexivity | exact Herr].
Defined.

(** C2.  A dry run that archives (neither [--delete-after] nor
    [--keep-local]) on a tree without [sent/]: the run ends with status 0 and
    the directory [sent/] has been created, although nothing was to be
    touched besides the log.  [dry_run_keeps_the_files] and
    [keeps_main_executed_dry] show what a dry run does respect. *)
Theorem dry_run_creates_the_archive_directory :
  Args.dry_run dry = true
  /\ Os.exists_ three_files sent_dir = false
  /\ snd (result_of open_host dry three_files) = inr 0%Z
  /\ Os.is_dir (fs (fst (result_of open_host dry three_files))) sent_dir = true.
Proof. vm_compute. repeat split; reflexivity. Qed.

(** C3.  A recursive run with [--overwrite] over two files named [a.csv],
    when [sent/a.csv] exists from an earlier run and both moves happen
    within one second: both files are reported as uploaded, both are moved
    to the same stamped name, and the bytes of the one moved first are in no
    file afterwards.  [archive_replaces_stamped_namesake] is the general
    step. *)
Theorem archive_collision_overwrites :
  holders "south" namesakes_after_a_run = [south_a]
  /\ holders "north" namesakes_after_a_run = [north_a]
  /\ snd (result_of open_host recursive_overwrite namesakes_after_a_run) = inr 0%Z
  /\ count_status "uploaded"
       (journal (fst (result_of open_host recursive_overwrite namesakes_after_a_run)))
     = 2%Z
  /\ holders "north"
       (fs (fst (result_of open_host recursive_overwrite namesakes_after_a_run)))
     = [sent_dir ++ ["a_20240101_120000.csv"]]
  /\ holders "south"
       (fs (fst (result_of open_host recursive_overwrite namesakes_after_a_run)))
     = [].
Proof. vm_compute. repeat split; reflexivity. Qed.

(** C4, as stated, fails: a host that cannot be reached ([ssh] exits
    with 255) and a reachable host without the file ([test -f] exits with 1)
    give the same answer, [False], and the same state. *)
Lemma probe_outcomes_counterexample :
  remote_file_exists lost_host settings "/inputs/a.csv" false (initial_world project)
  = remote_file_exists open_host settings "/inputs/a.csv" false (initial_world project)
  /\ snd (remote_file_exists lost_host settings "/inputs/a.csv" false
            (initial_world project)) = inr false
  /\ spawn lost_host [] project (ssh_cmd settings "test -f '/inputs/a.csv'") = inr 255%Z
  /\ spawn open_host [] project (ssh_cmd settings "test -f '/inputs/a.csv'") = inr 1%Z.
Proof. vm_compute. repeat split; reflexivity. Qed.

(** C4, as amended.  Outside a dry run the probe prints and runs one
    [ssh ... test -f] command and answers with a boolean, true exactly when
    the exit status is 0: every other status, whatever its cause, reads
    "does not exist".  Only a command that cannot be started at all is
    told apart: its exception leaves the probe. *)
Theorem remote_file_exists_reports_exit_status
  (env : Env) (s : Settings.t) (remote_path : string) (w : World) :
  let cmd := ssh_cmd s ("test -f '" +:+ remote_path +:+ "'") in
  let w1 := with_stdout (stdout w ++ [">> " +:+ Pathlib.join " " cmd]) w in
  remote_file_exists env s remote_path false w
  = match spawn env (executed w) (fs w) cmd with
    | inr code => (with_executed (executed w ++ [cmd]) w1, inr (Z.eqb code 0))
    | inl e => (w1, inl e)
    end.
Proof.
  unfold remote_file_exists, run_cmd, bind, print, subprocess_call, ret. simpl.
  destruct (spawn env _ _ _); reflexivity.
Qed.

(** C5.  In a run that reaches its closing record (the local directory
    is valid and [main] returns), the journal grows by one final record per
    file found, in the order of the files, followed by the closing record.
    With no file, that record has the status "no_files".  Otherwise it is
    the summary: its status is "ok" exactly when no file record is "failed"
    and "partial_fail" exactly when one is; its three counters are the
    numbers of file records of each status, and they add up to its total,
    the number of files found. *)
Theorem summary_counts_partition_the_files
  (env : Env) (s : Settings.t) (args : Args.t) (w w' : World) (code : Z) :
  main env s args w = (w', inr code) ->
  local_dir_valid env args (fs w) = true ->
  exists (files : list Path) (log_path : Path)
         (recs : list (Path * LogRecord)) (last : LogRecord),
    iter_files (resolve_arg env (Args.local_dir args)) (Args.pattern args)
      (Args.recursive args) w = (w, inr files)
    /\ journal w' = journal w ++ recs ++ [(log_path, last)]
    /\ Forall (final_file_record log_path) recs
    /\ map record_paths recs
       = map (fun f => (Pathlib.path_str f, remote_path_of s f)) files
    /\ match last with
       | FileRecord _ => False
       | NoFilesRecord n => files = [] /\ NoFiles.status n = "no_files"
       | SummaryRecord sm =>
           files <> []
           /\ (Summary.status sm = "ok" <-> count_status "failed" recs = 0%Z)
           /\ (Summary.status sm = "partial_fail" <-> count_status "failed" recs <> 0%Z)
           /\ Summary.count_uploaded sm = count_status "uploaded" recs
           /\ Summary.count_skipped sm = count_status "skipped_remote_exists" recs
           /\ Summary.count_failed sm = count_status "failed" recs
           /\ Summary.count_total sm = Z.of_nat (length files)
           /\ (Summary.count_uploaded sm + Summary.count_skipped sm
               + Summary.count_failed sm)%Z = Summary.count_total sm
       end.
Proof.
  intros Hmain Hvalid. apply main_spec in Hmain. rewrite Hvalid in Hmain.
  destruct Hmain as (log_path & recs & tail & Hj & Hfin & _ & files & last
                     & Hfiles & -> & Hmap & Hclose).
  exists files, log_path, recs, last. repeat (split; [assumption |]).
  destruct last as [e | n | sm]; simpl in Hclose; [exact Hclose | tauto |].
  destruct Hclose as (Hne & Hst & Htot & Hu & Hs & Hf & _).
  assert (Hlen : length recs = length files).
  { rewrite <- (length_map record_paths recs), Hmap, length_map. reflexivity. }
  pose proof (final_records_partition _ _ Hfin) as Hsum.
  rewrite Hst. repeat split; try assumption.
  - destruct (Z.eqb_spec (count_status "failed" recs) 0); [auto | discriminate].
  - intros ->. reflexivity.
  - destruct (Z.eqb_spec (count_status "failed" recs) 0); [discriminate | auto].
  - intros Hnz. destruct (Z.eqb_spec (count_status "failed" recs) 0); [lia | reflexivity].
  - rewrite Hu, Hs, Hf, Htot, Hsum, Hlen. reflexivity.
Qed.

Lemma summary_counts_partition_the_files_witness :
  (snd (result_of mixed_host plain three_files) = inr 1%Z
   /\ local_dir_valid mixed_host plain three_files = true)
  /\ exists (files : list Path) log_path recs sm,
       length files = 3%nat
       /\ journal (fst (result_of mixed_host plain three_files))
          = recs ++ [(log_path, SummaryRecord sm)]
       /\ Summary.status sm = "partial_fail"
       /\ (Summary.count_uploaded sm + Summary.count_skipped sm
           + Summary.count_failed sm)%Z = Summary.count_total sm
       /\ Summary.count_total sm = Z.of_nat (length files).
Proof.
  assert (H1 : main mixed_host settings plain (initial_world three_files)
               = (fst (result_of mixed_host plain three_files), inr 1%Z))
    by (vm_compute; reflexivity).
  assert (H2 : local_dir_valid mixed_host plain (fs (initial_world three_files)) = true)
    by (vm_compute; reflexivity).
  destruct (summary_counts_partition_the_files _ _ _ _ _ _ H1 H2)
    as (files & log_path & recs & last & Hfiles & Hj & _ & _ & Hlast).
  split; [split; [unfold result_of; rewrite H1; reflexivity | exact H2] |].
  assert (Hlen : length files = 3%nat).
  { vm_compute in Hfiles. injection Hfiles as <-. reflexivity. }
  destruct last as [e | n | sm].
  - destruct Hlast.
  - destruct Hlast as [-> _]. discriminate Hlen.
  - destruct Hlast as (_ & _ & Hpf & _ & _ & Hf & Htot & Hsum).
    exists files, log_path, recs, sm.
    split; [exact Hlen |]. split; [exact Hj |].
    split; [| split; [exact Hsum | exact Htot]].
    apply Hpf. rewrite <- Hf.
    assert (Hlast : last (journal (fst (result_of mixed_host plain three_files)))
                    = Some (log_path, SummaryRecord sm))
      by (rewrite Hj; apply last_snoc).
    vm_compute in Hlast. injection Hlast as _ <-. discriminate.
Defined.

(** C6, as stated, fails: when the remote directory cannot be ensured
    [main] raises, so the process ends with status 1 although the local
    directory is valid and no file has failed. *)
Lemma exit_code_counterexample :
  local_dir_valid lost_host plain three_files = true
  /\ count_status "failed" (journal (fst (result_of lost_host plain three_files))) = 0%Z
  /\ exit_status (snd (result_of lost_host plain three_files)) = 1%Z
  /\ snd (result_of lost_host plain three_files)
     = inl (mkExn RuntimeError "Falha ao criar/verificar pasta remota (exit=255).").
Proof. vm_compute. repeat split; reflexivity. Qed.

(** C6, as amended.  When [main] returns, the process ends with the
    value returned: 2 when the local directory is missing or not a
    directory, and then neither the files, nor the journal, nor the list of
    executed commands has changed; otherwise 0 when no record written by the
    run is "failed" and 1 when one is.  When [main] raises, the process
    ends with status 1, and with an invalid local directory this only
    happens when [validate_env] itself raises. *)
Theorem exit_code_of_a_run
  (env : Env) (s : Settings.t) (args : Args.t) (w w' : World) (r : Exn + Z) :
  main env s args w = (w', r) ->
  match r with
  | inr code =>
      exit_status r = code
      /\ if local_dir_valid env args (fs w) then
           exists recs, journal w' = journal w ++ recs
             /\ ((code = 0%Z /\ count_status "failed" recs = 0%Z)
                 \/ (code = 1%Z /\ (0 < count_status "failed" recs)%Z))
         else
           code = 2%Z /\ journal w' = journal w /\ fs w' = fs w
           /\ executed w' = executed w
  | inl e =>
      exit_status r = 1%Z
      /\ (local_dir_valid env args (fs w) = false ->
          validate_env env s w = (w', inl e))
  end.
Proof.
  intros Hmain. destruct r as [e | code].
  - split; [reflexivity |]. intros Hinvalid. revert Hmain.
    unfold main, bind. destruct (validate_env env s w) as [w1 [e1 | u]] eqn:Hval.
    + intros [= <- <-]. reflexivity.
    + unfold query_fs. unfold local_dir_valid in Hinvalid.
      rewrite (keeps_run _ _ _ _ _ (keeps_validate_env_fs env s) Hval), Hinvalid.
      simpl. discriminate.
  - split; [reflexivity |]. apply main_spec in Hmain.
    destruct (local_dir_valid env args (fs w)); [| tauto].
    destruct Hmain as (log_path & recs & tail & Hj & Hfin & _ & files & last
                       & _ & -> & _ & Hclose).
    exists (recs ++ [(log_path, last)]). split; [exact Hj |].
    rewrite count_status_app.
    assert (Hlast : count_status "failed" [(log_path, last)] = 0%Z).
    { destruct last; [destruct Hclose | reflexivity | reflexivity]. }
    rewrite Hlast, Z.add_0_r.
    destruct last as [e | n | sm]; simpl in Hclose; [tauto | |].
    + destruct Hclose as (_ & -> & _ & ->). left. split; reflexivity.
    + destruct Hclose as (_ & _ & _ & _ & _ & _ & ->).
      destruct (Z.eqb_spec (count_status "failed" recs) 0); [left; auto | right].
      split; [reflexivity |]. unfold count_status in *. lia.
Qed.

Lemma exit_code_of_a_run_witness :
  snd (result_of mixed_host plain three_files) = inr 1%Z
  /\ exit_status (snd (result_of mixed_host plain three_files)) = 1%Z
  /\ exists recs,
       journal (fst (result_of mixed_host plain three_files)) = recs
       /\ (0 < count_status "failed" recs)%Z.
Proof.
  assert (H1 : main mixed_host settings plain (initial_world three_files)
               = (fst (result_of mixed_host plain three_files), inr 1%Z))
    by (vm_compute; reflexivity).
  pose proof (exit_code_of_a_run _ _ _ _ _ _ H1) as (Hx & H).
  assert (H2 : local_dir_valid mixed_host plain (fs (initial_world three_files)) = true)
    by (vm_compute; reflexivity).
  rewrite H2 in H. destruct H as (recs & Hj & [[[=] _] | [_ Hfailed]]).
  split; [unfold result_of; rewrite H1; reflexivity |].
  split; [unfold result_of; rewrite H1; exact Hx |].
  exists recs. split; [exact Hj | exact Hfailed].
Defined.

(** C7.  With [--delete-after], whatever [--keep-local] says, the action
    after a transfer is the deletion: outside a dry run the file is unlinked
    and nothing else changes (no archive directory, no move); in a dry run
    the deletion is announced instead. *)
Theorem delete_after_takes_precedence
  (env : Env) (args : Args.t) (sent_dir f : Path) (w : World) :
  Args.delete_after args = true ->
  post_action env args sent_dir f w
  = (if Args.dry_run args
     then print (":: (dry) deletaria: " +:+ Pathlib.path_str f) w
     else on_fs (Os.unlink f) w)
  /\ (forall mode data,
        Args.dry_run args = false ->
        Os.node_at (fs w) f = Some (File mode data) ->
        post_action env args sent_dir f w = (with_fs (delete f (fs w)) w, inr tt)).
Proof.
  intros Hdel. unfold post_action. rewrite Hdel. split.
  - destruct (Args.dry_run args); reflexivity.
  - intros mode data -> Hnode. unfold on_fs, Os.unlink. rewrite Hnode. reflexivity.
Qed.

Lemma delete_after_takes_precedence_witness :
  (Args.delete_after delete_and_keep = true
   /\ Args.keep_local delete_and_keep = true
   /\ Args.dry_run delete_and_keep = false
   /\ Os.node_at three_files a_csv = Some (text "alpha"))
  /\ post_action open_host delete_and_keep sent_dir a_csv (initial_world three_files)
     = (with_fs (delete a_csv three_files) (initial_world three_files), inr tt).
Proof.
  assert (H1 : Args.delete_after delete_and_keep = true) by reflexivity.
  assert (H2 : Args.dry_run delete_and_keep = false) by reflexivity.
  assert (H3 : Os.node_at (fs (initial_world three_files)) a_csv = Some (text "alpha"))
    by (vm_compute; reflexivity).
  split; [repeat split; assumption |].
  exact (proj2 (delete_after_takes_precedence open_host delete_and_keep sent_dir a_csv
                  (initial_world three_files) H1) _ _ H2 H3).
Defined.

(** C8.  In a dry run the probe answers [False] and leaves the state as
    it is: it neither prints nor starts a process.  Hence a dry run, however
    it ends, starts no process at all and writes no record with the status
    "skipped_remote_exists". *)
Theorem dry_run_probe_reports_absent
  (env : Env) (s : Settings.t) (args : Args.t) (w w' : World) (r : Exn + Z) :
  Args.dry_run args = true ->
  main env s args w = (w', r) ->
  (forall remote_path w0,
     remote_file_exists env s remote_path (Args.dry_run args) w0 = (w0, inr false))
  /\ executed w' = executed w
  /\ exists recs,
       journal w' = journal w ++ recs
       /\ Forall (fun x => file_status x <> Some "skipped_remote_exists") recs.
Proof.
  intros Hdry Hmain. split; [| split].
  - intros remote_path w0. rewrite Hdry. reflexivity.
  - exact (keeps_run _ _ _ _ _ (keeps_main_executed_dry env s args Hdry) Hmain).
  - apply main_spec in Hmain.
    destruct (local_dir_valid env args (fs w)).
    + destruct Hmain as (log_path & recs & tail & Hj & _ & Hskip & Htail).
      exists (recs ++ tail). split; [exact Hj |].
      apply Forall_app. split; [auto |].
      destruct r as [e | code].
      * subst tail. constructor.
      * destruct Htail as (files & last & _ & -> & _ & Hclose).
        constructor; [| constructor].
        destruct last; [destruct Hclose | discriminate | discriminate].
    + destruct Hmain as (Hj & _). exists []. rewrite app_nil_r. auto.
Qed.

Lemma dry_run_probe_reports_absent_witness :
  (Args.dry_run dry = true /\ snd (result_of open_host dry three_files) = inr 0%Z)
  /\ executed (fst (result_of open_host dry three_files)) = []
  /\ Forall (fun x => file_status x <> Some "skipped_remote_exists")
       (journal (fst (result_of open_host dry three_files))).
Proof.
  assert (H1 : Args.dry_run dry = true) by reflexivity.
  assert (H2 : main open_host settings dry (initial_world three_files)
               = (fst (result_of open_host dry three_files), inr 0%Z))
    by (vm_compute; reflexivity).
  destruct (dry_run_probe_reports_absent _ _ _ _ _ _ H1 H2)
    as (_ & Hx & recs & Hj & Hskip).
  split; [split; [exact H1 | unfold result_of; rewrite H2; reflexivity] |].
  split; [exact Hx |]. rewrite Hj. exact Hskip.
Defined.




(** C10.  The remote destination is the remote directory joined with the
    last component of the local path: two local files with the same base
    name have the same remote destination, wherever they lie. *)
Theorem remote_path_depends_on_base_name
  (s : Settings.t) (f g : Path) :
  Pathlib.name f = Pathlib.name g ->
  remote_path_of s f = remote_path_of s g
  /\ remote_path_of s f
     = Pathlib.render
         (Pathlib.joinpath (Pathlib.parse (Settings.remote_dir s)) (Pathlib.name g)).
Proof. intros Hname. unfold remote_path_of. rewrite Hname. auto. Qed.

Lemma remote_path_depends_on_base_name_witness :
  Pathlib.name north_a = Pathlib.name south_a
  /\ remote_path_of settings north_a = remote_path_of settings south_a
  /\ remote_path_of settings north_a = "/inputs/a.csv".
Proof.
  assert (H : Pathlib.name north_a = Pathlib.name south_a) by reflexivity.
  destruct (remote_path_depends_on_base_name settings north_a south_a H) as [H1 H2].
  split; [exact H |]. split; [exact H1 |]. rewrite H2. reflexivity.
Defined.

(** * Further properties *)

(** ** Discovery of the files *)

Import Scenario.

(** X1.  In a tree of directories and regular files and for a pattern without
    a '..' component: when iter_files returns a list, it has changed nothing,
    no path occurs twice in the list, and every path in it is a regular file
    of the tree that lies below the base directory (strictly below it when the
    base is a directory). *)
Theorem iter_files_yields_distinct_regular_files
  (base_dir : Path) (pattern : string) (recursive : bool) (w w' : World)
  (files : list Path) :
  ~ In ".." (Pathlib.parts (Pathlib.parse pattern)) ->
  iter_files base_dir pattern recursive w = (w', inr files) ->
  w' = w
  /\ List.NoDup files
  /\ forall p, In p files ->
       Os.is_file (fs w) p = true
       /\ exists rel, p = base_dir ++ rel
                      /\ (Os.is_dir (fs w) base_dir = true -> rel <> []).
Proof.
  intros Hup H. apply DiscoveryFacts.iter_files_inr in H as [-> ->].
  split; [reflexivity |].
  destruct (Pathlib.ends_with_slash pattern).
  { split; [constructor | intros p []]. }
  split; [apply DiscoveryFacts.NoDup_select_files |].
  intros p Hp.
  apply DiscoveryFacts.in_select_files in Hp as (Hfile & rel & -> & _).
  split; [exact Hfile |]. exists rel. split; [reflexivity |].
  intros Hdir ->. rewrite app_nil_r in Hfile.
  unfold Os.is_file, Os.is_dir in *.
  destruct (Os.node_at (fs w) base_dir) as [[m | m d] |]; discriminate.
Qed.

Lemma iter_files_yields_distinct_regular_files_witness :
  iter_files local_dir "*" true (initial_world namesakes)
  = (initial_world namesakes, inr [south_a; north_a])
  /\ List.NoDup [south_a; north_a]
  /\ Os.is_file namesakes south_a = true.
Proof.
  assert (Hup : ~ In ".." (Pathlib.parts (Pathlib.parse "*")))
    by (vm_compute; intros [H | []]; discriminate H).
  assert (H : iter_files local_dir "*" true (initial_world namesakes)
              = (initial_world namesakes, inr [south_a; north_a]))
    by (vm_compute; reflexivity).
  destruct (iter_files_yields_distinct_regular_files _ _ _ _ _ _ Hup H)
    as (_ & Hnd & Hin).
  split; [exact H |]. split; [exact Hnd |].
  exact (proj1 (Hin south_a (or_introl eq_refl))).
Defined.






(** ** Failures before the loop *)

Import Scenario.

(** X5.  When the path of the key can be expanded and resolved (expanduser
    does not raise) and no file is there, main raises FileNotFoundError('Chave
    não encontrada: <key>') before anything else happens: the state is
    untouched (nothing printed, no command run, no log created) and the
    process ends with status 1. *)
Theorem missing_key_stops_main_at_once
  (env : Env) (s : Settings.t) (args : Args.t) (w : World) (key : Path) :
  key_file env s = inr key ->
  Os.exists_ (fs w) key = false ->
  main env s args w
  = (w, inl (mkExn FileNotFoundError
               ("Chave não encontrada: " +:+ Pathlib.path_str key)))
  /\ exit_status (snd (main env s args w)) = 1%Z.
Proof.
  intros Hk Hkey.
  assert (H : main env s args w
              = (w, inl (mkExn FileNotFoundError
                           ("Chave não encontrada: " +:+ Pathlib.path_str key)))).
  { unfold main, bind at 1. unfold validate_env. unfold key_file in Hk.
    destruct (expanduser env (Pathlib.parse (Settings.key_path s)))
      as [e | expanded]; [discriminate |].
    injection Hk as Hk. rewrite Hk.
    unfold bind at 1. unfold query_fs. rewrite Hkey. reflexivity. }
  split; [exact H | rewrite H; reflexivity].
Qed.

Lemma missing_key_stops_main_at_once_witness :
  (key_file open_host settings = inr (key_pem)
   /\ Os.exists_ (delete (key_pem) three_files)
        (key_pem) = false)
  /\ snd (main open_host settings plain
            (initial_world (delete (key_pem) three_files)))
     = inl (mkExn FileNotFoundError "Chave não encontrada: /srv/app/key.pem").
Proof.
  assert (H0 : key_file open_host settings = inr (key_pem))
    by (vm_compute; reflexivity).
  assert (H : Os.exists_
                (fs (initial_world (delete (key_pem) three_files)))
                (key_pem) = false)
    by (vm_compute; reflexivity).
  split; [split; [exact H0 | exact H] |].
  rewrite (proj1 (missing_key_stops_main_at_once open_host settings plain _ _ H0 H)).
  reflexivity.
Defined.



(** X7.  Outside a dry run, when the remote 'mkdir -p' exits with a non-zero
    status, main raises RuntimeError('Falha ao criar/verificar pasta remota
    (exit=<code>).') having run only that command: no local file has changed,
    no log record has been written and no log file created. *)
Theorem failed_remote_mkdir_stops_main_without_a_log
  (env : Env) (s : Settings.t) (args : Args.t) (w w1 : World) (code : Z) :
  validate_env env s w = (w1, inr tt) ->
  local_dir_valid env args (fs w) = true ->
  Args.dry_run args = false ->
  spawn env (executed w) (fs w) (mkdir_command s) = inr code ->
  code <> 0%Z ->
  exists w',
    main env s args w
    = (w', inl (mkExn RuntimeError
                  ("Falha ao criar/verificar pasta remota (exit=" +:+ pretty code
                   +:+ ").")))
    /\ fs w' = fs w
    /\ journal w' = journal w
    /\ executed w' = executed w ++ [mkdir_command s].
Proof.
  intros Hval Hvalid Hdry Hspawn Hcode.
  pose proof (keeps_run _ _ _ _ _ (keeps_validate_env_fs env s) Hval) as Hfs.
  pose proof (keeps_run _ _ _ _ _ (keeps_validate_env_journal env s) Hval) as Hj.
  pose proof (keeps_run _ _ _ _ _ (keeps_validate_env_executed env s) Hval) as Hx.
  rewrite (main_prologue env s args w w1 Hval Hvalid), Hdry.
  eexists. split.
  - erewrite bind_inl; [reflexivity |].
    apply ensure_remote_dir_refused; [| exact Hcode].
    cbn. rewrite Hx, Hfs. exact Hspawn.
  - cbn. rewrite Hfs, Hj, Hx. auto.
Qed.

Lemma failed_remote_mkdir_stops_main_without_a_log_witness :
  (local_dir_valid lost_host plain three_files = true
   /\ spawn lost_host [] three_files (mkdir_command settings) = inr 255%Z)
  /\ snd (main lost_host settings plain (initial_world three_files))
     = inl (mkExn RuntimeError "Falha ao criar/verificar pasta remota (exit=255).")
  /\ fs (fst (main lost_host settings plain (initial_world three_files))) = three_files.
Proof.
  assert (H1 : validate_env lost_host settings (initial_world three_files)
               = (initial_world three_files, inr tt)) by (vm_compute; reflexivity).
  assert (H2 : local_dir_valid lost_host plain (fs (initial_world three_files)) = true)
    by (vm_compute; reflexivity).
  assert (H3 : Args.dry_run plain = false) by reflexivity.
  assert (H4 : spawn lost_host (executed (initial_world three_files))
                 (fs (initial_world three_files)) (mkdir_command settings)
               = inr 255%Z) by reflexivity.
  assert (H5 : 255%Z <> 0%Z) by discriminate.
  destruct (failed_remote_mkdir_stops_main_without_a_log _ _ _ _ _ _ H1 H2 H3 H4 H5)
    as (w' & Hmain & Hfs & _).
  split; [split; [exact H2 | exact H4] |].
  rewrite Hmain. split; [reflexivity | exact Hfs].
Defined.

(** ** The log *)

Import Scenario.

Module MkdirFacts.
Import Os OsFacts.

Lemma mkdir_frame u p f f' :
  mkdir u p f = inr f' ->
  node_at f p = None /\ forall q, q <> p -> node_at f' q = node_at f q.
Proof.
  unfold mkdir. destruct (node_at f p) eqn:Hp; [discriminate |].
  destruct (node_at f (Pathlib.parent p)) as [[m | m d] |]; try discriminate.
  intros [= <-]. split; [reflexivity |].
  intros q Hq. apply node_at_insert_ne. congruence.
Qed.

Lemma mkdir_exist_ok_frame u p f f' :
  mkdir_exist_ok u p f = inr f' -> forall q, q <> p -> node_at f' q = node_at f q.
Proof.
  unfold mkdir_exist_ok. destruct (mkdir u p f) as [e | f1] eqn:E.
  - destruct (exn_class e); try discriminate;
      (destruct (is_dir f p); [intros [= <-]; reflexivity | discriminate]).
  - intros [= <-]. apply (mkdir_frame _ _ _ _ E).
Qed.

(** [mkdir(parents=True)] touches nothing but the path and its ancestors. *)
Lemma mkdir_parents_rev_frame u rp : forall f f',
  mkdir_parents_rev u rp f = inr f' ->
  forall q, ~ q `prefix_of` rev rp -> node_at f' q = node_at f q.
Proof.
  induction rp as [| c rp IH]; intros f f'; cbn [mkdir_parents_rev]; cbv zeta.
  - destruct (mkdir u (rev []) f) as [e | f1] eqn:E.
    + destruct (exn_class e); try discriminate;
        (destruct (is_dir f (rev [])); [intros [= <-]; reflexivity | discriminate]).
    + intros [= <-] q Hq. apply (mkdir_frame _ _ _ _ E).
      intros ->. apply Hq. reflexivity.
  - destruct (mkdir u (rev (c :: rp)) f) as [e | f1] eqn:E.
    + destruct (exn_class e);
        try (destruct (is_dir f (rev (c :: rp)));
             [intros [= <-]; reflexivity | discriminate]).
      destruct (mkdir_parents_rev u rp f) as [e' | f1] eqn:E1; [discriminate |].
      intros H q Hq.
      rewrite (mkdir_exist_ok_frame _ _ _ _ H q)
        by (intros ->; apply Hq; reflexivity).
      apply (IH _ _ E1). intros Hpre. apply Hq. simpl.
      etransitivity; [exact Hpre | apply prefix_app_r; reflexivity].
    + intros [= <-] q Hq. apply (mkdir_frame _ _ _ _ E).
      intros ->. apply Hq. reflexivity.
Qed.

Lemma mkdir_parents_frame u p f f' q :
  mkdir_parents u p f = inr f' -> ~ q `prefix_of` p -> node_at f' q = node_at f q.
Proof.
  unfold mkdir_parents. intros H Hq.
  apply (mkdir_parents_rev_frame _ _ _ _ H). rewrite rev_involutive. exact Hq.
Qed.

(** What is there stays exactly as it is. *)
Lemma mkdir_keeps u p f f' q x :
  mkdir u p f = inr f' -> node_at f q = Some x -> node_at f' q = Some x.
Proof.
  intros H Hq. apply mkdir_frame in H as [Hnone Hfr].
  rewrite Hfr; [exact Hq | congruence].
Qed.

Lemma mkdir_exist_ok_keeps u p f f' q x :
  mkdir_exist_ok u p f = inr f' -> node_at f q = Some x -> node_at f' q = Some x.
Proof.
  unfold mkdir_exist_ok. destruct (mkdir u p f) as [e | f1] eqn:E.
  - destruct (exn_class e); try discriminate;
      (destruct (is_dir f p); [intros [= <-]; auto | discriminate]).
  - intros [= <-]. apply (mkdir_keeps _ _ _ _ _ _ E).
Qed.

Lemma mkdir_parents_rev_keeps u rp : forall f f' q x,
  mkdir_parents_rev u rp f = inr f' ->
  node_at f q = Some x -> node_at f' q = Some x.
Proof.
  induction rp as [| c rp IH]; intros f f' q x; cbn [mkdir_parents_rev]; cbv zeta.
  - destruct (mkdir u (rev []) f) as [e | f1] eqn:E.
    + destruct (exn_class e); try discriminate;
        (destruct (is_dir f (rev [])); [intros [= <-]; auto | discriminate]).
    + intros [= <-]. apply (mkdir_keeps _ _ _ _ _ _ E).
  - destruct (mkdir u (rev (c :: rp)) f) as [e | f1] eqn:E.
    + destruct (exn_class e);
        try (destruct (is_dir f (rev (c :: rp)));
             [intros [= <-]; auto | discriminate]).
      destruct (mkdir_parents_rev u rp f) as [e' | f1] eqn:E1; [discriminate |].
      intros H Hq. apply (mkdir_exist_ok_keeps _ _ _ _ _ _ H).
      apply (IH _ _ _ _ E1 Hq).
    + intros [= <-]. apply (mkdir_keeps _ _ _ _ _ _ E).
Qed.

Lemma mkdir_parents_keeps u p f f' q x :
  mkdir_parents u p f = inr f' -> node_at f q = Some x -> node_at f' q = Some x.
Proof. apply mkdir_parents_rev_keeps. Qed.

Lemma not_prefix_of_parent (p : Path) : p <> [] -> ~ p `prefix_of` Pathlib.parent p.
Proof.
  intros Hne Hpre. apply prefix_length in Hpre. unfold Pathlib.parent in Hpre.
  destruct (exists_last Hne) as (l & a & ->).
  rewrite removelast_last, length_app in Hpre. simpl in Hpre. lia.
Qed.

End MkdirFacts.

(** X8.  A write_jsonl that succeeds leaves the parent of the log file a
    directory, appends exactly the JSON text of the object and one newline to
    what the log file held (creating the file with mode 0o666 minus the umask
    when it was absent), keeps every other existing file and directory as it
    was, and adds one record to the journal. *)
Theorem write_jsonl_appends_one_line
  (env : Env) (log_file : Path) (obj : LogRecord) (w w' : World) :
  write_jsonl env log_file obj w = (w', inr tt) ->
  Os.is_dir (fs w') (Pathlib.parent log_file) = true
  /\ journal w' = journal w ++ [(log_file, obj)]
  /\ (exists mode before,
        Os.node_at (fs w') log_file
        = Some (File mode (before ++ json_dumps env obj ++ [x0a]))
        /\ match Os.node_at (fs w) log_file with
           | Some (File m data) => m = mode /\ data = before
           | _ => Os.node_at (fs w) log_file = None
                  /\ before = [] /\ mode = Z.ldiff Os.o666 (umask env)
           end)
  /\ (forall q x, q <> log_file ->
        Os.node_at (fs w) q = Some x -> Os.node_at (fs w') q = Some x).
Proof.
  unfold write_jsonl, bind, on_fs, journalize.
  destruct (Os.mkdir_parents (umask env) (Pathlib.parent log_file) (fs w))
    as [e1 | f1] eqn:E1; [discriminate |]. cbn [fs with_fs].
  destruct (Os.append (umask env) log_file (json_dumps env obj ++ [x0a]) f1)
    as [e2 | f2] eqn:E2; [discriminate |].
  intros [= <-]. cbn [fs journal with_fs with_journal].
  assert (Hlog : log_file <> []).
  { intros ->. unfold Os.append in E2. simpl in E2. discriminate. }
  assert (Hsame : Os.node_at f1 log_file = Os.node_at (fs w) log_file).
  { apply (MkdirFacts.mkdir_parents_frame _ _ _ _ _ E1).
    apply MkdirFacts.not_prefix_of_parent. exact Hlog. }
  assert (Hparent : Pathlib.parent log_file <> log_file).
  { intros Heq. apply (MkdirFacts.not_prefix_of_parent log_file Hlog).
    rewrite Heq. reflexivity. }
  pose proof (OsFacts.mkdir_parents_inr _ _ _ _ E1) as Hdir.
  unfold Os.append in E2. rewrite Hsame in E2.
  split; [| split; [reflexivity | split]].
  - unfold Os.is_dir in *.
    destruct (Os.node_at (fs w) log_file) as [[m | m d] |]; try discriminate.
    + destruct (Os.writable m); [| discriminate]. injection E2 as <-.
      rewrite OsFacts.node_at_insert_ne by congruence. exact Hdir.
    + destruct (Os.node_at f1 (Pathlib.parent log_file)) as [[m | m d] |] eqn:Ep;
        try discriminate.
      injection E2 as <-. rewrite OsFacts.node_at_insert_ne by congruence.
      rewrite Ep. reflexivity.
  - destruct (Os.node_at (fs w) log_file) as [[m | m d] |]; try discriminate.
    + destruct (Os.writable m); [| discriminate]. injection E2 as <-.
      exists m, d. rewrite OsFacts.node_at_insert_eq by exact Hlog. auto.
    + destruct (Os.node_at f1 (Pathlib.parent log_file)) as [[m | m d] |];
        try discriminate.
      injection E2 as <-. exists (Z.ldiff Os.o666 (umask env)), [].
      rewrite OsFacts.node_at_insert_eq by exact Hlog. auto.
  - intros q x Hq Hx.
    apply (MkdirFacts.mkdir_parents_keeps _ _ _ _ _ _ E1) in Hx.
    destruct (Os.node_at (fs w) log_file) as [[m | m d] |]; try discriminate.
    + destruct (Os.writable m); [| discriminate]. injection E2 as <-.
      rewrite OsFacts.node_at_insert_ne by congruence. exact Hx.
    + destruct (Os.node_at f1 (Pathlib.parent log_file)) as [[m | m d] |];
        try discriminate.
      injection E2 as <-. rewrite OsFacts.node_at_insert_ne by congruence. exact Hx.
Qed.

Lemma write_jsonl_appends_one_line_witness :
  snd (write_jsonl open_host log_path (FileRecord Entry.unbound)
         (initial_world three_files)) = inr tt
  /\ Os.is_dir (fs (fst (write_jsonl open_host log_path (FileRecord Entry.unbound)
                           (initial_world three_files))))
       (Pathlib.parent log_path) = true
  /\ Os.node_at (fs (fst (write_jsonl open_host log_path (FileRecord Entry.unbound)
                            (initial_world three_files)))) a_csv
     = Some (text "alpha").
Proof.
  assert (H : write_jsonl open_host log_path (FileRecord Entry.unbound)
                (initial_world three_files)
              = (fst (write_jsonl open_host log_path (FileRecord Entry.unbound)
                        (initial_world three_files)), inr tt))
    by (vm_compute; reflexivity).
  destruct (write_jsonl_appends_one_line _ _ _ _ _ H) as (Hdir & _ & _ & Hkeep).
  split; [rewrite H; reflexivity |]. split; [exact Hdir |].
  apply Hkeep; [discriminate | vm_compute; reflexivity].
Defined.

(** ** What happens to the local files *)

Import Scenario.

Module MoveFacts.
Import Os.

(** A successful [os.rename] puts the node of the source at the
    destination, which was no directory. *)
Lemma rename_inr (src dst : Path) (f1 f2 : FS) :
  rename src dst f1 = inr f2 ->
  exists nd, node_at f1 src = Some nd
             /\ f2 = <[dst := nd]> (delete src f1)
             /\ dst <> []
             /\ (forall m, node_at f1 dst <> Some (Dir m)).
Proof.
  unfold rename.
  destruct (node_at f1 src) as [nd |]; [| discriminate].
  destruct (node_at f1 dst) as [[m | m d] |] eqn:Hd; [discriminate | |].
  - intros [= <-]. exists nd. repeat split; try discriminate.
    intros ->. discriminate.
  - destruct (node_at f1 (Pathlib.parent dst)) as [[m | m d] |];
      try discriminate.
    intros [= <-]. exists nd. repeat split; try discriminate.
    intros ->. discriminate.
Qed.

(** A successful [shutil.move] does the same, at the target or, when the
    target is a directory, inside it. *)
Lemma shutil_move_inr (src target : Path) (f1 f2 : FS) :
  shutil_move src target f1 = inr f2 ->
  exists dst nd,
    node_at f1 src = Some nd
    /\ f2 = <[dst := nd]> (delete src f1)
    /\ dst <> []
    /\ (forall m, node_at f1 dst <> Some (Dir m))
    /\ (dst = target
        \/ is_dir f1 target = true
           /\ dst = Pathlib.path_join target (Pathlib.name src)).
Proof.
  unfold shutil_move.
  destruct (is_dir f1 target) eqn:Hdir.
  - destruct (exists_ f1 _); [discriminate |].
    intros H. apply rename_inr in H as (nd & H1 & H2 & H3 & H4).
    exists (Pathlib.path_join target (Pathlib.name src)), nd. auto 10.
  - intros H. apply rename_inr in H as (nd & H1 & H2 & H3 & H4).
    exists target, nd. auto 10.
Qed.

(** What the file system looks like after a move of a regular file. *)
Lemma moved (src dst : Path) (f1 : FS) (nd : Node) (q : Path) :
  node_at f1 src = Some nd -> src <> [] -> dst <> [] ->
  node_at (<[dst := nd]> (delete src f1)) q
  = if decide (q = dst) then Some nd
    else if decide (q = src) then None
    else node_at f1 q.
Proof.
  intros Hsrc Hs Hd.
  destruct (decide (q = dst)) as [-> | Hqd].
  - apply OsFacts.node_at_insert_eq. exact Hd.
  - rewrite OsFacts.node_at_insert_ne by congruence.
    destruct (decide (q = src)) as [-> | Hqs].
    + destruct src; [congruence |]. simpl. apply lookup_delete_eq.
    + apply OsFacts.node_at_delete_ne. congruence.
Qed.

End MoveFacts.

Section PostAction.
Variable env : Env.
Variable args : Args.t.
Variables sent_dir f : Path.

(** A post-action that raises has removed nothing. *)
Lemma post_action_inl_persists w w' e :
  post_action env args sent_dir f w = (w', inl e) -> files_persist w w'.
Proof.
  unfold post_action, files_persist.
  destruct (Args.delete_after args).
  { destruct (Args.dry_run args); [discriminate |].
    unfold on_fs. destruct (Os.unlink f (fs w)); [| discriminate].
    intros [= <- _]. intros p x Hx. destruct x; [exact Hx |].
    exists []. rewrite app_nil_r. exact Hx. }
  destruct (Args.keep_local args); [discriminate |]. cbn [negb].
  unfold bind at 1. unfold on_fs at 1.
  destruct (Os.mkdir_parents (umask env) sent_dir (fs w)) as [e1 | f1] eqn:E1.
  { intros [= <- _]. intros p x Hx. destruct x; [exact Hx |].
    exists []. rewrite app_nil_r. exact Hx. }
  pose proof (PersistFacts.mkdir_parents_persists _ _ _ _ E1) as Hp.
  destruct (Args.dry_run args); [discriminate |].
  unfold bind, query_fs, ret, read_clock, on_fs. cbn [fs with_fs with_clock_reads].
  destruct (Os.exists_ f1 _);
    cbn [fs with_fs with_clock_reads];
    (destruct (Os.shutil_move f _ f1); [| discriminate]);
    intros [= <- _]; exact Hp.
Qed.

End PostAction.

(** X9.  When the archive move of a regular file succeeds (no --delete-after,
    no --keep-local, no dry run), the archive directory exists and the file,
    with the same mode and bytes, is at its own name in the archive directory,
    or at the time-stamped name, or inside a directory of that time-stamped
    name; it is gone from its old place, and every other path except that
    destination holds what it held. *)
Theorem archiving_keeps_the_bytes
  (env : Env) (args : Args.t) (sent_dir f : Path) (w w' : World)
  (mode : Z) (data : list byte) :
  Args.delete_after args = false ->
  Args.keep_local args = false ->
  Args.dry_run args = false ->
  post_action env args sent_dir f w = (w', inr tt) ->
  Os.node_at (fs w) f = Some (File mode data) ->
  Os.is_dir (fs w') sent_dir = true
  /\ exists dst,
       In dst [ Pathlib.path_join sent_dir (Pathlib.name f);
                stamped_target env sent_dir f w;
                Pathlib.path_join (stamped_target env sent_dir f w) (Pathlib.name f) ]
       /\ Os.node_at (fs w') dst = Some (File mode data)
       /\ (dst <> f -> Os.node_at (fs w') f = None)
       /\ (forall q x, q <> f -> q <> dst ->
             Os.node_at (fs w) q = Some x -> Os.node_at (fs w') q = Some x).
Proof.
  intros Hdel Hkeep Hdry Hpost Hnode.
  destruct (Os.mkdir_parents (umask env) sent_dir (fs w)) as [e1 | f1] eqn:E1.
  { exfalso. revert Hpost. unfold post_action. rewrite Hdel, Hkeep, Hdry. cbn [negb].
    unfold bind at 1. unfold on_fs at 1. rewrite E1. discriminate. }
  pose proof (OsFacts.mkdir_parents_inr _ _ _ _ E1) as Hsent.
  pose proof (MkdirFacts.mkdir_parents_keeps _ _ _ _ _ _ E1 Hnode) as Hf1.
  assert (Hfne : f <> []) by (intros ->; discriminate Hnode).
  assert (Hfinish : forall target f2,
            Os.shutil_move f target f1 = inr f2 ->
            exists dst,
              (dst = target \/ Os.is_dir f1 target = true
                               /\ dst = Pathlib.path_join target (Pathlib.name f))
              /\ Os.is_dir f2 sent_dir = true
              /\ Os.node_at f2 dst = Some (File mode data)
              /\ (dst <> f -> Os.node_at f2 f = None)
              /\ (forall q x, q <> f -> q <> dst ->
                    Os.node_at (fs w) q = Some x -> Os.node_at f2 q = Some x)).
  { intros target f2 Hmv.
    apply MoveFacts.shutil_move_inr in Hmv
      as (dst & nd & Hsrc & -> & Hdst & Hnd & Hwhere).
    rewrite Hf1 in Hsrc. injection Hsrc as <-.
    exists dst. split; [exact Hwhere |].
    repeat split.
    - unfold Os.is_dir in *.
      destruct (Os.node_at f1 sent_dir) as [[m | m d] |] eqn:Hs; try discriminate.
      rewrite (MoveFacts.moved _ _ _ _ _ Hf1 Hfne Hdst).
      destruct (decide (sent_dir = dst)) as [-> | _]; [destruct (Hnd m Hs) |].
      destruct (decide (sent_dir = f)) as [-> | _]; [congruence |].
      rewrite Hs. reflexivity.
    - rewrite (MoveFacts.moved _ _ _ _ _ Hf1 Hfne Hdst).
      destruct (decide (dst = dst)); [reflexivity | congruence].
    - intros Hne. rewrite (MoveFacts.moved _ _ _ _ _ Hf1 Hfne Hdst).
      destruct (decide (f = dst)); [congruence |].
      destruct (decide (f = f)); [reflexivity | congruence].
    - intros q x Hqf Hqd Hq.
      rewrite (MoveFacts.moved _ _ _ _ _ Hf1 Hfne Hdst).
      destruct (decide (q = dst)); [congruence |].
      destruct (decide (q = f)); [congruence |].
      exact (MkdirFacts.mkdir_parents_keeps _ _ _ _ _ _ E1 Hq). }
  destruct (Os.exists_ f1 (Pathlib.path_join sent_dir (Pathlib.name f))) eqn:Htaken.
  - rewrite (archive_renames_on_collision env args sent_dir f Hdel Hkeep Hdry w f1 E1 Htaken)
      in Hpost.
    unfold on_fs in Hpost. cbn [fs with_fs with_clock_reads] in Hpost.
    destruct (Os.shutil_move f (stamped_target env sent_dir f w) f1) as [e2 | f2] eqn:E2;
      [discriminate |].
    injection Hpost as <-. cbn [fs with_fs with_clock_reads].
    destruct (Hfinish _ _ E2) as (dst & Hwhere & H1 & H2 & H3 & H4).
    split; [exact H1 |]. exists dst. split; [| auto].
    destruct Hwhere as [-> | [_ ->]]; simpl; auto.
  - rewrite (archive_moves_under_own_name env args sent_dir f Hdel Hkeep Hdry w f1 E1 Htaken)
      in Hpost.
    unfold on_fs in Hpost. cbn [fs with_fs with_clock_reads] in Hpost.
    destruct (Os.shutil_move f (Pathlib.path_join sent_dir (Pathlib.name f)) f1)
      as [e2 | f2] eqn:E2; [discriminate |].
    injection Hpost as <-. cbn [fs with_fs with_clock_reads].
    destruct (Hfinish _ _ E2) as (dst & Hwhere & H1 & H2 & H3 & H4).
    split; [exact H1 |]. exists dst. split; [| auto].
    destruct Hwhere as [-> | [Hdir _]]; [simpl; auto |].
    exfalso. unfold Os.exists_, Os.is_dir in *.
    destruct (Os.node_at f1 (Pathlib.path_join sent_dir (Pathlib.name f)));
      discriminate.
Qed.

Lemma archiving_keeps_the_bytes_witness :
  let w' := fst (post_action open_host plain sent_dir north_a
                   (initial_world namesakes_after_a_run)) in
  Os.is_dir (fs w') sent_dir = true
  /\ exists dst,
       In dst [ Pathlib.path_join sent_dir (Pathlib.name north_a);
                stamped_target open_host sent_dir north_a
                  (initial_world namesakes_after_a_run);
                Pathlib.path_join
                  (stamped_target open_host sent_dir north_a
                     (initial_world namesakes_after_a_run))
                  (Pathlib.name north_a) ]
       /\ Os.node_at (fs w') dst = Some (File 420 (list_byte_of_string "north"))
       /\ (dst <> north_a -> Os.node_at (fs w') north_a = None)
       /\ (forall q x, q <> north_a -> q <> dst ->
             Os.node_at (fs (initial_world namesakes_after_a_run)) q = Some x ->
             Os.node_at (fs w') q = Some x).
Proof.
  apply (archiving_keeps_the_bytes open_host plain sent_dir north_a
           (initial_world namesakes_after_a_run)); vm_compute; reflexivity.
Defined.


Section Safety.
Variable env : Env.
Variable s : Settings.t.
Variable args : Args.t.
Variables sent_dir log_path : Path.

Lemma keeps_remote_file_exists_fs rp d : keeps fs (remote_file_exists env s rp d).
Proof. unfold remote_file_exists, run_cmd. keeps_auto. Qed.

Lemma keeps_scp_upload_fs f rp d : keeps fs (scp_upload env s f rp d).
Proof. unfold scp_upload, run_cmd. keeps_auto. Qed.

Lemma same_files_persist (fr fr' : Frame) :
  fs (world fr') = fs (world fr) -> files_persist_in_frame fr fr'.
Proof.
  intros H. unfold files_persist_in_frame, files_persist. rewrite H. reflexivity.
Qed.

Lemma write_jsonl_persists obj w w' r :
  write_jsonl env log_path obj w = (w', r) -> files_persist w w'.
Proof.
  intros H. pose proof (files_persist_write_jsonl env log_path obj w) as Hp.
  rewrite H in Hp. exact Hp.
Qed.

(** The [try] block either falls through to "uploaded", after a
    post-action that has succeeded on the files as they were, or has
    removed nothing. *)
Lemma try_body_persists f rp fr fr' r :
  try_body env s args sent_dir log_path f rp fr = (fr', r) ->
  (r = inr FallThrough
   /\ exists w1, fs w1 = fs (world fr)
                 /\ post_action env args sent_dir f w1 = (world fr', inr tt))
  \/ files_persist_in_frame fr fr'.
Proof.
  unfold try_body. intros H.
  inv_bind H.
  2:{ right. apply liftW_run in H as (Hw & _).
      pose proof (sha256_file_pure f default_chunk_size (world fr)) as Hp.
      rewrite Hw in Hp. simpl in Hp. apply same_files_persist. rewrite Hp.
      reflexivity. }
  apply liftW_run in Hrun as (Hw & _).
  pose proof (sha256_file_pure f default_chunk_size (world fr)) as Hp.
  rewrite Hw in Hp. simpl in Hp. clear Hw.
  inv_bind H; [| discriminate].
  injection Hrun as <- <-.
  assert (Hprobe : forall fr1 r1,
             (if negb (Args.overwrite args)
              then liftW (remote_file_exists env s rp (Args.dry_run args))
              else ret false)
               (mkFrame (world st) (Entry.set_sha256 (Some v) (entry st))
                  (ok st) (skipped st) (fail st)) = (fr1, r1) ->
             fs (world fr1) = fs (world fr)).
  { intros fr1 r1. destruct (Args.overwrite args); simpl.
    - intros [= <- _]. simpl. rewrite Hp. reflexivity.
    - intros Hrun. apply liftW_run in Hrun as (Hw & _). simpl in Hw.
      apply (keeps_run _ _ _ _ _ (keeps_remote_file_exists_fs _ _)) in Hw.
      rewrite Hw, Hp. reflexivity. }
  unfold update_entry in H at 1.
  inv_bind H.
  2:{ right. apply same_files_persist. eapply Hprobe. exact H. }
  apply Hprobe in Hrun. rename Hrun into Hfs0.
  destruct v0.
  - (* skipped *)
    right.
    inv_bind H; [| discriminate]. injection Hrun as <- <-.
    inv_bind H; [| discriminate]. injection Hrun as <- <-.
    inv_bind H; [| discriminate]. injection Hrun as <- <-.
    assert (Hwr : forall fr1 r1,
               liftW (write_jsonl env log_path
                        (FileRecord (Entry.set_status (Some "skipped_remote_exists")
                                       (entry st0))))
                 (mkFrame (world st0)
                    (Entry.set_status (Some "skipped_remote_exists") (entry st0))
                    (ok st0) (skipped st0 + 1) (fail st0)) = (fr1, r1) ->
               files_persist_in_frame fr fr1).
    { intros fr1 r1 Hrun. apply liftW_run in Hrun as (Hw & _). simpl in Hw.
      apply write_jsonl_persists in Hw.
      unfold files_persist_in_frame, files_persist in *.
      rewrite <- Hfs0. exact Hw. }
    inv_bind H.
    + apply Hwr in Hrun. injection H as <- _. exact Hrun.
    + eapply Hwr. exact H.
  - inv_bind H.
    2:{ right. apply liftW_run in H as (Hw & _).
        apply (keeps_run _ _ _ _ _ (keeps_scp_upload_fs _ _ _)) in Hw.
        apply same_files_persist. congruence. }
    apply liftW_run in Hrun as (Hw & _).
    apply (keeps_run _ _ _ _ _ (keeps_scp_upload_fs _ _ _)) in Hw.
    inv_bind H.
    2:{ right. apply liftW_run in H as (Hw2 & _).
        apply post_action_inl_persists in Hw2.
        unfold files_persist_in_frame, files_persist in *.
        rewrite <- Hfs0, <- Hw. exact Hw2. }
    apply liftW_run in Hrun as (Hw2 & _).
    inv_bind H; [| discriminate]. injection Hrun as <- <-.
    inv_bind H; [| discriminate]. injection Hrun as <- <-.
    injection H as <- <-. left. split; [reflexivity |].
    exists (world st1). split; [congruence |].
    simpl. destruct v1. exact Hw2.
Qed.


End Safety.



Section QuietRuns.
Variable env : Env.
Variable s : Settings.t.
Variable args : Args.t.
Variables sent_dir log_path : Path.
Hypothesis Hquiet :
  Args.dry_run args = true
  \/ (Args.delete_after args = false /\ Args.keep_local args = true).

Lemma files_persist_post_action_quiet f :
  evolves files_persist (post_action env args sent_dir f).
Proof.
  destruct Hquiet as [Hdry | [Hdel Hkeep]].
  - apply files_persist_post_action_dry. exact Hdry.
  - unfold post_action. rewrite Hdel, Hkeep. simpl.
    apply evolves_ret. typeclasses eauto.
Qed.

Lemma files_persist_loop_body_quiet f :
  evolves files_persist_in_frame (loop_body env s args sent_dir log_path f).
Proof.
  unfold loop_body, try_body, except_clause, utc_iso, sha256_file.
  unfold remote_file_exists, scp_upload, run_cmd.
  persist_auto;
    first [apply files_persist_write_jsonl | apply files_persist_post_action_quiet].
Qed.

Lemma files_persist_for_files_quiet files :
  evolves files_persist_in_frame (for_files env s args sent_dir log_path files).
Proof.
  induction files as [| f rest IH]; simpl.
  - apply evolves_ret. typeclasses eauto.
  - apply evolves_bind; [typeclasses eauto | | intros _; exact IH].
    apply files_persist_loop_body_quiet.
Qed.

Lemma files_persist_run_loop_quiet files :
  evolves files_persist (run_loop env s args sent_dir log_path files).
Proof.
  intros w. unfold run_loop.
  pose proof (files_persist_for_files_quiet files (mkFrame w Entry.unbound 0 0 0)) as H.
  destruct (for_files _ _ _ _ _ _ _) as [fr [e | u]]; exact H.
Qed.

End QuietRuns.

(** X11.  In a dry run, and in a run with --keep-local and without
    --delete-after, main removes, moves or overwrites nothing, however it
    ends: every directory is still a directory and every regular file still
    holds its bytes, possibly followed by appended ones. *)
Theorem only_a_real_post_action_removes_files
  (env : Env) (s : Settings.t) (args : Args.t) :
  Args.dry_run args = true
  \/ (Args.delete_after args = false /\ Args.keep_local args = true) ->
  evolves files_persist (main env s args).
Proof.
  intros Hquiet. unfold main, validate_env, make_log_path, ensure_remote_dir, run_cmd,
    iter_files, glob_select, utc_iso.
  persist_auto;
    first [apply files_persist_write_jsonl
          | apply files_persist_run_loop_quiet; exact Hquiet].
Qed.

Lemma only_a_real_post_action_removes_files_witness :
  evolves files_persist
    (main open_host settings
       (Args.mk "files" "sent" "logs" "*" true false true false false)).
Proof.
  apply only_a_real_post_action_removes_files. right. split; reflexivity.
Defined.

(** ** The commands of an iteration and its record *)

Import Scenario.

Section Commands.
Variable env : Env.
Variable s : Settings.t.
Variable args : Args.t.
Variables sent_dir log_path : Path.

Lemma post_action_keeps_executed f : keeps executed (post_action env args sent_dir f).
Proof. unfold post_action. keeps_auto. Qed.

(** The probe outside a dry run. *)
Lemma remote_file_exists_run rp w w' r :
  remote_file_exists env s rp false w = (w', r) ->
  fs w' = fs w
  /\ match spawn env (executed w) (fs w) (probe_command s rp) with
     | inl e => r = inl e /\ executed w' = executed w
     | inr code => r = inr (Z.eqb code 0)
                   /\ executed w' = executed w ++ [probe_command s rp]
     end.
Proof.
  unfold remote_file_exists. fold (probe_command s rp).
  destruct (spawn env (executed w) (fs w) (probe_command s rp)) as [e | code] eqn:E.
  - erewrite bind_inl by (apply run_cmd_inl; exact E).
    intros [= <- <-]. auto.
  - erewrite bind_inr by (apply run_cmd_inr; exact E).
    intros [= <- <-]. auto.
Qed.

(** The transfer outside a dry run. *)
Lemma scp_upload_run f rp w w' r :
  scp_upload env s f rp false w = (w', r) ->
  fs w' = fs w
  /\ match spawn env (executed w) (fs w) (scp_command s f rp) with
     | inl e => r = inl e /\ executed w' = executed w
     | inr code => executed w' = executed w ++ [scp_command s f rp]
                   /\ (r = inr tt <-> code = 0%Z)
                   /\ (code <> 0%Z -> exists e, r = inl e)
     end.
Proof.
  unfold scp_upload. fold (scp_command s f rp).
  destruct (spawn env (executed w) (fs w) (scp_command s f rp)) as [e | code] eqn:E.
  - erewrite bind_inl by (apply run_cmd_inl; exact E).
    intros [= <- <-]. auto.
  - erewrite bind_inr by (apply run_cmd_inr; exact E).
    destruct (Z.eqb_spec code 0) as [-> | Hne]; simpl.
    + intros [= <- <-]. simpl. split; [reflexivity |].
      split; [reflexivity |]. split; [tauto | congruence].
    + intros [= <- <-]. simpl. split; [reflexivity |].
      split; [reflexivity |]. split; [| eauto].
      split; [discriminate | congruence].
Qed.

(** What the [try] block runs, and what its outcome says about the exit
    statuses. *)
Lemma try_body_trace f rp fr fr' r :
  try_body env s args sent_dir log_path f rp fr = (fr', r) ->
  exists l,
    executed (world fr') = executed (world fr) ++ l
    /\ try_trace env s args f rp (executed (world fr)) (fs (world fr)) r l.
Proof.
  intros H. destruct (Args.dry_run args) eqn:Hdry.
  { (* a dry run executes nothing *)
    pose proof (keeps_run _ _ _ _ _
                  (keeps_try_body_executed_dry env s args sent_dir log_path Hdry f rp)
                  H) as Hk.
    exists []. rewrite app_nil_r. split; [exact Hk |].
    unfold try_trace, planned_commands. rewrite Hdry.
    split; [reflexivity |]. split; discriminate. }
  assert (Hnil : forall fr1 : Frame,
             executed (world fr1) = executed (world fr) ->
             forall r1 : Exn + Flow, r1 <> inr FallThrough -> r1 <> inr Continue ->
             exists l,
               executed (world fr1) = executed (world fr) ++ l
               /\ try_trace env s args f rp (executed (world fr)) (fs (world fr))
                    r1 l).
  { intros fr1 Hx r1 Hr1 Hr2. exists []. rewrite app_nil_r.
    split; [exact Hx |]. split; [apply prefix_nil |].
    split; [| intros _ Hft; congruence].
    intros _ _ code _. split; [intros _; apply prefix_nil | congruence]. }
  revert H. unfold try_body. rewrite Hdry. intros H.
  inv_bind H.
  2:{ apply liftW_run in H as (Hw & _).
      pose proof (sha256_file_pure f default_chunk_size (world fr)) as Hp.
      rewrite Hw in Hp. simpl in Hp.
      apply Hnil; [rewrite Hp; reflexivity | discriminate | discriminate]. }
  apply liftW_run in Hrun as (Hw & _).
  pose proof (sha256_file_pure f default_chunk_size (world fr)) as Hp.
  rewrite Hw in Hp. simpl in Hp. clear Hw.
  inv_bind H; [| discriminate].
  injection Hrun as <- <-.
  set (probe := probe_command s rp) in *.
  set (scp := scp_command s f rp) in *.
  set (pre := if Args.overwrite args then [] else [probe]).
  (* the probe *)
  assert (Hprobe : forall fr1 r1,
             (if negb (Args.overwrite args)
              then liftW (remote_file_exists env s rp false)
              else ret false)
               (mkFrame (world st) (Entry.set_sha256 (Some v) (entry st))
                  (ok st) (skipped st) (fail st)) = (fr1, r1) ->
             fs (world fr1) = fs (world fr)
             /\ match r1 with
                | inl _ => executed (world fr1) = executed (world fr)
                | inr present =>
                    executed (world fr1) = executed (world fr) ++ pre
                    /\ (Args.overwrite args = false ->
                        exists code,
                          spawn env (executed (world fr)) (fs (world fr)) probe
                          = inr code
                          /\ present = Z.eqb code 0)
                    /\ (Args.overwrite args = true -> present = false)
                end).
  { intros fr1 r1. subst pre. destruct (Args.overwrite args); simpl.
    - intros [= <- <-]. simpl. rewrite Hp, app_nil_r.
      repeat split; auto; discriminate.
    - intros Hrun. apply liftW_run in Hrun as (Hw & _). simpl in Hw.
      apply remote_file_exists_run in Hw as (Hfs & Hcase). rewrite Hp in *.
      split; [exact Hfs |]. fold probe in Hcase.
      destruct (spawn env (executed (world fr)) (fs (world fr)) probe)
        as [e | code].
      + destruct Hcase as [-> Hx]. exact Hx.
      + destruct Hcase as [-> Hx]. split; [exact Hx |].
        split; [eauto | discriminate]. }
  inv_bind H.
  2:{ apply Hprobe in H as [_ Hx].
      apply Hnil; [exact Hx | discriminate | discriminate]. }
  apply Hprobe in Hrun as (Hfs0 & Hx0 & Hov0 & Hov1). clear Hprobe.
  destruct v0.
  - (* skipped: the probe has exited with 0 *)
    destruct (Args.overwrite args) eqn:Hov; [discriminate (Hov1 eq_refl) |].
    destruct (Hov0 eq_refl) as (code & Hspawn & Hcode).
    symmetry in Hcode. apply Z.eqb_eq in Hcode. subst code.
    assert (Hskip : forall fr1 r1,
               executed (world fr1) = executed (world st0) ->
               r1 <> inr FallThrough ->
               exists l,
                 executed (world fr1) = executed (world fr) ++ l
                 /\ try_trace env s args f rp (executed (world fr)) (fs (world fr))
                      r1 l).
    { intros fr1 r1 Hx1 Hr1. exists [probe]. rewrite Hx1, Hx0.
      split; [reflexivity |]. unfold try_trace, planned_commands.
      rewrite Hdry, Hov. fold probe scp.
      split; [exists [scp]; reflexivity |].
      split; [| intros _ Hft; congruence].
      intros _ _ code Hc. rewrite Hspawn in Hc. injection Hc as <-.
      split; reflexivity. }
    inv_bind H; [| discriminate]. injection Hrun as <- <-.
    inv_bind H; [| discriminate]. injection Hrun as <- <-.
    inv_bind H; [| discriminate]. injection Hrun as <- <-.
    inv_bind H.
    + apply liftW_run in Hrun as (Hw & _). simpl in Hw.
      apply (keeps_run _ _ _ _ _ (keeps_write_jsonl_executed _ _ _)) in Hw.
      injection H as <- <-. apply Hskip; [exact Hw | discriminate].
    + apply liftW_run in H as (Hw & _). simpl in Hw.
      apply (keeps_run _ _ _ _ _ (keeps_write_jsonl_executed _ _ _)) in Hw.
      apply Hskip; [exact Hw | discriminate].
  - (* the transfer *)
    assert (Hnot0 : Args.overwrite args = false ->
                    forall code,
                      spawn env (executed (world fr)) (fs (world fr)) probe
                      = inr code -> code <> 0%Z).
    { intros Hov code Hc. destruct (Hov0 Hov) as (code' & Hspawn & Hcode).
      rewrite Hspawn in Hc. injection Hc as <-.
      symmetry in Hcode. apply Z.eqb_neq in Hcode. exact Hcode. }
    inv_bind H.
    + apply liftW_run in Hrun as (Hw & _).
      apply scp_upload_run in Hw as (Hfs1 & Hcase). fold scp in Hcase.
      rewrite Hx0, Hfs0 in Hcase.
      destruct (spawn env (executed (world fr) ++ pre) (fs (world fr)) scp)
        as [e | code] eqn:Hscp; [destruct Hcase as [[=] _] |].
      destruct Hcase as (Hx1 & Hzero & _).
      assert (code = 0%Z) as -> by (apply Hzero; destruct v0; reflexivity).
      assert (Hend : forall fr1 r1,
                 executed (world fr1) = executed (world st1) ->
                 r1 <> inr Continue ->
                 exists l,
                   executed (world fr1) = executed (world fr) ++ l
                   /\ try_trace env s args f rp (executed (world fr))
                        (fs (world fr)) r1 l).
      { intros fr1 r1 Hx2 Hr1. exists (pre ++ [scp]).
        rewrite Hx2, Hx1, app_assoc. split; [reflexivity |].
        unfold try_trace, planned_commands. rewrite Hdry. fold probe scp pre.
        split; [reflexivity |].
        split; [| intros _ _; split; [reflexivity | exact Hscp]].
        intros _ Hov code Hc. pose proof (Hnot0 Hov code Hc) as Hne.
        split; [congruence | intros Hc'; congruence]. }
      inv_bind H.
      * apply liftW_run in Hrun as (Hw & _).
        apply (keeps_run _ _ _ _ _ (post_action_keeps_executed _)) in Hw.
        inv_bind H; [| discriminate]. injection Hrun as <- <-.
        inv_bind H; [| discriminate]. injection Hrun as <- <-.
        injection H as <- <-. apply Hend; [exact Hw | discriminate].
      * apply liftW_run in H as (Hw & _).
        apply (keeps_run _ _ _ _ _ (post_action_keeps_executed _)) in Hw.
        apply Hend; [exact Hw | discriminate].
    + (* the transfer has failed *)
      apply liftW_run in H as (Hw & _).
      apply scp_upload_run in Hw as (Hfs1 & Hcase). fold scp in Hcase.
      rewrite Hx0, Hfs0 in Hcase.
      destruct (spawn env (executed (world fr) ++ pre) (fs (world fr)) scp)
        as [e | code] eqn:Hscp.
      * destruct Hcase as [_ Hx1]. exists pre. split; [exact Hx1 |].
        unfold try_trace, planned_commands. rewrite Hdry. fold probe scp pre.
        split; [exists [scp]; reflexivity |].
        split; [| intros _ [=]].
        intros _ Hov code Hc. pose proof (Hnot0 Hov code Hc) as Hne.
        split; [congruence | intros [=]].
      * destruct Hcase as (Hx1 & _ & _). exists (pre ++ [scp]).
        rewrite Hx1, app_assoc. split; [reflexivity |].
        unfold try_trace, planned_commands. rewrite Hdry. fold probe scp pre.
        split; [reflexivity |].
        split; [| intros _ [=]].
        intros _ Hov code' Hc. pose proof (Hnot0 Hov code' Hc) as Hne.
        split; [congruence | intros [=]].
Qed.

Lemma keeps_liftW_entry {X A} (g : Frame -> X) (m : M World A) :
  (forall fr w, g (mkFrame w (entry fr) (ok fr) (skipped fr) (fail fr)) = g fr) ->
  keeps g (liftW m).
Proof.
  intros Hg fr. unfold liftW. destruct (m (world fr)) as [w' r]. simpl. apply Hg.
Qed.

(** The [try] block leaves the time stamp and the size of the record
    alone, and stores the digest as soon as it is known. *)
Lemma try_body_entry f rp fr fr' r :
  try_body env s args sent_dir log_path f rp fr = (fr', r) ->
  Entry.ts (entry fr') = Entry.ts (entry fr)
  /\ Entry.size_bytes (entry fr') = Entry.size_bytes (entry fr)
  /\ match snd (sha256_file f default_chunk_size (world fr)) with
     | inr digest => Entry.sha256 (entry fr') = Some digest
     | inl e => r = inl e /\ Entry.sha256 (entry fr') = Entry.sha256 (entry fr)
     end.
Proof.
  unfold try_body. intros H.
  inv_bind H.
  2:{ apply liftW_run in H as (Hw & He & _). rewrite Hw, He. simpl. auto. }
  apply liftW_run in Hrun as (Hw & He & _). rewrite Hw. simpl.
  inv_bind H; [| discriminate]. injection Hrun as <- <-.
  match type of H with
  | ?m _ = _ =>
      assert (Hk : keeps (fun fr => (Entry.ts (entry fr), Entry.size_bytes (entry fr),
                                     Entry.sha256 (entry fr))) m)
  end.
  { repeat first [ apply keeps_liftW_entry; reflexivity | keeps_step ];
      keeps_prim. }
  apply (keeps_run _ _ _ _ _ Hk) in H. simpl in H.
  injection H as -> -> ->. rewrite He. auto.
Qed.

(** One iteration is the [try] block run on a fresh record, followed by
    the line in the log.  *)
Lemma loop_body_inv f fr fr' r :
  loop_body env s args sent_dir log_path f fr = (fr', r) ->
  (exists e, Os.st_size (fs (world fr)) f = inl e /\ r = inl e
             /\ executed (world fr') = executed (world fr)
             /\ fs (world fr') = fs (world fr)
             /\ ok fr' = ok fr)
  \/ exists size fr1 r1,
       Os.st_size (fs (world fr)) f = inr size
       /\ try_body env s args sent_dir log_path f (remote_path_of s f)
            (try_frame env s f size fr) = (fr1, r1)
       /\ match r1 with
          | inr Continue => fr' = fr1 /\ r = inr tt
          | inr FallThrough =>
              liftW (write_jsonl env log_path (FileRecord (entry fr1))) fr1 = (fr', r)
          | inl e =>
              liftW (write_jsonl env log_path (FileRecord (mark_failed e (entry fr1))))
                (mkFrame (world fr1) (mark_failed e (entry fr1)) (ok fr1)
                   (skipped fr1) (fail fr1 + 1)) = (fr', r)
          end.
Proof.
  unfold loop_body. intros H.
  inv_bind H; [| discriminate].
  unfold liftW, utc_iso, read_clock in Hrun. injection Hrun as <- <-.
  inv_bind H.
  { unfold liftW, query_fs in Hrun. cbn [world fs with_clock_reads] in Hrun.
    destruct (Os.st_size (fs (world fr)) f) as [e | size] eqn:Hsize;
      [discriminate |].
    injection Hrun as <- <-.
    inv_bind H; [| discriminate]. injection Hrun as <- <-.
    right. exists size.
    change (mkFrame _ _ _ _ _) with (try_frame env s f size fr) in H.
    inv_bind H.
    2:{ apply try_except_inv in H as [(a & _ & [=]) | (s1 & e & _ & [=])]. }
    apply try_except_inv in Hrun as [(a & Hbody & [= ->]) | (s1 & e & Hbody & Hh)].
    - exists st, (inr a). split; [reflexivity |]. split; [exact Hbody |].
      destruct a.
      + injection H as <- <-. auto.
      + inv_bind H; [| discriminate]. injection Hrun as <- <-. exact H.
    - exists s1, (inl e). split; [reflexivity |]. split; [exact Hbody |].
      injection Hh as <- <-.
      inv_bind H; [| discriminate]. injection Hrun as <- <-. exact H. }
  left. unfold liftW, query_fs in H. cbn [world fs with_clock_reads] in H.
  destruct (Os.st_size (fs (world fr)) f) as [e | size] eqn:Hsize;
    [| discriminate].
  injection H as <- <-. exists e. simpl. auto.
Qed.

(** The line in the log runs no command. *)
Lemma loop_tail_executed (fr1 fr' : Frame) (r1 : Exn + Flow) (r : Exn + unit) :
  match r1 with
  | inr Continue => fr' = fr1 /\ r = inr tt
  | inr FallThrough =>
      liftW (write_jsonl env log_path (FileRecord (entry fr1))) fr1 = (fr', r)
  | inl e =>
      liftW (write_jsonl env log_path (FileRecord (mark_failed e (entry fr1))))
        (mkFrame (world fr1) (mark_failed e (entry fr1)) (ok fr1)
           (skipped fr1) (fail fr1 + 1)) = (fr', r)
  end ->
  executed (world fr') = executed (world fr1)
  /\ files_persist_in_frame fr1 fr'
  /\ ok fr' = ok fr1.
Proof.
  destruct r1 as [e | []].
  - intros H. apply liftW_run in H as (Hw & _ & Hok & _). simpl in Hw, Hok.
    split; [| split; [| exact Hok]].
    + apply (keeps_run _ _ _ _ _ (keeps_write_jsonl_executed _ _ _)) in Hw.
      exact Hw.
    + eapply write_jsonl_persists. exact Hw.
  - intros [-> _]. repeat split; reflexivity.
  - intros H. apply liftW_run in H as (Hw & _ & Hok & _).
    split; [| split; [| exact Hok]].
    + apply (keeps_run _ _ _ _ _ (keeps_write_jsonl_executed _ _ _)) in Hw.
      exact Hw.
    + eapply write_jsonl_persists. exact Hw.
Qed.

(** The commands of one iteration. *)
Lemma loop_body_commands f fr fr' r :
  loop_body env s args sent_dir log_path f fr = (fr', r) ->
  exists l,
    executed (world fr') = executed (world fr) ++ l
    /\ l `prefix_of` planned_commands s args f (remote_path_of s f).
Proof.
  intros H.
  apply loop_body_inv in H
    as [(e & _ & _ & Hx & _) | (size & fr1 & r1 & _ & Hbody & Htail)].
  - exists []. rewrite app_nil_r. split; [exact Hx | apply prefix_nil].
  - apply loop_tail_executed in Htail as [Hx _].
    apply try_body_trace in Hbody as (l & Hl & Hpre & _).
    exists l. rewrite Hx, Hl. split; [reflexivity | exact Hpre].
Qed.

(** The commands of the loop are commands planned for its files. *)
Lemma for_files_commands files : forall fr fr' r,
  for_files env s args sent_dir log_path files fr = (fr', r) ->
  exists l,
    executed (world fr') = executed (world fr) ++ l
    /\ Forall (fun cmd => exists f,
                 In f files
                 /\ In cmd (planned_commands s args f (remote_path_of s f))) l.
Proof.
  induction files as [| f rest IH]; intros fr fr' r H.
  - injection H as <- <-. exists []. rewrite app_nil_r. auto.
  - simpl in H. inv_bind H.
    + apply loop_body_commands in Hrun as (l1 & Hl1 & [k Hk]).
      destruct (IH _ _ _ H) as (l2 & Hl2 & Hall).
      exists (l1 ++ l2). rewrite Hl2, Hl1, app_assoc. split; [reflexivity |].
      apply Forall_app. split.
      * apply List.Forall_forall. intros cmd Hin. exists f.
        split; [left; reflexivity |]. rewrite Hk. apply in_or_app. auto.
      * eapply Forall_impl; [exact Hall |].
        intros cmd (g & Hg & Hcmd). exists g. split; [right; exact Hg | exact Hcmd].
    + apply loop_body_commands in H as (l1 & Hl1 & [k Hk]).
      exists l1. split; [exact Hl1 |].
      apply List.Forall_forall. intros cmd Hin. exists f.
      split; [left; reflexivity |]. rewrite Hk. apply in_or_app. auto.
Qed.

End Commands.

(** X12.  However an iteration of the loop ends, the commands it has run are
    an initial part of: the 'ssh ... test -f' probe for the remote path of the
    file (only without --overwrite) followed by the scp of the file to that
    path; in a dry run it runs none. *)
Theorem an_iteration_runs_its_commands_in_order
  (env : Env) (s : Settings.t) (args : Args.t) (sent_dir log_path f : Path)
  (fr fr' : Frame) (r : Exn + unit) :
  loop_body env s args sent_dir log_path f fr = (fr', r) ->
  exists l,
    executed (world fr') = executed (world fr) ++ l
    /\ l `prefix_of` planned_commands s args f (remote_path_of s f).
Proof.
  intros H. exact (loop_body_commands _ _ _ _ _ _ _ _ _ H).
Qed.

Lemma an_iteration_runs_its_commands_in_order_witness :
  exists l,
    executed (world (fst (loop_body mixed_host settings plain sent_dir log_path c_csv
                            (loop_start three_files))))
    = executed (world (loop_start three_files)) ++ l
    /\ l `prefix_of` planned_commands settings plain c_csv
                       (remote_path_of settings c_csv).
Proof.
  apply (an_iteration_runs_its_commands_in_order mixed_host settings plain sent_dir
           log_path c_csv (loop_start three_files) _
           (snd (loop_body mixed_host settings plain sent_dir log_path c_csv
                   (loop_start three_files)))).
  vm_compute. reflexivity.
Defined.

(** X13.  Outside a dry run and without --overwrite, when the probe for the
    file exits with 0 the iteration runs at most the probe and no scp, deletes
    or moves nothing, and does not count the file as uploaded. *)
Theorem a_file_found_on_the_remote_is_not_sent
  (env : Env) (s : Settings.t) (args : Args.t) (sent_dir log_path f : Path)
  (fr fr' : Frame) (r : Exn + unit) :
  Args.dry_run args = false ->
  Args.overwrite args = false ->
  spawn env (executed (world fr)) (fs (world fr))
    (probe_command s (remote_path_of s f)) = inr 0%Z ->
  loop_body env s args sent_dir log_path f fr = (fr', r) ->
  (exists l, executed (world fr') = executed (world fr) ++ l
             /\ l `prefix_of` [probe_command s (remote_path_of s f)])
  /\ files_persist_in_frame fr fr'
  /\ ok fr' = ok fr.
Proof.
  intros Hdry Hov Hspawn H.
  apply loop_body_inv in H
    as [(e & _ & -> & Hx & Hfs & Hok) | (size & fr1 & r1 & _ & Hbody & Htail)].
  - split; [exists []; rewrite app_nil_r; split; [exact Hx | apply prefix_nil] |].
    split; [apply same_files_persist; exact Hfs | exact Hok].
  - apply loop_tail_executed in Htail as (Hx & Hpers & Hok).
    pose proof (try_body_trace _ _ _ _ _ _ _ _ _ _ Hbody) as (l & Hl & _ & Hprobe & Hft).
    destruct (Hprobe Hdry Hov 0%Z Hspawn) as [Hshort _].
    specialize (Hshort eq_refl).
    assert (Hr1 : r1 <> inr FallThrough).
    { intros ->. destruct (Hft Hdry eq_refl) as [-> _].
      unfold planned_commands in Hshort. rewrite Hdry, Hov in Hshort.
      apply prefix_length in Hshort. simpl in Hshort. lia. }
    split; [exists l; rewrite Hx, Hl; split; [reflexivity | exact Hshort] |].
    pose proof (try_body_spec _ _ _ _ _ _ _ _ _ _ Hbody) as (_ & _ & _ & Hspec).
    apply try_body_persists in Hbody as [[-> _] | Hp]; [congruence |].
    split.
    + unfold files_persist_in_frame, files_persist in *. simpl in Hp.
      etransitivity; [exact Hp | exact Hpers].
    + rewrite Hok. destruct r1 as [e | []]; [| | congruence].
      * destruct Hspec as (_ & Ho & _). exact Ho.
      * destruct Hspec as (_ & _ & Ho & _). exact Ho.
Qed.

Lemma a_file_found_on_the_remote_is_not_sent_witness :
  let fr := loop_start three_files in
  let fr' := fst (loop_body mixed_host settings plain sent_dir log_path
                    (local_dir ++ ["b.csv"]) fr) in
  (exists l, executed (world fr') = executed (world fr) ++ l
             /\ l `prefix_of`
                  [probe_command settings
                     (remote_path_of settings (local_dir ++ ["b.csv"]))])
  /\ files_persist_in_frame fr fr'
  /\ ok fr' = ok fr.
Proof.
  apply (a_file_found_on_the_remote_is_not_sent mixed_host settings plain sent_dir
           log_path (local_dir ++ ["b.csv"]) (loop_start three_files) _
           (snd (loop_body mixed_host settings plain sent_dir log_path
                   (local_dir ++ ["b.csv"]) (loop_start three_files))));
    vm_compute; reflexivity.
Defined.

Section Records.
Variable env : Env.
Variable s : Settings.t.
Variable args : Args.t.
Variables sent_dir log_path : Path.

(** The record that a completed iteration has appended is the
    dictionary as the iteration leaves it. *)
Lemma loop_body_record f fr fr' size fr1 r1 :
  try_body env s args sent_dir log_path f (remote_path_of s f)
    (try_frame env s f size fr) = (fr1, r1) ->
  match r1 with
  | inr Continue => fr' = fr1 /\ inr tt = inr (B := unit) (A := Exn) tt
  | inr FallThrough =>
      liftW (write_jsonl env log_path (FileRecord (entry fr1))) fr1 = (fr', inr tt)
  | inl e =>
      liftW (write_jsonl env log_path (FileRecord (mark_failed e (entry fr1))))
        (mkFrame (world fr1) (mark_failed e (entry fr1)) (ok fr1)
           (skipped fr1) (fail fr1 + 1)) = (fr', inr tt)
  end ->
  journal (world fr') = journal (world fr) ++ [(log_path, FileRecord (entry fr'))]
  /\ match r1 with
     | inr Continue =>
         entry fr' = entry fr1 /\ Entry.status (entry fr') = Some "skipped_remote_exists"
     | inr FallThrough =>
         entry fr' = entry fr1 /\ Entry.status (entry fr') = Some "uploaded"
     | inl e =>
         entry fr' = mark_failed e (entry fr1)
     end.
Proof.
  intros Hbody Htail.
  apply try_body_spec in Hbody as (_ & _ & _ & Hspec). simpl in Hspec.
  destruct r1 as [e | []].
  - apply liftW_run in Htail as (Hw & He & _). simpl in Hw, He.
    apply write_jsonl_inr in Hw as (Hj & _).
    destruct Hspec as (Hjj & _). rewrite Hj, Hjj, He. auto.
  - destruct Htail as [-> _]. destruct Hspec as (Hjj & Hst & _). auto.
  - apply liftW_run in Htail as (Hw & He & _).
    apply write_jsonl_inr in Hw as (Hj & _).
    destruct Hspec as (Hjj & Hst & _). rewrite Hj, Hjj, He. auto.
Qed.

End Records.

(** X14.  Outside a dry run, when the record an iteration has written says
    'uploaded', the iteration has run exactly its planned commands, the scp of
    the file was the last of them and exited with 0, and without --overwrite
    the probe did not exit with 0. *)
Theorem uploaded_means_scp_exited_with_zero
  (env : Env) (s : Settings.t) (args : Args.t) (sent_dir log_path f : Path)
  (fr fr' : Frame) (e : Entry.t) :
  Args.dry_run args = false ->
  loop_body env s args sent_dir log_path f fr = (fr', inr tt) ->
  journal (world fr') = journal (world fr) ++ [(log_path, FileRecord e)] ->
  Entry.status e = Some "uploaded" ->
  executed (world fr')
  = executed (world fr) ++ planned_commands s args f (remote_path_of s f)
  /\ spawn env
       (executed (world fr)
        ++ (if Args.overwrite args then []
            else [probe_command s (remote_path_of s f)]))
       (fs (world fr)) (scp_command s f (remote_path_of s f)) = inr 0%Z
  /\ (Args.overwrite args = false ->
      spawn env (executed (world fr)) (fs (world fr))
        (probe_command s (remote_path_of s f)) <> inr 0%Z).
Proof.
  intros Hdry H Hj Hst.
  apply loop_body_inv in H
    as [(e0 & _ & [=] & _) | (size & fr1 & r1 & _ & Hbody & Htail)].
  pose proof (loop_body_record _ _ _ _ _ _ _ _ _ _ _ Hbody Htail) as (Hj' & Hrec).
  rewrite Hj in Hj'. apply app_inj_tail in Hj' as [_ He]. injection He as ->.
  apply loop_tail_executed in Htail as (Hx & _).
  destruct r1 as [e0 | []].
  - rewrite Hrec in Hst. discriminate.
  - destruct Hrec as [_ Hrec]. rewrite Hrec in Hst. discriminate.
  - apply try_body_trace in Hbody as (l & Hl & _ & Hprobe & Hft).
    destruct (Hft Hdry eq_refl) as [-> Hscp]. simpl in *.
    split; [rewrite Hx, Hl; reflexivity |]. split; [exact Hscp |].
    intros Hov Hspawn.
    destruct (Hprobe Hdry Hov 0%Z Hspawn) as [Hshort _].
    specialize (Hshort eq_refl).
    unfold planned_commands in Hshort. rewrite Hdry, Hov in Hshort.
    apply prefix_length in Hshort. simpl in Hshort. lia.
Qed.

Lemma uploaded_means_scp_exited_with_zero_witness :
  let fr := loop_start three_files in
  let fr' := fst (loop_body mixed_host settings plain sent_dir log_path a_csv fr) in
  executed (world fr')
  = executed (world fr) ++ planned_commands settings plain a_csv
                             (remote_path_of settings a_csv)
  /\ spawn mixed_host
       (executed (world fr)
        ++ (if Args.overwrite plain then []
            else [probe_command settings (remote_path_of settings a_csv)]))
       (fs (world fr)) (scp_command settings a_csv (remote_path_of settings a_csv))
     = inr 0%Z
  /\ (Args.overwrite plain = false ->
      spawn mixed_host (executed (world fr)) (fs (world fr))
        (probe_command settings (remote_path_of settings a_csv)) <> inr 0%Z).
Proof.
  apply (uploaded_means_scp_exited_with_zero mixed_host settings plain sent_dir
           log_path a_csv (loop_start three_files) _
           (Entry.mk "2024-01-01T15:00:00Z" "file" "/srv/app/files/a.csv"
              "/inputs/a.csv" 5
              (Some (Hashlib.sha256 (list_byte_of_string "alpha")))
              (Some "uploaded") None));
    vm_compute; reflexivity.
Defined.

(** X15.  The record an iteration writes for a regular file carries the time
    read when the iteration began and the size in bytes of the file; for a
    readable file its sha256 field is the SHA-256 of the content of the file,
    and for an unreadable one the record is 'failed' and has no digest. *)
Theorem a_record_describes_its_file
  (env : Env) (s : Settings.t) (args : Args.t) (sent_dir log_path f : Path)
  (fr fr' : Frame) (mode : Z) (data : list byte) :
  loop_body env s args sent_dir log_path f fr = (fr', inr tt) ->
  Os.node_at (fs (world fr)) f = Some (File mode data) ->
  exists e,
    journal (world fr') = journal (world fr) ++ [(log_path, FileRecord e)]
    /\ Entry.ts e = utcnow_iso env (clock_reads (world fr))
    /\ Entry.size_bytes e = Z.of_nat (length data)
    /\ (if Os.readable mode
        then Entry.sha256 e = Some (Hashlib.sha256 data)
        else Entry.sha256 e = None /\ Entry.status e = Some "failed").
Proof.
  intros H Hnode.
  apply loop_body_inv in H
    as [(e0 & _ & [=] & _) | (size & fr1 & r1 & Hsize & Hbody & Htail)].
  pose proof (loop_body_record _ _ _ _ _ _ _ _ _ _ _ Hbody Htail) as (Hj' & Hrec).
  exists (entry fr'). split; [exact Hj' |].
  unfold Os.st_size in Hsize. rewrite Hnode in Hsize. injection Hsize as <-.
  apply try_body_entry in Hbody as (Hts & Hsz & Hsha).
  simpl in Hts, Hsz.
  assert (Hsame : Entry.ts (entry fr') = Entry.ts (entry fr1)
                  /\ Entry.size_bytes (entry fr') = Entry.size_bytes (entry fr1)
                  /\ Entry.sha256 (entry fr') = Entry.sha256 (entry fr1)).
  { destruct r1 as [e0 | []].
    - rewrite Hrec. auto.
    - destruct Hrec as [-> _]. auto.
    - destruct Hrec as [-> _]. auto. }
  destruct Hsame as (-> & -> & ->).
  split; [exact Hts |]. split; [exact Hsz |].
  destruct (Os.readable mode) eqn:Hread.
  - rewrite (sha256_file_digest f default_chunk_size _ mode data)
      in Hsha;
      [exact Hsha | apply default_chunk_size_fits; unfold default_chunk_size; lia
      | discriminate | exact Hnode | exact Hread].
  - unfold sha256_file, bind, query_fs, Os.open_rb in Hsha. simpl in Hsha.
    rewrite Hnode, Hread in Hsha. simpl in Hsha.
    destruct Hsha as [-> Hsha]. split; [exact Hsha |]. rewrite Hrec. reflexivity.
Qed.

Lemma a_record_describes_its_file_witness :
  let fr := loop_start three_files in
  let fr' := fst (loop_body mixed_host settings plain sent_dir log_path a_csv fr) in
  exists e,
    journal (world fr') = journal (world fr) ++ [(log_path, FileRecord e)]
    /\ Entry.ts e = utcnow_iso mixed_host (clock_reads (world fr))
    /\ Entry.size_bytes e = Z.of_nat (length (list_byte_of_string "alpha"))
    /\ (if Os.readable 420
        then Entry.sha256 e = Some (Hashlib.sha256 (list_byte_of_string "alpha"))
        else Entry.sha256 e = None /\ Entry.status e = Some "failed").
Proof.
  apply (a_record_describes_its_file mixed_host settings plain sent_dir log_path
           a_csv (loop_start three_files)); vm_compute; reflexivity.
Defined.

(** ** The whole run *)

Import Scenario.

(** X16.  The write of the record after the try statement is not protected:
    when the try block has completed the upload of a file and that write
    raises, the exception leaves the loop, the remaining files are not
    processed, and the log has no record of the file that was uploaded and
    counted. *)
Theorem a_failed_log_write_aborts_the_run
  (env : Env) (s : Settings.t) (args : Args.t) (sent_dir log_path : Path)
  (f : Path) (rest : list Path) (fr fr2 : Frame) (size : Z) (e : Exn) (w3 : World) :
  Os.st_size (fs (world fr)) f = inr size ->
  try_body env s args sent_dir log_path f (remote_path_of s f)
    (try_frame env s f size fr) = (fr2, inr FallThrough) ->
  write_jsonl env log_path (FileRecord (entry fr2)) (world fr2) = (w3, inl e) ->
  for_files env s args sent_dir log_path (f :: rest) fr
  = (mkFrame w3 (entry fr2) (ok fr2) (skipped fr2) (fail fr2), inl e)
  /\ journal w3 = journal (world fr)
  /\ executed w3 = executed (world fr2)
  /\ Entry.status (entry fr2) = Some "uploaded"
  /\ ok fr2 = (ok fr + 1)%Z.
Proof.
  intros Hsize Hbody Hwrite.
  assert (Hloop : loop_body env s args sent_dir log_path f fr
                  = (mkFrame w3 (entry fr2) (ok fr2) (skipped fr2) (fail fr2), inl e)).
  { unfold loop_body, bind, liftW, utc_iso, read_clock, query_fs, assign_entry,
      try_except. simpl. rewrite Hsize.
    unfold try_frame in Hbody. rewrite Hbody.
    unfold bind, read_entry, ret, liftW. simpl. rewrite Hwrite. reflexivity. }
  split; [simpl; unfold bind at 1; rewrite Hloop; reflexivity |].
  pose proof (try_body_spec _ _ _ _ _ _ _ _ _ _ Hbody) as (_ & _ & _ & Hj & Hst & Hok & _).
  pose proof (write_jsonl_inl _ _ _ _ _ _ Hwrite) as (Hj3 & _).
  pose proof (keeps_run _ _ _ _ _ (keeps_write_jsonl_executed _ _ _) Hwrite) as Hx.
  simpl in *. rewrite Hj3, Hj. auto.
Qed.

Lemma a_failed_log_write_aborts_the_run_witness :
  let files := <[ ["srv"; "app"; "logs"] := text "not a directory" ]> three_files in
  let fr := loop_start files in
  let fr2 := fst (try_body open_host settings plain sent_dir log_path a_csv
                    (remote_path_of settings a_csv)
                    (try_frame open_host settings a_csv 5 fr)) in
  let w3 := fst (write_jsonl open_host log_path (FileRecord (entry fr2)) (world fr2)) in
  exists e,
    for_files open_host settings plain sent_dir log_path
      [a_csv; local_dir ++ ["b.csv"]; c_csv] fr
    = (mkFrame w3 (entry fr2) (ok fr2) (skipped fr2) (fail fr2), inl e)
    /\ journal w3 = journal (world fr)
    /\ executed w3 = executed (world fr2)
    /\ Entry.status (entry fr2) = Some "uploaded"
    /\ ok fr2 = (ok fr + 1)%Z.
Proof.
  eexists.
  apply (a_failed_log_write_aborts_the_run open_host settings plain sent_dir log_path
           a_csv [local_dir ++ ["b.csv"]; c_csv]
           (loop_start (<[ ["srv"; "app"; "logs"] := text "not a directory" ]> three_files))
           _ 5); vm_compute; reflexivity.
Defined.

(** X17.  For a readable regular file: with chunk size -1 one read takes
    everything and sha256_file returns the SHA-256 of the whole content; with
    chunk size 0 the first read is empty, nothing is hashed and the result is
    the SHA-256 of the empty input, whatever the file holds; with a chunk size
    from -2^63 to -2 the first f.read raises ValueError('read length must be
    non-negative or -1') and with one below -2^63 or above 2^63 - 1 it raises
    OverflowError (64-bit CPython), and sha256_file raises it without having
    hashed anything. *)
Theorem sha256_file_degenerate_chunk_sizes
  (path : Path) (w : World) (mode : Z) (data : list byte) :
  Os.node_at (fs w) path = Some (File mode data) ->
  Os.readable mode = true ->
  sha256_file path (-1) w = (w, inr (Hashlib.sha256 data))
  /\ sha256_file path 0 w = (w, inr (Hashlib.sha256 []))
  /\ (forall chunk_size, (- ssize_max - 1 <= chunk_size < -1)%Z ->
        sha256_file path chunk_size w
        = (w, inl (mkExn ValueError "read length must be non-negative or -1")))
  /\ (forall chunk_size, (chunk_size < - ssize_max - 1 \/ ssize_max < chunk_size)%Z ->
        sha256_file path chunk_size w
        = (w, inl (mkExn OverflowError
                     "cannot fit 'int' into an index-sized integer"))).
Proof.
  intros Hnode Hread.
  assert (Hmax : ssize_max = 9223372036854775807%Z) by reflexivity.
  split; [apply (sha256_file_digest path (-1) w mode data); auto; lia |].
  split.
  { unfold sha256_file, bind, query_fs, ret, Os.open_rb. rewrite Hnode, Hread.
    rewrite sha256_loop_step. reflexivity. }
  split.
  - intros cs Hcs. unfold sha256_file, bind, query_fs, ret, Os.open_rb.
    rewrite Hnode, Hread. rewrite sha256_loop_step. unfold read.
    destruct (Z.ltb_spec cs (- ssize_max - 1)) as [Hlt | _]; [lia |].
    destruct (Z.ltb_spec ssize_max cs) as [Hlt | _]; [lia |]. simpl.
    destruct (Z.ltb_spec cs (-1)) as [_ | Hge]; [reflexivity | lia].
  - intros cs Hcs. unfold sha256_file, bind, query_fs, ret, Os.open_rb.
    rewrite Hnode, Hread. rewrite sha256_loop_step. unfold read.
    destruct (Z.ltb_spec cs (- ssize_max - 1)) as [Hlt | Hge]; [reflexivity |].
    destruct (Z.ltb_spec ssize_max cs) as [Hlt | Hle]; [reflexivity | lia].
Qed.

Lemma sha256_file_degenerate_chunk_sizes_witness :
  sha256_file a_csv (-1) (initial_world three_files)
  = (initial_world three_files, inr (Hashlib.sha256 (list_byte_of_string "alpha")))
  /\ sha256_file a_csv 0 (initial_world three_files)
     = (initial_world three_files, inr (Hashlib.sha256 []))
  /\ sha256_file a_csv (-2) (initial_world three_files)
     = (initial_world three_files,
        inl (mkExn ValueError "read length must be non-negative or -1"))
  /\ sha256_file a_csv (2 ^ 63) (initial_world three_files)
     = (initial_world three_files,
        inl (mkExn OverflowError "cannot fit 'int' into an index-sized integer")).
Proof.
  destruct (sha256_file_degenerate_chunk_sizes a_csv (initial_world three_files) 420
              (list_byte_of_string "alpha")
              ltac:(vm_compute; reflexivity) ltac:(vm_compute; reflexivity))
    as (H1 & H2 & H3 & H4).
  split; [exact H1 |]. split; [exact H2 |].
  split; [apply H3; vm_compute; split; [discriminate | reflexivity] |].
  apply H4. right. vm_compute. reflexivity.
Defined.

Section WholeRun.
Variable env : Env.
Variable s : Settings.t.
Variable args : Args.t.

Lemma keeps_validate_env_clock : keeps clock_reads (validate_env env s).
Proof. unfold validate_env. keeps_auto. Qed.

Lemma ensure_remote_dir_executed d w w' r :
  ensure_remote_dir env s d w = (w', r) ->
  (executed w' = executed w /\ (d = true \/ exists e, r = inl e))
  \/ (d = false /\ executed w' = executed w ++ [mkdir_command s]).
Proof.
  destruct d.
  - intros H. left.
    assert (Hk : keeps executed (ensure_remote_dir env s true)).
    { unfold ensure_remote_dir, run_cmd. keeps_auto. }
    split; [exact (keeps_run _ _ _ _ _ Hk H) | auto].
  - unfold ensure_remote_dir. fold (mkdir_command s).
    destruct (spawn env (executed w) (fs w) (mkdir_command s)) as [e | code] eqn:E.
    + erewrite bind_inl by (apply run_cmd_inl; exact E).
      intros [= <- <-]. left. eauto.
    + erewrite bind_inr by (apply run_cmd_inr; exact E).
      destruct (negb (Z.eqb code 0)); intros [= <- _]; right; auto.
Qed.

(** A run that has passed its checks: the remote directory, the listing,
    the loop over the files, and the closing record. *)
Lemma main_run_inv w w1 w' r :
  validate_env env s w = (w1, inr tt) ->
  local_dir_valid env args (fs w) = true ->
  main env s args w = (w', r) ->
  exists w3 l0,
    executed w3 = executed w ++ l0
    /\ ((l0 = [] /\ (Args.dry_run args = true \/ w' = w3))
        \/ (Args.dry_run args = false /\ l0 = [mkdir_command s]))
    /\ journal w3 = journal w
    /\ fs w3 = fs w
    /\ ((w' = w3 /\ exists e, r = inl e)
        \/ (executed w' = executed w3
            /\ (journal w' = journal w3
                \/ exists rec, journal w' = journal w3 ++ [(log_file_of env args w, rec)]))
        \/ (exists fr rl,
              for_files env s args (resolve_arg env (Args.sent_dir args))
                (log_file_of env args w)
                (discovered env args (fs w))
                (mkFrame w3 Entry.unbound 0 0 0) = (fr, rl)
              /\ executed w' = executed (world fr)
              /\ (journal w' = journal (world fr)
                  \/ exists rec,
                       journal w' = journal (world fr) ++ [(log_file_of env args w, rec)]))).
Proof.
  intros Hval Hvalid H.
  pose proof (keeps_run _ _ _ _ _ (keeps_validate_env_fs env s) Hval) as Hfs.
  pose proof (keeps_run _ _ _ _ _ (keeps_validate_env_journal env s) Hval) as Hj.
  pose proof (keeps_run _ _ _ _ _ (keeps_validate_env_executed env s) Hval) as Hx.
  pose proof (keeps_run _ _ _ _ _ keeps_validate_env_clock Hval) as Hc.
  rewrite (main_prologue env s args w w1 Hval Hvalid) in H.
  rewrite Hc in H. fold (log_file_of env args w) in H.
  set (lp := log_file_of env args w) in *.
  assert (Hstart : forall w3 r3,
             ensure_remote_dir env s (Args.dry_run args)
               (with_clock_reads (S (clock_reads w)) w1) = (w3, r3) ->
             exists l0,
               executed w3 = executed w ++ l0
               /\ ((l0 = [] /\ (Args.dry_run args = true \/ exists e, r3 = inl e))
                   \/ (Args.dry_run args = false /\ l0 = [mkdir_command s]))
               /\ journal w3 = journal w
               /\ fs w3 = fs w).
  { intros w3 r3 He.
    pose proof (keeps_run _ _ _ _ _ (keeps_ensure_remote_dir_fs env s _) He) as Hf3.
    pose proof (keeps_run _ _ _ _ _ (keeps_ensure_remote_dir_journal env s _) He) as Hj3.
    simpl in Hf3, Hj3.
    apply ensure_remote_dir_executed in He as [[Hx3 Hwhy] | [Hd Hx3]]; simpl in Hx3.
    - exists []. rewrite app_nil_r. repeat split; try congruence. auto.
    - exists [mkdir_command s]. repeat split; try congruence. auto. }
  inv_bind H.
  2:{ destruct (Hstart _ _ H) as (l0 & H1 & H2 & H3 & H4).
      exists w', l0. repeat split; try assumption.
      - destruct H2 as [[-> _] | H2]; auto.
      - left. eauto. }
  destruct (Hstart _ _ Hrun) as (l0 & H1 & H2 & H3 & H4). clear Hstart Hrun.
  exists st, l0. split; [assumption |].
  split; [destruct H2 as [[-> [Hd | [e [=]]]] | H2]; auto |].
  do 2 (split; [assumption |]).
  inv_bind H.
  2:{ apply iter_files_pure in H as (-> & _). left. eauto. }
  pose proof Hrun as Hiter. apply iter_files_pure in Hrun as (-> & _).
  apply DiscoveryFacts.iter_files_inr in Hiter as (_ & Hfiles).
  rewrite H4 in Hfiles. fold (pattern_parts args) in Hfiles.
  fold (discovered env args (fs w)) in Hfiles.
  destruct v0 as [| f rest].
  - (* no file *)
    right. left.
    inv_bind H; [| discriminate]. injection Hrun as <- <-.
    inv_bind H; [| discriminate]. injection Hrun as <- <-.
    inv_bind H.
    + pose proof (keeps_run _ _ _ _ _ (keeps_write_jsonl_executed _ _ _) Hrun) as Hx4.
      apply write_jsonl_inr in Hrun as (Hj4 & _). injection H as <- <-.
      simpl in *. split; [exact Hx4 |]. right. eauto.
    + pose proof (keeps_run _ _ _ _ _ (keeps_write_jsonl_executed _ _ _) H) as Hx4.
      apply write_jsonl_inl in H as (Hj4 & _).
      simpl in *. split; [exact Hx4 |]. left. exact Hj4.
  - (* the loop *)
    right. right. rewrite <- Hfiles.
    set (files := f :: rest) in *.
    inv_bind H.
    + unfold run_loop in Hrun.
      destruct (for_files _ _ _ _ _ _ _) as [fr [e | u]] eqn:Hloop; [discriminate |].
      injection Hrun as <- <-.
      exists fr, (inr u). split; [reflexivity |].
      inv_bind H; [| discriminate]. injection Hrun as <- <-.
      inv_bind H.
      * pose proof (keeps_run _ _ _ _ _ (keeps_write_jsonl_executed _ _ _) Hrun) as Hx4.
        apply write_jsonl_inr in Hrun as (Hj4 & _). simpl in Hx4, Hj4.
        match type of H with
        | ?m _ = _ =>
            assert (Hk : keeps (fun w => (executed w, journal w)) m) by keeps_auto
        end.
        apply (keeps_run _ _ _ _ _ Hk) in H. injection H as -> ->.
        split; [exact Hx4 |]. right. eauto.
      * pose proof (keeps_run _ _ _ _ _ (keeps_write_jsonl_executed _ _ _) H) as Hx4.
        apply write_jsonl_inl in H as (Hj4 & _). simpl in Hx4, Hj4.
        split; [exact Hx4 |]. left. exact Hj4.
    + unfold run_loop in H.
      destruct (for_files _ _ _ _ _ _ _) as [fr [e | u]] eqn:Hloop; [| discriminate].
      injection H as <- _.
      exists fr, (inl e). split; [reflexivity |]. auto.
Qed.

End WholeRun.

(** X18.  In a tree of directories and regular files and for a pattern without
    a '..' component: however main ends, the commands it has run are none at
    all or the remote 'mkdir -p' followed only by probe and scp commands
    planned for regular files that were below the local directory when the run
    began; a dry run runs none. *)
Theorem main_runs_only_its_own_commands
  (env : Env) (s : Settings.t) (args : Args.t) (w w' : World) (r : Exn + Z) :
  ~ In ".." (Pathlib.parts (Pathlib.parse (Args.pattern args))) ->
  main env s args w = (w', r) ->
  exists l,
    executed w' = executed w ++ l
    /\ (Args.dry_run args = true -> l = [])
    /\ (l = [] \/ exists l',
          l = mkdir_command s :: l'
          /\ Forall (fun cmd =>
                       exists f,
                         Os.is_file (fs w) f = true
                         /\ (exists rel, f = resolve_arg env (Args.local_dir args) ++ rel)
                         /\ In cmd (planned_commands s args f (remote_path_of s f)))
               l').
Proof.
  intros _ H.
  assert (Hquiet : executed w' = executed w ->
                   exists l,
                     executed w' = executed w ++ l
                     /\ (Args.dry_run args = true -> l = [])
                     /\ (l = [] \/ exists l',
                           l = mkdir_command s :: l'
                           /\ Forall (fun cmd =>
                                        exists f,
                                          Os.is_file (fs w) f = true
                                          /\ (exists rel,
                                                f = resolve_arg env (Args.local_dir args)
                                                    ++ rel)
                                          /\ In cmd (planned_commands s args f
                                                       (remote_path_of s f)))
                                l')).
  { intros Hx. exists []. rewrite app_nil_r. auto. }
  destruct (validate_env env s w) as [w1 [e | []]] eqn:Hval.
  { apply Hquiet. revert H. unfold main. erewrite bind_inl by exact Hval.
    intros [= <- _]. exact (keeps_run _ _ _ _ _ (keeps_validate_env_executed env s) Hval). }
  destruct (local_dir_valid env args (fs w)) eqn:Hvalid.
  2:{ apply Hquiet. apply main_spec in H. rewrite Hvalid in H. tauto. }
  destruct (main_run_inv env s args w w1 w' r Hval Hvalid H)
    as (w3 & l0 & Hx3 & Hl0 & _ & _ & Hcase).
  assert (Hhead : forall l1,
             executed w' = executed w3 ++ l1 ->
             Forall (fun cmd =>
                       exists f,
                         In f (discovered env args (fs w))
                         /\ In cmd (planned_commands s args f (remote_path_of s f))) l1 ->
             exists l,
               executed w' = executed w ++ l
               /\ (Args.dry_run args = true -> l = [])
               /\ (l = [] \/ exists l',
                     l = mkdir_command s :: l'
                     /\ Forall (fun cmd =>
                                  exists f,
                                    Os.is_file (fs w) f = true
                                    /\ (exists rel,
                                          f = resolve_arg env (Args.local_dir args) ++ rel)
                                    /\ In cmd (planned_commands s args f
                                                 (remote_path_of s f)))
                          l')).
  { intros l1 Hx1 Hall.
    assert (Hdry1 : Args.dry_run args = true -> l1 = []).
    { intros Hdry. destruct l1 as [| cmd l1]; [reflexivity |].
      apply Forall_inv in Hall as (f & _ & Hin).
      unfold planned_commands in Hin. rewrite Hdry in Hin. destruct Hin. }
    assert (Hall' : Forall (fun cmd =>
                              exists f,
                                Os.is_file (fs w) f = true
                                /\ (exists rel,
                                      f = resolve_arg env (Args.local_dir args) ++ rel)
                                /\ In cmd (planned_commands s args f
                                             (remote_path_of s f))) l1).
    { eapply Forall_impl; [exact Hall |].
      intros cmd (f & Hf & Hin). exists f.
      apply DiscoveryFacts.in_discovered in Hf as (Hfile & rel & -> & _).
      eauto. }
    destruct Hl0 as [[-> [Hdry | ->]] | [Hdry ->]].
    - apply Hquiet. rewrite Hx1, Hx3, (Hdry1 Hdry), !app_nil_r. reflexivity.
    - apply Hquiet. rewrite Hx3, app_nil_r. reflexivity.
    - exists ([mkdir_command s] ++ l1). rewrite Hx1, Hx3, app_assoc.
      split; [reflexivity |]. split; [congruence |].
      right. exists l1. split; [reflexivity | exact Hall']. }
  destruct Hcase as [[-> _] | [[Hx _] | (fr & rl & Hloop & Hx & _)]].
  - apply (Hhead []); [rewrite app_nil_r; reflexivity | constructor].
  - apply (Hhead []); [rewrite app_nil_r; exact Hx | constructor].
  - apply for_files_commands in Hloop as (l1 & Hl1 & Hall). simpl in Hl1.
    apply (Hhead l1); [rewrite Hx; exact Hl1 | exact Hall].
Qed.

Lemma main_runs_only_its_own_commands_witness :
  exists l,
    executed (fst (result_of mixed_host plain three_files))
    = executed (initial_world three_files) ++ l
    /\ (Args.dry_run plain = true -> l = [])
    /\ (l = [] \/ exists l',
          l = mkdir_command settings :: l'
          /\ Forall (fun cmd =>
                       exists f,
                         Os.is_file (fs (initial_world three_files)) f = true
                         /\ (exists rel,
                               f = resolve_arg mixed_host (Args.local_dir plain) ++ rel)
                         /\ In cmd (planned_commands settings plain f
                                      (remote_path_of settings f)))
               l').
Proof.
  apply (main_runs_only_its_own_commands mixed_host settings plain
           (initial_world three_files) _
           (snd (result_of mixed_host plain three_files))).
  - vm_compute. intros [H | []]. discriminate H.
  - vm_compute. reflexivity.
Defined.

(** X19.  However main ends, every record it has written went to one file:
    <logs_dir>/upload_<stamp>.jsonl, where the stamp is the local time read
    once, before the remote directory is ensured. *)
Theorem a_run_writes_to_one_log_file
  (env : Env) (s : Settings.t) (args : Args.t) (w w' : World) (r : Exn + Z) :
  main env s args w = (w', r) ->
  exists l,
    journal w' = journal w ++ l
    /\ Forall (fun rec => fst rec = log_file_of env args w) l.
Proof.
  intros H.
  assert (Hquiet : journal w' = journal w ->
                   exists l,
                     journal w' = journal w ++ l
                     /\ Forall (fun rec => fst rec = log_file_of env args w) l).
  { intros Hj. exists []. rewrite app_nil_r. auto. }
  destruct (validate_env env s w) as [w1 [e | []]] eqn:Hval.
  { apply Hquiet. revert H. unfold main. erewrite bind_inl by exact Hval.
    intros [= <- _]. exact (keeps_run _ _ _ _ _ (keeps_validate_env_journal env s) Hval). }
  destruct (local_dir_valid env args (fs w)) eqn:Hvalid.
  2:{ apply Hquiet. apply main_spec in H. rewrite Hvalid in H. tauto. }
  destruct (main_run_inv env s args w w1 w' r Hval Hvalid H)
    as (w3 & l0 & _ & _ & Hj3 & _ & Hcase).
  destruct Hcase as [[-> _] | [[_ Hj] | (fr & rl & Hloop & _ & Hj)]].
  - apply Hquiet. exact Hj3.
  - destruct Hj as [Hj | [rec Hj]].
    + apply Hquiet. congruence.
    + exists [(log_file_of env args w, rec)]. rewrite Hj, Hj3. auto.
  - apply for_files_spec in Hloop as (recs & Hjl & Hfin & _). simpl in Hjl.
    assert (Hrecs : Forall (fun rec => fst rec = log_file_of env args w) recs).
    { eapply Forall_impl; [exact Hfin |]. intros rec [Hfst _]. exact Hfst. }
    destruct Hj as [Hj | [rec Hj]].
    + exists recs. rewrite Hj, Hjl, Hj3. auto.
    + exists (recs ++ [(log_file_of env args w, rec)]).
      rewrite Hj, Hjl, Hj3, app_assoc. split; [reflexivity |].
      apply Forall_app. auto.
Qed.

Lemma a_run_writes_to_one_log_file_witness :
  exists l,
    journal (fst (result_of mixed_host plain three_files))
    = journal (initial_world three_files) ++ l
    /\ Forall (fun rec => fst rec = log_file_of mixed_host plain
                                      (initial_world three_files)) l.
Proof.
  apply (a_run_writes_to_one_log_file mixed_host settings plain
           (initial_world three_files) _
           (snd (result_of mixed_host plain three_files))).
  vm_compute. reflexivity.
Defined.

(** ** The files a run leaves alone, and the exceptions of main *)

Import Scenario.

Module SparesFacts.






End SparesFacts.

Section Others.
Variable env : Env.
Variable s : Settings.t.
Variable args : Args.t.
Variables sent_dir log_path : Path.







End Others.

Section Outcome.
Variable env : Env.
Variable s : Settings.t.
Variable args : Args.t.


End Outcome.





(** * Examples *)

Example sha256_of_abc :
  Hashlib.sha256 (list_byte_of_string "abc")
  = "ba7816bf8f01cfea414140de5dae2223b00361a396177a9cb410ff61f20015ad".
Proof. vm_compute. reflexivity. Qed.

Example sha256_of_nothing :
  Hashlib.sha256 []
  = "e3b0c44298fc1c149afbf4c8996fb92427ae41e4649b934ca495991b7852b855".
Proof. vm_compute. reflexivity. Qed.

Example sha256_of_two_blocks :
  Hashlib.sha256
    (list_byte_of_string "abcdbcdecdefdefgefghfghighijhijkijkljklmklmnlmnomnopnopq")
  = "248d6a61d20638b8e5c026930c3e6039a33ce45964ff2167f6ecedd419db06c1".
Proof. vm_compute. reflexivity. Qed.

Example pathlib_suffixes :
  Pathlib.suffix ["a.tar.gz"] = ".gz" /\ Pathlib.stem ["a.tar.gz"] = "a.tar"
  /\ Pathlib.suffix [".bashrc"] = EmptyString /\ Pathlib.stem [".bashrc"] = ".bashrc"
  /\ Pathlib.suffix ["x."] = EmptyString /\ Pathlib.stem ["x."] = "x.".
Proof. repeat split; reflexivity. Qed.

Example pathlib_parsing :
  Pathlib.render (Pathlib.parse "/a//b/./c/") = "/a/b/c"
  /\ Pathlib.render (Pathlib.parse "a/b") = "a/b"
  /\ Pathlib.render (Pathlib.parse EmptyString) = "."
  /\ Pathlib.render (Pathlib.joinpath (Pathlib.parse "inputs/") "a.csv")
     = "inputs/a.csv".
Proof. repeat split; reflexivity. Qed.

(** Exactly two leading slashes are kept apart. *)
Example pathlib_two_slashes :
  Pathlib.render (Pathlib.joinpath (Pathlib.parse "//inputs") "a.csv")
  = "//inputs/a.csv"
  /\ Pathlib.render (Pathlib.joinpath (Pathlib.parse "///inputs") "a.csv")
     = "/inputs/a.csv"
  /\ resolve Scenario.open_host (Pathlib.parse "//srv/app/../app/files")
     = ["srv"; "app"; "files"].
Proof. repeat split; reflexivity. Qed.

Example expanduser_of_a_tilde :
  expanduser Scenario.open_host (Pathlib.parse "~/key.pem")
  = inr (Pathlib.PP "/" ["home"; "ubuntu"; "key.pem"])
  /\ expanduser Scenario.open_host (Pathlib.parse "~nobody/key.pem")
     = inl (mkExn RuntimeError "Could not determine home directory.")
  /\ expanduser Scenario.open_host (Pathlib.parse "keys/~/key.pem")
     = inr (Pathlib.PP EmptyString ["keys"; "~"; "key.pem"]).
Proof. repeat split; reflexivity. Qed.

Example fnmatch_patterns :
  Pathlib.fnmatch "data.csv" "*.csv" = true
  /\ Pathlib.fnmatch "data.csv" "*.txt" = false
  /\ Pathlib.fnmatch "ab" "a?" = true
  /\ Pathlib.fnmatch ".hidden" "*" = true.
Proof. repeat split; reflexivity. Qed.

(** A recursive run finds both namesakes; a plain run finds neither. *)
Example recursive_discovery :
  snd (iter_files Scenario.local_dir "*" true (initial_world Scenario.namesakes))
  = inr [Scenario.south_a; Scenario.north_a]
  /\ snd (iter_files Scenario.local_dir "*" false (initial_world Scenario.namesakes))
     = inr [].
Proof. vm_compute. split; reflexivity. Qed.

(** The patterns that [glob] and [rglob] refuse, and those that select
    directories only. *)
Example refused_patterns :
  let w := initial_world Scenario.three_files in
  snd (iter_files Scenario.local_dir "**.csv" false w)
  = inl (mkExn ValueError
           "Invalid pattern: '**' can only be an entire path component")
  /\ snd (iter_files Scenario.local_dir EmptyString false w)
     = inl (mkExn ValueError "Unacceptable pattern: ''")
  /\ snd (iter_files Scenario.local_dir "/srv/*" true w)
     = inl (mkExn NotImplementedError "Non-relative patterns are unsupported")
  /\ snd (iter_files Scenario.local_dir "." false w)
     = inl (mkExn IndexError "tuple index out of range")
  /\ snd (iter_files Scenario.local_dir "*.csv/" false w) = inr []
  /\ snd (iter_files Scenario.local_dir "**" false w) = inr []
  /\ snd (iter_files Scenario.local_dir EmptyString true w) = inr [].
Proof. vm_compute. repeat split; reflexivity. Qed.

(** The reads of the loop on five bytes, two at a time. *)
Example reads_of_the_loop :
  match sha256_loop 2 Hashlib.sha256_new (fopen (list_byte_of_string "alpha")) with
  | inr (_, f) => map string_of_list_byte (reads f)
  | inl _ => []
  end = ["al"; "ph"; "a"; EmptyString]
  /\ read (-2) (fopen (list_byte_of_string "alpha"))
     = inl (mkExn ValueError "read length must be non-negative or -1").
Proof. vm_compute. split; reflexivity. Qed.

(** One file fails at each stage of the iteration (digest, probe, transfer,
    move); the run goes through all four and ends with status 1. *)
Example run_survives_a_failure_at_every_stage :
  snd (Scenario.result_of Scenario.troubled_host Scenario.plain Scenario.troubled_files)
  = inr 1%Z
  /\ Scenario.verdicts
       (journal (fst (Scenario.result_of Scenario.troubled_host Scenario.plain
                        Scenario.troubled_files)))
     = [ ("/srv/app/files/d.csv", Some "failed",
          Some "[Errno 11] Resource temporarily unavailable");
         ("/srv/app/files/c.csv", Some "failed",
          Some "[Errno 17] File exists: '/srv/app/sent'");
         ("/srv/app/files/b.csv", Some "failed", Some "SCP falhou (exit=1).");
         ("/srv/app/files/a.csv", Some "failed",
          Some "[Errno 13] Permission denied: '/srv/app/files/a.csv'") ].
Proof. vm_compute. split; reflexivity. Qed.

(** An empty directory gives one "no_files" record and status 0. *)
Example empty_selection :
  snd (Scenario.result_of Scenario.open_host Scenario.plain Scenario.project) = inr 0%Z
  /\ map (fun r => match snd r with
                   | NoFilesRecord n => NoFiles.status n
                   | _ => "?"
                   end)
       (journal (fst (Scenario.result_of Scenario.open_host Scenario.plain
                        Scenario.project)))
     = ["no_files"].
Proof. vm_compute. split; reflexivity. Qed.

(** A missing local directory gives status 2 and one line on stderr. *)
Example invalid_local_directory :
  Scenario.result_of Scenario.open_host Scenario.elsewhere Scenario.project
  = (with_stderr ["ERRO: pasta local inválida: /srv/app/missing"]
       (initial_world Scenario.project), inr 2%Z).
Proof. vm_compute. reflexivity. Qed.

(** Without [--overwrite] the second namesake finds the first one's upload
    on the remote host and is skipped. *)
Example second_namesake_is_skipped :
  Scenario.verdicts
    (journal (fst (Scenario.result_of Scenario.open_host Scenario.recursive
                     Scenario.namesakes)))
  = [ ("/srv/app/files/south/a.csv", Some "uploaded", None);
      ("/srv/app/files/north/a.csv", Some "skipped_remote_exists", None) ].
Proof. vm_compute. reflexivity. Qed.
